(** * Grocy Butler: the enrichment worker

    A shallow embedding of the Cloudflare Worker of this repository, in its
    latest revision (the one with [cacheGetJson] and [resolveProductFuzzy]):
    the normaliser and scorer, fuzzy product resolution, the cache-aside
    helper, and six of the enriched handlers - adding to a shopping list,
    the enriched shopping list, the enriched stock, product creation, and
    stock-add, single and in bulk - with the bearer and configuration checks
    in front of them and the filter the pass-through applies to the answer
    of the backend.  The product search is not embedded (its limit is read
    with [Number] from any text and its confidence is a fraction), nor is
    the forwarding of a pass-through request (a raw body and a timer).

    JavaScript values are the JSON data model plus [undefined], with integers
    for numbers.  The handlers run in a monad that threads the cache and the
    log of backend calls and that can throw or return early, as the source
    does; the callbacks given to [Promise.all] run one after the other. *)

From Stdlib Require Import ZArith List String Ascii Bool Lia Permutation Sorted.
From stdpp Require Import base option list gmap strings pretty.
Import ListNotations.
Local Open Scope string_scope.
Local Open Scope Z_scope.

(** ** Strings

    A string is a sequence of code units below 256, which covers every input
    used below.  The three operations of [normalize] are those of the
    language restricted to this range: [toLowerCase] maps A-Z and the
    upper-case letters of the Latin-1 block, [trim] removes white space and
    line terminators at both ends, and the class [\s] of the regular
    expression is the same set of characters. *)

Module JsString.

Definition between (lo hi : nat) (c : ascii) : bool :=
  let n := nat_of_ascii c in (lo <=? n)%nat && (n <=? hi)%nat.

Definition isWhiteSpace (c : ascii) : bool :=
  between 9 13 c || between 32 32 c || between 160 160 c.

Definition lowerChar (c : ascii) : ascii :=
  if between 65 90 c || (between 192 222 c && negb (between 215 215 c))
  then ascii_of_nat (nat_of_ascii c + 32)
  else c.

Fixpoint toLowerCase (s : string) : string :=
  match s with
  | EmptyString => EmptyString
  | String c s' => String (lowerChar c) (toLowerCase s')
  end.

Fixpoint trimStart (s : string) : string :=
  match s with
  | EmptyString => EmptyString
  | String c s' => if isWhiteSpace c then trimStart s' else s
  end.

Fixpoint trimEnd (s : string) : string :=
  match s with
  | EmptyString => EmptyString
  | String c s' =>
      match trimEnd s' with
      | EmptyString => if isWhiteSpace c then EmptyString else String c EmptyString
      | t => String c t
      end
  end.

Definition trim (s : string) : string := trimEnd (trimStart s).

(** The characters the pattern [[^a-z0-9\s]] does not match. *)
Definition kept (c : ascii) : bool :=
  between 97 122 c || between 48 57 c || isWhiteSpace c.

(** [s.replace(/[^a-z0-9\s]/g, "")] *)
Fixpoint strip (s : string) : string :=
  match s with
  | EmptyString => EmptyString
  | String c s' => if kept c then String c (strip s') else strip s'
  end.

Fixpoint startsWith (s q : string) : bool :=
  match q, s with
  | EmptyString, _ => true
  | String _ _, EmptyString => false
  | String b q', String a s' => Ascii.eqb a b && startsWith s' q'
  end.

Fixpoint includes (s q : string) : bool :=
  startsWith s q ||
  match s with
  | EmptyString => false
  | String _ s' => includes s' q
  end.

Fixpoint all (P : ascii -> bool) (s : string) : bool :=
  match s with
  | EmptyString => true
  | String c s' => P c && all P s'
  end.

End JsString.

(** ** Values *)

#[local] Set Warnings "-register-all".

Inductive jval : Type :=
  | JUndef
  | JNull
  | JBool (b : bool)
  | JNum (n : Z)
  | JStr (s : string)
  | JArr (xs : list jval)
  | JObj (fields : list (string * jval)).

(** Numbers are the integers: ids, scores and counts.  Amounts and prices are
    only tested with [typeof] and passed on. *)

Definition truthy (v : jval) : bool :=
  match v with
  | JUndef | JNull => false
  | JBool b => b
  | JNum n => negb (n =? 0)
  | JStr s => negb (String.eqb s "")
  | JArr _ | JObj _ => true
  end.

Definition nullish (v : jval) : bool :=
  match v with JUndef | JNull => true | _ => false end.

(** [typeof v === "number"] and [typeof v === "string"] *)
Definition is_number (v : jval) : bool :=
  match v with JNum _ => true | _ => false end.

Definition is_string (v : jval) : bool :=
  match v with JStr _ => true | _ => false end.

(** [a || b] and [a ?? b] *)
Definition js_or (a b : jval) : jval := if truthy a then a else b.
Definition coalesce (a b : jval) : jval := if nullish a then b else a.

(** [a === b].  Two objects or arrays are equal only when they are the same
    object; the values compared below come from different parses. *)
Definition strict_eq (a b : jval) : bool :=
  match a, b with
  | JUndef, JUndef | JNull, JNull => true
  | JBool x, JBool y => Bool.eqb x y
  | JNum x, JNum y => x =? y
  | JStr x, JStr y => String.eqb x y
  | _, _ => false
  end.

Fixpoint lookup_field (k : string) (fs : list (string * jval)) : jval :=
  match fs with
  | [] => JUndef
  | (k', v) :: fs' => if String.eqb k k' then v else lookup_field k fs'
  end.

(** [v.k] for a named data field [k] of a value that is neither [null] nor
    [undefined]: a primitive or an array has no such field. *)
Definition get (k : string) (v : jval) : jval :=
  match v with
  | JObj fs => lookup_field k fs
  | _ => JUndef
  end.

(** [v?.k] *)
Definition get_opt (k : string) (v : jval) : jval :=
  if nullish v then JUndef else get k v.

(** [String(v)], also the conversion of a property key and of a value
    spliced into a template literal.  An object is taken to have no member
    [toString] of its own: of one that has, the conversion throws. *)
Fixpoint js_String (v : jval) : string :=
  match v with
  | JUndef => "undefined"
  | JNull => "null"
  | JBool b => if b then "true" else "false"
  | JNum n => pretty n
  | JStr s => s
  | JArr xs =>
      String.concat "," (map (fun x => if nullish x then "" else js_String x) xs)
  | JObj _ => "[object Object]"
  end.

(** What [JSON.stringify] writes, as the value a reader of the text gets
    back: a member whose value is [undefined] is left out, and [undefined]
    inside an array becomes [null]. *)
Fixpoint JSON_stringify (v : jval) : jval :=
  match v with
  | JArr xs =>
      JArr (map (fun x => match x with JUndef => JNull | _ => JSON_stringify x end) xs)
  | JObj fs =>
      JObj (fold_right
              (fun kv acc =>
                 match kv with
                 | (_, JUndef) => acc
                 | (k, x) => (k, JSON_stringify x) :: acc
                 end) [] fs)
  | _ => v
  end.

(** A text: either the serialisation of a JSON value, standing for that
    value, or some other text, which [JSON.parse] rejects. *)
Inductive payload : Type :=
  | Json (v : jval)
  | Text (s : string).

(** ** Normaliser and scorer *)

Definition normalize (str : jval) : string :=
  JsString.strip
    (JsString.trim
       (JsString.toLowerCase (js_String (js_or str (JStr ""))))).

Definition scoreProduct (name query : string) : Z :=
  if String.eqb name query then 100
  else if JsString.startsWith name query then 60
  else if JsString.includes name query then 30
  else 0.

(** ** [Array.prototype.sort]

    The sort is stable: [insert_by] puts an element in front of the first one
    it does not have to follow, and the elements are inserted from the right,
    so that an element stays in front of its ties. *)

Section Sort.
Context {A : Type} (cmp : A -> A -> Z).

Fixpoint insert_by (x : A) (l : list A) : list A :=
  match l with
  | [] => [x]
  | y :: l' => if 0 <? cmp x y then y :: insert_by x l' else x :: l
  end.

Definition sort_by (l : list A) : list A := fold_right insert_by [] l.
End Sort.


(** ** The world of a request

    What the worker talks to: the backend, reached with [fetch], and the
    cache of the platform.  The backend is a function of the calls made so
    far and of the call at hand, so that it may answer a read differently
    after a write; a call can also fail to produce any response.  The cache
    keeps, for each key, the stored text and the instant up to which the
    platform serves it ([Cache-Control: max-age]). *)

Inductive exn : Type :=
  | TypeError
  | SyntaxError
  | Error (message : string).

Record response : Type := mkResponse {
  status : Z;
  headers : list (string * string);
  rbody : payload
}.

Inductive req_body : Type :=
  | NoBody
  | JsonBody (v : jval)
  | FormBody (file : payload).

Record request : Type := mkRequest {
  rq_method : string;
  rq_url : string;
  rq_body : req_body
}.

Inductive fetched : Type :=
  | Responded (r : response)
  | Rejected (message : string).

Record units_config : Type := mkUnits {
  unit_stock : string;
  unit_purchase : string;
  unit_consume : string;
  unit_price : string
}.

Record config : Type := mkConfig {
  upstreamBase : string;
  CACHE_VERSION : string;
  CACHE_DURATION : Z;
  DEFAULT_LOCATION_NAME : string;
  DEFAULT_UNITS : units_config
}.

Record env : Type := mkEnv {
  conf : config;
  now : Z;
  upstream : list request -> request -> fetched
}.

Record cache_entry : Type := mkEntry {
  stored : payload;
  expires : Z
}.

Record state : Type := mkState {
  cache : gmap string cache_entry;
  sent : list request
}.

(** A computation ends with a value, with [return] of a response from the
    handler, or with an exception. *)
Inductive result (A : Type) : Type :=
  | Val (a : A)
  | Returned (r : response)
  | Thrown (e : exn).

Arguments Val {A} a.
Arguments Returned {A} r.
Arguments Thrown {A} e.

Definition M (A : Type) : Type := env -> state -> result A * state.

Definition ret {A} (a : A) : M A := fun _ s => (Val a, s).

Definition bind {A B} (m : M A) (k : A -> M B) : M B :=
  fun e s =>
    match m e s with
    | (Val a, s') => k a e s'
    | (Returned r, s') => (Returned r, s')
    | (Thrown x, s') => (Thrown x, s')
    end.

Definition Return {A} (r : response) : M A := fun _ s => (Returned r, s).

Definition throw {A} (x : exn) : M A := fun _ s => (Thrown x, s).

(** [try { m } catch (err) { h err }] *)
Definition try_catch {A} (m : M A) (h : exn -> M A) : M A :=
  fun e s =>
    match m e s with
    | (Thrown x, s') => h x e s'
    | r => r
    end.

Definition asks {A} (f : config -> A) : M A := fun e s => (Val (f (conf e)), s).

Declare Scope js_scope.
Delimit Scope js_scope with js.
Notation "x <- c1 ;; c2" := (bind c1 (fun x => c2))
  (at level 100, c1 at next level, right associativity) : js_scope.
Notation "c1 ;; c2" := (bind c1 (fun _ => c2))
  (at level 100, right associativity) : js_scope.
Local Open Scope js_scope.

Fixpoint mapM {A B} (f : A -> M B) (l : list A) : M (list B) :=
  match l with
  | [] => ret []
  | x :: l' => y <- f x ;; ys <- mapM f l' ;; ret (y :: ys)
  end.

(** What the handler hands back to the platform. *)
Definition run (h : M response) (e : env) (s : state) : result response * state :=
  match h e s with
  | (Val r, s') => (Returned r, s')
  | r => r
  end.

Definition ok (r : response) : bool := (200 <=? status r) && (status r <=? 299).

(** [r.json()] *)
Definition json_of (p : payload) : M jval :=
  match p with
  | Json v => ret v
  | Text _ => throw SyntaxError
  end.

(** [await fetch(...)]: the call is issued, then answered or rejected. *)
Definition fetch (rq : request) : M response :=
  fun e s =>
    let s' := mkState (cache s) (sent s ++ [rq]) in
    match upstream e (sent s) rq with
    | Responded r => (Val r, s')
    | Rejected msg => (Thrown (Error msg), s')
    end.

(** [fetch(...).catch(() => {})], not awaited: the call is issued and its
    outcome is never looked at. *)
Definition fetch_detached (rq : request) : M unit :=
  fun _ s => (Val tt, mkState (cache s) (sent s ++ [rq])).

Definition GET (url : string) : request := mkRequest "GET" url NoBody.

Definition POST (url : string) (obj : jval) : request :=
  mkRequest "POST" url (JsonBody (JSON_stringify obj)).

Definition is_write (rq : request) : bool := String.eqb (rq_method rq) "POST".

Definition cache_match (key : string) : M (option payload) :=
  fun e s =>
    (Val match cache s !! key with
         | Some c => if now e <? expires c then Some (stored c) else None
         | None => None
         end, s).

Definition cache_put (key : string) (text : payload) (max_age : Z) : M unit :=
  fun e s => (Val tt, mkState (<[key := mkEntry text (now e + max_age)]> (cache s)) (sent s)).

Definition cache_delete (key : string) : M unit :=
  fun _ s => (Val tt, mkState (delete key (cache s)) (sent s)).

(** ** Cache-aside *)

Definition cacheGetJson (cacheKeyUrl : string) (fetcher : M response) (ttlSeconds : Z)
  : M jval :=
  cached <- cache_match cacheKeyUrl ;;
  match cached with
  | Some c => json_of c
  | None =>
      resp <- fetcher ;;
      if negb (ok resp) then ret JNull
      else
        let text := rbody resp in
        cache_put cacheKeyUrl text ttlSeconds ;;
        json_of text
  end.

Definition cache_key (discriminator : string) : M string :=
  asks (fun c => "https://cache.local/" ++ CACHE_VERSION c ++ "/grocy/" ++ discriminator).

Definition api (path : string) : M string :=
  asks (fun c => upstreamBase c ++ path).

(** [cacheGetJson(cache, keyUrl, () => fetch(url, ...), CACHE_DURATION)] for
    one of the collections of the backend. *)
Definition cachedCollection (discriminator path : string) : M jval :=
  keyUrl <- cache_key discriminator ;;
  url <- api path ;;
  ttl <- asks CACHE_DURATION ;;
  cacheGetJson keyUrl (fetch (GET url)) ttl.

Definition getCached (discriminator path failure : string) : M jval :=
  data <- cachedCollection discriminator path ;;
  if negb (truthy data) then throw (Error failure) else ret data.

Definition getCachedProducts : M jval :=
  getCached "products" "/api/objects/products" "Failed to fetch products".

Definition getCachedShoppingLists : M jval :=
  getCached "shopping_lists" "/api/objects/shopping_lists" "Failed to fetch shopping lists".

Definition getCachedStores : M jval :=
  getCached "stores" "/api/objects/shopping_locations" "Failed to fetch stores".

(** ** Arrays and objects of the backend *)

(** The receiver of [.map], [.find], [.some]: anything but an array has no
    such method, and the call throws. *)
Definition elems (v : jval) : M (list jval) :=
  match v with
  | JArr xs => ret xs
  | _ => throw TypeError
  end.

(** [v.k] where [v] may be anything. *)
Definition prop (k : string) (v : jval) : M jval :=
  if nullish v then throw TypeError else ret (get k v).

(** [xs.find(x => f x)] *)
Fixpoint find_first (f : jval -> M bool) (xs : list jval) : M jval :=
  match xs with
  | [] => ret JUndef
  | x :: xs' => b <- f x ;; if b then ret x else find_first f xs'
  end.

Definition js_find (f : jval -> M bool) (v : jval) : M jval :=
  xs <- elems v ;; find_first f xs.

(** [xs.some(x => f x)] *)
Fixpoint js_some (f : jval -> M bool) (xs : list jval) : M bool :=
  match xs with
  | [] => ret false
  | x :: xs' => b <- f x ;; if b then ret true else js_some f xs'
  end.

(** ** Fuzzy product resolution *)

Record scored : Type := mkScored {
  m_id : jval;
  m_name : jval;
  m_score : Z
}.

Inductive resolution : Type :=
  | Resolved (product : scored)
  | NotFound (product : jval)
  | Ambiguous (products : list scored).

Definition score_entry (query : string) (p : jval) : M scored :=
  id <- prop "id" p ;;
  name <- prop "name" p ;;
  ret (mkScored id name
         (if truthy name then scoreProduct (normalize name) query else 0)).

(** [(a, b) => b.score - a.score] *)
Definition by_score_desc (a b : scored) : Z := m_score b - m_score a.

(** [.filter(p => p.score > 0).sort((a, b) => b.score - a.score).slice(0, n)] *)
Definition best (n : nat) (l : list scored) : list scored :=
  firstn n (sort_by by_score_desc (List.filter (fun p => 0 <? m_score p) l)).

Definition resolveProductFuzzy (products productName : jval) : M resolution :=
  let query := normalize productName in
  ps <- elems products ;;
  all <- mapM (score_entry query) ps ;;
  let matches := best 5 all in
  match matches with
  | [] => ret (NotFound productName)
  | top :: _ =>
      if (1 <? length matches)%nat && (m_score top <? 100)
      then ret (Ambiguous matches)
      else ret (Resolved top)
  end.

Definition id_name (m : scored) : jval :=
  JObj [("id", m_id m); ("name", m_name m)].

(** [resolved.error] *)
Definition resolution_error (r : resolution) : list (string * jval) :=
  match r with
  | Resolved _ => []
  | NotFound productName =>
      [("error", JStr "product_not_found"); ("product", productName)]
  | Ambiguous matches =>
      [("error", JStr "multiple_products"); ("products", JArr (map id_name matches))]
  end.

(** ** Requests and responses of the worker *)

Record inbound : Type := mkInbound {
  method : string;
  pathname : string;
  searchParams : list (string * string);
  body : payload
}.

(** [json(obj, status)] *)
Definition json (obj : jval) (st : Z) : response :=
  mkResponse st [("Content-Type", "application/json")] (Json (JSON_stringify obj)).

Definition jsonError (st : Z) (obj : jval) : response := json obj st.

(** [new Response(text, { status })] *)
Definition plain (text : string) (st : Z) : response :=
  mkResponse st [("Content-Type", "text/plain;charset=UTF-8")] (Text text).

Definition err (code : string) : jval := JObj [("error", JStr code)].

Definition safeJson (req : inbound) : jval :=
  match body req with
  | Json v => v
  | Text _ => JNull
  end.

(** [url.searchParams.get(k)] *)
Fixpoint searchParams_get (k : string) (q : list (string * string)) : jval :=
  match q with
  | [] => JNull
  | (k', v) :: q' => if String.eqb k k' then JStr v else searchParams_get k q'
  end.

(** Decimal digits read as a number. *)
Fixpoint digits_value (acc : Z) (s : string) : option Z :=
  match s with
  | EmptyString => Some acc
  | String c s' =>
      if JsString.between 48 57 c
      then digits_value (10 * acc + Z.of_nat (nat_of_ascii c - 48)) s'
      else None
  end.

(** The conversion to a number that [>] applies; [None] is NaN.  Of the
    numeric strings only the plain decimal ones are read: a text that writes
    a number with a sign, a fraction, an exponent or hexadecimal digits is
    outside of what is modelled. *)
Definition to_number (v : jval) : option Z :=
  match v with
  | JNum n => Some n
  | JBool b => Some (if b then 1 else 0)
  | JNull => Some 0
  | JUndef => None
  | _ => digits_value 0 (JsString.trim (js_String v))
  end.

(** [v > n] *)
Definition js_gt (v : jval) (n : Z) : bool :=
  match to_number v with
  | Some m => n <? m
  | None => false
  end.

(** [v.length] and [v[0]] of a value that is not [null] or [undefined]. *)
Definition js_length (v : jval) : jval :=
  match v with
  | JArr xs => JNum (Z.of_nat (length xs))
  | JStr s => JNum (Z.of_nat (String.length s))
  | JObj fs => lookup_field "length" fs
  | _ => JUndef
  end.

Definition js_first (v : jval) : jval :=
  match v with
  | JArr xs => hd JUndef xs
  | JStr (String c _) => JStr (String c EmptyString)
  | JObj fs => lookup_field "0" fs
  | _ => JUndef
  end.

(** [{ id: l.id, name: l.name }] *)
Definition id_and_name (l : jval) : M jval :=
  id <- prop "id" l ;;
  name <- prop "name" l ;;
  ret (JObj [("id", id); ("name", name)]).

(** [return json({ error: "multiple_lists", lists: lists.map(...) }, 400)] *)
Definition multiple_lists {A} (lists : jval) : M A :=
  xs <- elems lists ;;
  ls <- mapM id_and_name xs ;;
  Return (json (JObj [("error", JStr "multiple_lists"); ("lists", JArr ls)]) 400).

(** ** POST /api/enriched/shopping_list/add *)

(** The choice of the list, lines 199-212. *)
Definition selectedList_add (lists shopping_list_id : jval) : M jval :=
  if truthy shopping_list_id then
    selectedList <-
      js_find (fun l => id <- prop "id" l ;; ret (strict_eq id shopping_list_id)) lists ;;
    if negb (truthy selectedList)
    then Return (jsonError 400 (err "invalid_shopping_list_id"))
    else ret selectedList
  else if strict_eq (js_length lists) (JNum 1) then ret (js_first lists)
  else if js_gt (js_length lists) 1 then multiple_lists lists
  else Return (jsonError 400 (err "no_shopping_list_found")).

Definition enriched_shopping_list_add (req : inbound) : M response :=
  let body := safeJson req in
  if negb (truthy body) then Return (jsonError 400 (err "invalid_json")) else
  let product := get "product" body in
  let amount := get "amount" body in
  let note := get "note" body in
  let shopping_list_id := get "shopping_list_id" body in
  if negb (truthy product) || negb (is_number amount)
  then Return (jsonError 400 (err "invalid_request")) else
  lists <- try_catch getCachedShoppingLists
             (fun _ => Return (plain "Failed to fetch shopping lists" 502)) ;;
  selectedList <- selectedList_add lists shopping_list_id ;;
  products <- try_catch getCachedProducts
                (fun _ => Return (plain "Failed to fetch products" 502)) ;;
  resolved <- resolveProductFuzzy products product ;;
  match resolved with
  | Resolved found =>
      let productId := m_id found in
      list_id <- prop "id" selectedList ;;
      url <- api "/api/stock/shoppinglist/add-product" ;;
      addResp <- fetch (POST url (JObj [("product_id", productId);
                                        ("product_amount", amount);
                                        ("note", note);
                                        ("list_id", list_id)])) ;;
      if negb (ok addResp) then Return (plain "Failed to add item" 502) else
      Return (json (JObj [("status", JStr "added");
                          ("list", JObj [("id", list_id); ("name", get "name" selectedList)]);
                          ("item", JObj [("product_id", productId);
                                         ("product_name", m_name found);
                                         ("amount", amount);
                                         ("note", coalesce note JNull)])]) 200)
  | _ => Return (json (JObj (resolution_error resolved)) 400)
  end.

(** ** GET /api/enriched/shopping_list *)

(** The choice of the list, lines 267-280. *)
Definition selectedList_get (lists requestedListId : jval) : M jval :=
  if truthy requestedListId then
    selectedList <-
      js_find (fun l => id <- prop "id" l ;;
                        ret (String.eqb (js_String id) (js_String requestedListId))) lists ;;
    if negb (truthy selectedList)
    then Return (jsonError 400 (err "invalid_shopping_list_id"))
    else ret selectedList
  else if strict_eq (js_length lists) (JNum 1) then ret (js_first lists)
  else if js_gt (js_length lists) 1 then multiple_lists lists
  else Return (json (JObj [("list", JNull); ("items", JArr [])]) 200).

(** [[...new Set(l)]] *)
Fixpoint distinct (l : list Z) : list Z :=
  match l with
  | [] => []
  | x :: l' => x :: List.filter (fun y => negb (y =? x)) (distinct l')
  end.

(** [ids.filter(id => typeof id === "number")] *)
Definition numbers (l : list jval) : list Z :=
  flat_map (fun v => match v with JNum n => [n] | _ => [] end) l.

(** [Object.fromEntries(xs.map(x => [x.id, x.name]))]: a later entry
    replaces an earlier one with the same key. *)
Definition name_by_id (xs : list jval) : M (gmap string jval) :=
  entries <- mapM (fun x => id <- prop "id" x ;; name <- prop "name" x ;; ret (id, name)) xs ;;
  ret (fold_left (fun (m : gmap string jval) kv => <[js_String (fst kv) := snd kv]> m)
         entries ∅).

(** [m[k]] for an object [m] used as a map: the entry under the key, the
    members an object inherits from its prototype left aside (no id of the
    backend is named like one of them). *)
Definition at_key (m : gmap string jval) (k : jval) : jval :=
  default JUndef (m !! js_String k).

(** The body of the callback of [Promise.all], lines 311-329, for one
    product, and the callbacks one after the other in the order of the ids. *)
Definition lastPurchase (details : jval) : jval :=
  JObj [("last_price", coalesce (get "last_price" details) JNull);
        ("store_id", coalesce (get "last_shopping_location_id" details) JNull);
        ("price_qu_id",
           coalesce (coalesce (get_opt "qu_id_price" (get "product" details))
                              (get "qu_id_price" details)) JNull);
        ("price_qu_name", coalesce (get_opt "name" (get "quantity_unit_price" details)) JNull);
        ("price_to_stock_factor",
           coalesce (get "qu_conversion_factor_price_to_stock" details) JNull);
        ("purchase_to_stock_factor",
           coalesce (get "qu_conversion_factor_purchase_to_stock" details) JNull)].

Fixpoint lastPurchases (productIds : list Z) (lastPurchaseMap : gmap string jval)
  : M (gmap string jval) :=
  match productIds with
  | [] => ret lastPurchaseMap
  | productId :: rest =>
      cacheKeyUrl <- cache_key ("stock-product/" ++ pretty productId) ;;
      url <- api ("/api/stock/products/" ++ pretty productId) ;;
      details <- cacheGetJson cacheKeyUrl (fetch (GET url)) 3600 ;;
      if negb (truthy details) then lastPurchases rest lastPurchaseMap
      else lastPurchases rest (<[pretty productId := lastPurchase details]> lastPurchaseMap)
  end.

Definition enrichedItem (productMap storeMap lastPurchaseMap : gmap string jval) (i : jval)
  : M jval :=
  product_id <- prop "product_id" i ;;
  let last := coalesce (at_key lastPurchaseMap product_id) (JObj []) in
  ret (JObj [("product_id", product_id);
             ("product_name", coalesce (at_key productMap product_id) (JStr "Unknown"));
             ("amount", get "amount" i);
             ("note", coalesce (get "note" i) JNull);
             ("last_store",
                if truthy (get "store_id" last)
                then coalesce (at_key storeMap (get "store_id" last)) JNull
                else JNull);
             ("pricing",
                JObj [("last_price_per_price_unit", get "last_price" last);
                      ("price_unit", get "price_qu_name" last);
                      ("price_qu_id", get "price_qu_id" last);
                      ("amount", get "amount" i);
                      ("shopping_list_qu_id", coalesce (get "qu_id" i) JNull);
                      ("purchase_to_stock_factor", get "purchase_to_stock_factor" last);
                      ("price_to_stock_factor", get "price_to_stock_factor" last)])]).

Definition enriched_shopping_list (req : inbound) : M response :=
  let requestedListId := searchParams_get "list_id" (searchParams req) in
  lists <- try_catch getCachedShoppingLists
             (fun _ => Return (plain "Failed to fetch shopping lists" 502)) ;;
  selectedList <- selectedList_get lists requestedListId ;;
  list_id <- prop "id" selectedList ;;
  url <- api ("/api/objects/shopping_list?list_id=" ++ js_String list_id) ;;
  itemsResp <- fetch (GET url) ;;
  if negb (ok itemsResp) then Return (plain "Failed to fetch shopping list items" 502) else
  parsed <- json_of (rbody itemsResp) ;;
  all <- elems parsed ;;
  let items := firstn 50 all in
  ids <- mapM (prop "product_id") items ;;
  let productIds := distinct (numbers ids) in
  products <- try_catch getCachedProducts
                (fun _ => Return (plain "Failed to fetch products" 502)) ;;
  productMap <- (ps <- elems products ;; name_by_id ps) ;;
  stores <- try_catch getCachedStores
              (fun _ => Return (plain "Failed to fetch stores" 502)) ;;
  storeMap <- (ss <- elems stores ;; name_by_id ss) ;;
  lastPurchaseMap <- lastPurchases productIds ∅ ;;
  enrichedItems <- mapM (enrichedItem productMap storeMap lastPurchaseMap) items ;;
  Return (json (JObj [("list", JObj [("id", list_id); ("name", get "name" selectedList)]);
                      ("items", JArr enrichedItems)]) 200).

(** ** POST /api/enriched/products/create *)

(** [units.find(u => normalize(u.name) === normalize(unitName))], also used
    for locations and product groups. *)
Definition find_by_name (collection name : jval) : M jval :=
  js_find (fun x => n <- prop "name" x ;;
                    ret (String.eqb (normalize n) (normalize name))) collection.

Definition resolveUnit (units unitName : jval) : M jval := find_by_name units unitName.

(** The collections read at lines 467-472 and 479-484. *)
Definition cachedLocations : M jval :=
  cachedCollection "locations" "/api/objects/locations".

Definition cachedQuantityUnits : M jval :=
  cachedCollection "quantity-units" "/api/objects/quantity_units".

Record resolved_units : Type := mkResolved {
  ru_stock : jval;
  ru_purchase : jval;
  ru_consume : jval;
  ru_price : jval
}.

(** The object [resolvedUnits], lines 489-494. *)
Definition resolvedUnits (units quantity_units : jval) : M resolved_units :=
  defaults <- asks DEFAULT_UNITS ;;
  wanted_stock <- prop "stock" quantity_units ;;
  stock <- resolveUnit units (js_or wanted_stock (JStr (unit_stock defaults))) ;;
  wanted_purchase <- prop "purchase" quantity_units ;;
  purchase <- resolveUnit units (js_or wanted_purchase (JStr (unit_purchase defaults))) ;;
  wanted_consume <- prop "consume" quantity_units ;;
  consume <- resolveUnit units (js_or wanted_consume (JStr (unit_consume defaults))) ;;
  wanted_price <- prop "price" quantity_units ;;
  price <- resolveUnit units (js_or wanted_price (JStr (unit_price defaults))) ;;
  ret (mkResolved stock purchase consume price).

(** [Object.entries(resolvedUnits)] *)
Definition entries (r : resolved_units) : list (string * jval) :=
  [("stock", ru_stock r); ("purchase", ru_purchase r);
   ("consume", ru_consume r); ("price", ru_price r)].

(** [for (const [key, unit] of Object.entries(resolvedUnits)) if (!unit) return ...] *)
Fixpoint check_units (resolvedUnits : list (string * jval)) : M unit :=
  match resolvedUnits with
  | [] => ret tt
  | (key, unit) :: rest =>
      if negb (truthy unit)
      then Return (jsonError 400 (JObj [("error", JStr "invalid_quantity_unit");
                                        ("unit", JStr key)]))
      else check_units rest
  end.

(** [r.headers.get(k)], for a name in lower case, as the names are kept. *)
Fixpoint header_get (k : string) (hs : list (string * string)) : jval :=
  match hs with
  | [] => JNull
  | (k', v) :: hs' => if String.eqb k k' then JStr v else header_get k hs'
  end.

(** The text of a payload, for a JSON value in the form [JSON.stringify]
    writes it. *)
Definition quote : string := String (ascii_of_nat 34) EmptyString.
Definition backslash : string := String (ascii_of_nat 92) EmptyString.

Definition hex_digit (n : nat) : string :=
  String (ascii_of_nat (if (n <? 10)%nat then 48 + n else 87 + n)) EmptyString.

Definition escape_char (c : ascii) : string :=
  let n := nat_of_ascii c in
  if (n =? 34)%nat then backslash ++ quote
  else if (n =? 92)%nat then backslash ++ backslash
  else if (n =? 8)%nat then backslash ++ "b"
  else if (n =? 9)%nat then backslash ++ "t"
  else if (n =? 10)%nat then backslash ++ "n"
  else if (n =? 12)%nat then backslash ++ "f"
  else if (n =? 13)%nat then backslash ++ "r"
  else if (n <? 32)%nat
       then backslash ++ "u00" ++ hex_digit (n / 16) ++ hex_digit (n mod 16)
  else String c EmptyString.

Fixpoint escape (s : string) : string :=
  match s with
  | EmptyString => EmptyString
  | String c s' => escape_char c ++ escape s'
  end.

Fixpoint JSON_text (v : jval) : string :=
  match v with
  | JUndef | JNull => "null"
  | JBool b => if b then "true" else "false"
  | JNum n => pretty n
  | JStr s => quote ++ escape s ++ quote
  | JArr xs => "[" ++ String.concat "," (map JSON_text xs) ++ "]"
  | JObj fs =>
      "{" ++ String.concat ","
               (map (fun kv => match kv with
                               | (k, x) => quote ++ escape k ++ quote ++ ":" ++ JSON_text x
                               end) fs) ++ "}"
  end.

(** [r.text()] *)
Definition text_of (p : payload) : string :=
  match p with
  | Json v => JSON_text (JSON_stringify v)
  | Text s => s
  end.

(** [err.message]; the wording of the engine's own errors is not used. *)
Definition message_of (x : exn) : string :=
  match x with
  | Error m => m
  | TypeError | SyntaxError => ""
  end.

(** The optional image upload, lines 533-567: whether the image was attached
    and the recorded error. *)
Definition attachImage (image_url productId : jval) : M (bool * jval) :=
  if negb (truthy image_url) then ret (false, JNull) else
  try_catch
    (imgResp <- fetch (GET (js_String image_url)) ;;
     if negb (ok imgResp)
     then throw (Error ("image fetch failed (" ++ pretty (status imgResp) ++ ")")) else
     if js_gt (js_or (header_get "content-length" (headers imgResp)) (JNum 0)) 5000000
     then throw (Error "image too large") else
     let ct := js_String (js_or (header_get "content-type" (headers imgResp)) (JStr "")) in
     if negb (JsString.startsWith ct "image/")
     then throw (Error ("invalid content-type (" ++ ct ++ ")")) else
     url <- api ("/api/files/productpictures/" ++ js_String productId) ;;
     uploadResp <- fetch (mkRequest "POST" url (FormBody (rbody imgResp))) ;;
     if negb (ok uploadResp)
     then throw (Error ("upload failed (" ++ pretty (status uploadResp) ++ "): "
                          ++ text_of (rbody uploadResp)))
     else ret (true, JNull))
    (fun x => ret (false, JStr (message_of x))).

Definition enriched_products_create (req : inbound) : M response :=
  let body := safeJson req in
  if negb (truthy body) then Return (jsonError 400 (err "invalid_json")) else
  let name := get "name" body in
  let description := get "description" body in
  let default_location := get "default_location" body in
  let quantity_units :=
    match get "quantity_units" body with JUndef => JObj [] | q => q end in
  let product_group := get "product_group" body in
  let image_url := get "image_url" body in
  if negb (truthy name) || negb (is_string name)
  then Return (jsonError 400 (err "invalid_request")) else
  (* De-dupe check *)
  products <- try_catch getCachedProducts
                (fun _ => Return (plain "Failed to fetch products" 502)) ;;
  let normalizedName := normalize name in
  ps <- elems products ;;
  exists_ <- js_some (fun p => n <- prop "name" p ;;
                               ret (String.eqb (normalize n) normalizedName)) ps ;;
  if (exists_ : bool)
  then Return (jsonError 400 (JObj [("error", JStr "product_exists"); ("product", name)])) else
  (* Resolve location *)
  defaultLocation <- asks DEFAULT_LOCATION_NAME ;;
  let locationName := js_or default_location (JStr defaultLocation) in
  locations <- cachedLocations ;;
  if negb (truthy locations) then Return (plain "Failed to fetch locations" 502) else
  location <- find_by_name locations locationName ;;
  if negb (truthy location)
  then Return (jsonError 400 (JObj [("error", JStr "invalid_location");
                                    ("location", locationName)])) else
  (* Resolve quantity units *)
  units <- cachedQuantityUnits ;;
  if negb (truthy units) then Return (plain "Failed to fetch quantity units" 502) else
  resolved <- resolvedUnits units quantity_units ;;
  check_units (entries resolved) ;;
  let stock := ru_stock resolved in
  let purchase := ru_purchase resolved in
  let consume := ru_consume resolved in
  let price := ru_price resolved in
  (* Resolve product group (optional) *)
  product_group_id <-
    (if negb (truthy product_group) then ret JNull else
     pgUrl <- api "/api/objects/product_groups" ;;
     pgResp <- fetch (GET pgUrl) ;;
     if negb (ok pgResp) then Return (plain "Failed to fetch product groups" 502) else
     groups <- json_of (rbody pgResp) ;;
     found <- find_by_name groups product_group ;;
     if negb (truthy found)
     then Return (jsonError 400 (JObj [("error", JStr "invalid_product_group");
                                       ("product_group", product_group)]))
     else ret (get "id" found)) ;;
  (* Create product *)
  createUrl <- api "/api/objects/products" ;;
  createResp <- fetch (POST createUrl
                         (JObj [("name", name);
                                ("description", description);
                                ("location_id", get "id" location);
                                ("qu_id_stock", get "id" stock);
                                ("qu_id_purchase", get "id" purchase);
                                ("qu_id_consume", get "id" consume);
                                ("qu_id_price", get "id" price);
                                ("product_group_id", product_group_id)])) ;;
  if negb (ok createResp) then Return (plain "Failed to create product" 502) else
  created <- json_of (rbody createResp) ;;
  productId <- prop "id" created ;;
  image <- attachImage image_url productId ;;
  (* Invalidate product cache *)
  productsKey <- cache_key "products" ;;
  cache_delete productsKey ;;
  Return (json (JObj [("status", JStr "created");
                      ("product", JObj [("id", productId); ("name", name)]);
                      ("location", get "name" location);
                      ("quantity_units",
                         JObj [("stock", get "name" stock);
                               ("purchase", get "name" purchase);
                               ("consume", get "name" consume);
                               ("price", get "name" price)]);
                      ("image", JObj [("attached", JBool (fst image));
                                      ("error", snd image)])]) 200).

(** ** POST /api/enriched/stock/add/bulk *)

Definition line_error (line : jval) (fields : list (string * jval)) : jval :=
  JObj ([("line", line); ("status", JStr "error")] ++ fields).

(** One turn of the loop over [safeItems], lines 671-732: the result pushed
    for the line. *)
Definition bulk_line (products item : jval) : M jval :=
  line <- prop "line" item ;;
  let product := get "product" item in
  let amount := get "amount" item in
  let best_before_date := get "best_before_date" item in
  let price := get "price" item in
  if negb (truthy product) || negb (is_number amount)
  then ret (line_error line [("error", JStr "invalid_line")]) else
  resolved <- resolveProductFuzzy products product ;;
  match resolved with
  | Resolved found =>
      let productId := m_id found in
      detailsUrl <- api ("/api/stock/products/" ++ js_String productId) ;;
      fetchedDetails <-
        try_catch
          (detailsResp <- fetch (GET detailsUrl) ;;
           if negb (ok detailsResp) then throw (Error "") else
           details <- json_of (rbody detailsResp) ;;
           ret (Some details))
          (fun _ => ret None) ;;
      match fetchedDetails with
      | None => ret (line_error line [("error", JStr "product_details_unavailable")])
      | Some details =>
          detailsProduct <- prop "product" details ;;
          let quId := coalesce (get_opt "qu_id_stock" detailsProduct)
                               (get "qu_id_stock" details) in
          addUrl <- api ("/api/objects/products/" ++ js_String productId ++ "/add") ;;
          addResp <- fetch (POST addUrl (JObj [("amount", amount);
                                               ("best_before_date", best_before_date);
                                               ("qu_id", quId)])) ;;
          if negb (ok addResp)
          then ret (line_error line [("error", JStr "add_failed")]) else
          pricesUrl <- api "/api/objects/product_prices" ;;
          (if is_number price
           then fetch_detached
                  (POST pricesUrl
                     (JObj [("product_id", productId);
                            ("price", price);
                            ("store_id",
                               coalesce (get "last_shopping_location_id" details) JNull)]))
           else ret tt) ;;
          ret (JObj [("line", line);
                     ("status", JStr "added");
                     ("product", JObj [("id", productId); ("name", m_name found)]);
                     ("interpreted_as",
                        JObj [("amount", amount);
                              ("unit",
                                 coalesce (get_opt "name" (get "quantity_unit_stock" details))
                                          (JStr "stock unit"));
                              ("price", if is_number price then price else JNull)])])
      end
  | _ => ret (line_error line (resolution_error resolved))
  end.

(** [results.filter(r => r.status === s).length] *)
Definition count_status (s : string) (results : list jval) : Z :=
  Z.of_nat (length (List.filter (fun r => strict_eq (get "status" r) (JStr s)) results)).

Definition MAX_ITEMS : nat := 25.

Definition enriched_stock_add_bulk (req : inbound) : M response :=
  let body := safeJson req in
  if negb (truthy body) then Return (jsonError 400 (err "invalid_json")) else
  match get "items" body with
  | JArr ((_ :: _) as items) =>
      let safeItems := firstn MAX_ITEMS items in
      products <- try_catch getCachedProducts
                    (fun _ => Return (plain "Failed to fetch products" 502)) ;;
      results <- mapM (bulk_line products) safeItems ;;
      Return (json (JObj [("status", JStr "completed");
                          ("summary",
                             JObj [("total", JNum (Z.of_nat (length safeItems)));
                                   ("added", JNum (count_status "added" results));
                                   ("errors", JNum (count_status "error" results))]);
                          ("results", JArr results)]) 200)
  | _ => Return (jsonError 400 (err "invalid_request"))
  end.

(** ** Vocabulary of the statements *)

(** The entry [score_entry] builds for a product that is an object. *)
Definition candidate (query : string) (p : jval) : scored :=
  mkScored (get "id" p) (get "name" p)
    (if truthy (get "name" p) then scoreProduct (normalize (get "name" p)) query else 0).

Definition positives (l : list scored) : list scored :=
  List.filter (fun m => 0 <? m_score m) l.

Definition with_score (k : Z) (l : list scored) : list scored :=
  List.filter (fun m => m_score m =? k) l.

(** The outcome read off the kept candidates. *)
Definition decision (productName : jval) (kept : list scored) : resolution :=
  match kept with
  | [] => NotFound productName
  | top :: _ =>
      if (1 <? length kept)%nat && (m_score top <? 100) then Ambiguous kept else Resolved top
  end.

(** A string does not begin with white space. *)
Definition starts_clean (s : string) : bool :=
  match s with
  | EmptyString => true
  | String c _ => negb (JsString.isWhiteSpace c)
  end.

Definition ge_score (a b : scored) : Prop := m_score a >= m_score b.

(** What the cache serves under a key at the time of the request. *)
Definition served (e : env) (s : state) (key : string) : option payload :=
  match cache s !! key with
  | Some c => if now e <? expires c then Some (stored c) else None
  | None => None
  end.

(** The outcome of reading a text as JSON. *)
Definition parsed (p : payload) : result jval :=
  match p with
  | Json v => Val v
  | Text _ => Thrown SyntaxError
  end.

(** The state after [text] is stored under [key] for [ttl] seconds. *)
Definition stored_in (e : env) (s : state) (key : string) (text : payload) (ttl : Z) : state :=
  mkState (<[key := mkEntry text (now e + ttl)]> (cache s)) (sent s).

(** The write calls among the calls issued. *)
Definition writes (s : state) : list request := List.filter is_write (sent s).

Definition is_object (v : jval) : bool :=
  match v with JObj _ => true | _ => false end.

(** The first element that satisfies a test, [undefined] when there is none. *)
Fixpoint first_where (P : jval -> bool) (xs : list jval) : jval :=
  match xs with
  | [] => JUndef
  | x :: xs' => if P x then x else first_where P xs'
  end.

(** A computation that never returns from the handler, and one that issues
    no write call. *)
Definition never_returns {A} (m : M A) : Prop :=
  forall e s r s', m e s <> (Returned r, s').

Definition reads_only {A} (m : M A) : Prop :=
  forall e s r s', m e s = (r, s') -> writes s' = writes s.

(** A computation that does not return a 400, and one whose 400s come
    before any write call. *)
Definition no_400 {A} (m : M A) : Prop :=
  forall e s r s', m e s = (Returned r, s') -> status r <> 400.

Definition rejects_before_writing {A} (m : M A) : Prop :=
  forall e s r s', m e s = (Returned r, s') -> status r = 400 -> writes s' = writes s.

(** A backend that answers every call, and never with the text [null]; a
    backend that answers a call the same whatever was sent before; and a
    computation whose outcome, in front of such a backend, does not depend on
    the state it starts from. *)
Definition answers_every_call (e : env) : Prop :=
  forall history rq,
    exists r, upstream e history rq = Responded r /\
              rbody r <> Json JNull /\ rbody r <> Json JUndef.

Definition stateless (e : env) : Prop :=
  forall h h' rq, upstream e h rq = upstream e h' rq.

Definition independent {A} (m : M A) : Prop :=
  forall e, stateless e -> forall s1 s2, fst (m e s1) = fst (m e s2).

(** The forms of an answer: a success; a 400 whose body is a JSON object
    with a string member [error]; a 502 whose body is a plain text. *)
Definition error_object (r : response) : Prop :=
  exists fs code, rbody r = Json (JObj fs) /\ lookup_field "error" fs = JStr code.

Definition plain_text (r : response) : Prop :=
  exists t, rbody r = Text t.

Definition answer_form (r : response) : Prop :=
  status r = 200 \/ (status r = 400 /\ error_object r) \/ (status r = 502 /\ plain_text r).

Definition answers_in_form {A} (m : M A) : Prop :=
  forall e s r s', m e s = (Returned r, s') -> answer_form r.

(** [Array.isArray(v) && v.length !== 0] *)
Definition nonempty_array (v : jval) : bool :=
  match v with
  | JArr (_ :: _) => true
  | _ => false
  end.




Definition same_name (name : jval) (x : jval) : bool :=
  String.eqb (normalize (get "name" x)) (normalize name).



(** The members of [pricing] that come from the last purchase. *)
Definition last_purchase_members : list string :=
  ["last_price_per_price_unit"; "price_unit"; "price_qu_id";
   "purchase_to_stock_factor"; "price_to_stock_factor"].

(** ** A kitchen

    Concrete data for the closed statements: a configuration, a backend
    that answers by method and address whatever was sent before (an unknown
    call gets a 404), and its collections. *)

Definition answers (table : list (request * response)) : list request -> request -> fetched :=
  fun _ rq =>
    match List.find (fun t => String.eqb (rq_method (fst t)) (rq_method rq)
                              && String.eqb (rq_url (fst t)) (rq_url rq)) table with
    | Some t => Responded (snd t)
    | None => Responded (mkResponse 404 [] (Text "Not found"))
    end.

Definition kitchen_config : config :=
  mkConfig "https://grocy.internal" "v1.1" 21600 "Fridge"
    (mkUnits "Piece" "Piece" "Piece" "Piece").

Definition reads (path : string) (v : jval) : request * response :=
  (GET ("https://grocy.internal" ++ path),
   mkResponse 200 [("content-type", "application/json")] (Json v)).

Definition fails (path : string) : request * response :=
  (GET ("https://grocy.internal" ++ path),
   mkResponse 500 [("content-type", "text/html")] (Text "Internal Server Error")).

Definition accepts (path : string) : request * response :=
  (mkRequest "POST" ("https://grocy.internal" ++ path) NoBody,
   mkResponse 200 [("content-type", "application/json")] (Json (JObj []))).

Definition named (id : Z) (name : string) : jval :=
  JObj [("id", JNum id); ("name", JStr name)].

Definition pantry : list jval :=
  [named 1 "Milk"; named 2 "Milk Substitute"; named 3 "Apple Juice"; named 4 "Apple Sauce"].

Definition milk_details : jval :=
  JObj [("product", JObj [("id", JNum 1); ("qu_id_stock", JNum 3); ("qu_id_price", JNum 3)]);
        ("last_price", JNum 2);
        ("last_shopping_location_id", JNum 7);
        ("quantity_unit_stock", JObj [("id", JNum 3); ("name", JStr "Pack")]);
        ("quantity_unit_price", JObj [("id", JNum 3); ("name", JStr "Pack")]);
        ("qu_conversion_factor_price_to_stock", JNum 1);
        ("qu_conversion_factor_purchase_to_stock", JNum 1)].

Definition kitchen_table : list (request * response) :=
  [reads "/api/objects/products" (JArr pantry);
   reads "/api/objects/shopping_lists" (JArr [named 1 "Weekly"; named 2 "Party"]);
   reads "/api/objects/shopping_locations" (JArr [named 7 "Corner Shop"]);
   reads "/api/objects/locations" (JArr [named 1 "Fridge"; named 2 "Cellar"]);
   reads "/api/objects/quantity_units" (JArr [named 3 "Pack"; named 4 "Piece"]);
   reads "/api/objects/shopping_list?list_id=1"
     (JArr [JObj [("id", JNum 11); ("product_id", JNum 3); ("amount", JNum 2)];
            JObj [("id", JNum 12); ("product_id", JNum 1); ("amount", JNum 1);
                  ("note", JStr "fresh"); ("qu_id", JNum 3)];
            JObj [("id", JNum 13); ("product_id", JNum 9); ("amount", JNum 5)]]);
   reads "/api/stock/products/1" milk_details;
   fails "/api/stock/products/3";
   fails "/api/stock/products/9";
   accepts "/api/stock/shoppinglist/add-product";
   accepts "/api/objects/products/1/add";
   accepts "/api/objects/products/3/add";
   accepts "/api/objects/products"].

Definition kitchen : env := mkEnv kitchen_config 1000 (answers kitchen_table).

(** The same configuration in front of a backend that is down. *)
Definition outage : env :=
  mkEnv kitchen_config 1000
    (answers [fails "/api/objects/products"; fails "/api/objects/shopping_lists"]).

Definition fresh : state := mkState ∅ [].

Definition post (path : string) (v : jval) : inbound := mkInbound "POST" path [] (Json v).

Definition line (n : Z) (product : string) (amount : Z) : jval :=
  JObj [("line", JNum n); ("product", JStr product); ("amount", JNum amount)].

Definition thirty_lines : list jval :=
  map (fun n => line (Z.of_nat n) "Milk" 1) (seq 1 30).

Definition add_request (v : jval) : inbound := post "/api/enriched/shopping_list/add" v.

Definition list_request (list_id : string) : inbound :=
  mkInbound "GET" "/api/enriched/shopping_list" [("list_id", list_id)] (Text "").


Definition bulk_request (items : list jval) : inbound :=
  post "/api/enriched/stock/add/bulk" (JObj [("items", JArr items)]).

(** ** GET /api/enriched/stock *)

(** One row of the view, lines 381-387. *)
Definition stockRow (productMap : gmap string jval) (s : jval) : M jval :=
  stock_id <- prop "id" s ;;
  ret (JObj [("stock_id", stock_id);
             ("product_id", get "product_id" s);
             ("product_name",
                coalesce (at_key productMap (get "product_id" s)) (JStr "Unknown"));
             ("amount", get "amount" s);
             ("best_before_date", coalesce (get "best_before_date" s) JNull)]).

Definition enriched_stock : M response :=
  url <- api "/api/objects/stock" ;;
  stockResp <- fetch (GET url) ;;
  if negb (ok stockResp) then Return (plain "Failed to fetch stock" 502) else
  parsed <- json_of (rbody stockResp) ;;
  all <- elems parsed ;;
  let stock := firstn 25 all in
  ids <- mapM (prop "product_id") stock ;;
  match distinct (numbers ids) with
  | [] => Return (json (JArr []) 200)
  | _ :: _ =>
      products <- try_catch getCachedProducts
                    (fun _ => Return (plain "Failed to fetch products" 502)) ;;
      productMap <- (ps <- elems products ;; name_by_id ps) ;;
      enriched <- mapM (stockRow productMap) stock ;;
      Return (json (JArr enriched) 200)
  end.

(** ** POST /api/enriched/stock/add *)

Definition enriched_stock_add (req : inbound) : M response :=
  let body := safeJson req in
  if negb (truthy body) then Return (jsonError 400 (err "invalid_json")) else
  let product := get "product" body in
  let amount := get "amount" body in
  let price := get "price" body in
  let best_before_date := get "best_before_date" body in
  if negb (truthy product) || negb (is_number amount)
  then Return (jsonError 400 (err "invalid_request")) else
  products <- try_catch getCachedProducts
                (fun _ => Return (plain "Failed to fetch products" 502)) ;;
  resolved <- resolveProductFuzzy products product ;;
  match resolved with
  | Resolved found =>
      let productId := m_id found in
      detailsUrl <- api ("/api/stock/products/" ++ js_String productId) ;;
      detailsResp <- fetch (GET detailsUrl) ;;
      if negb (ok detailsResp) then Return (plain "Failed to fetch product details" 502) else
      details <- json_of (rbody detailsResp) ;;
      detailsProduct <- prop "product" details ;;
      let quId := coalesce (get_opt "qu_id_stock" detailsProduct)
                           (get "qu_id_stock" details) in
      addUrl <- api ("/api/objects/products/" ++ js_String productId ++ "/add") ;;
      addResp <- fetch (POST addUrl (JObj [("amount", amount);
                                           ("best_before_date", best_before_date);
                                           ("qu_id", quId)])) ;;
      if negb (ok addResp) then Return (plain "Failed to add stock" 502) else
      pricesUrl <- api "/api/objects/product_prices" ;;
      (if is_number price
       then fetch_detached
              (POST pricesUrl
                 (JObj [("product_id", productId);
                        ("price", price);
                        ("store_id",
                           coalesce (get "last_shopping_location_id" details) JNull)]))
       else ret tt) ;;
      Return (json (JObj [("status", JStr "added");
                          ("product", JObj [("id", productId); ("name", m_name found)]);
                          ("interpreted_as",
                             JObj [("amount", amount);
                                   ("unit",
                                      coalesce (get_opt "name" (get "quantity_unit_stock" details))
                                               (JStr "stock unit"));
                                   ("price", if is_number price then price else JNull)])]) 200)
  | _ => Return (json (JObj (resolution_error resolved)) 400)
  end.

(** ** The checks in front of the handlers, lines 6-26

    The bindings of the worker are values of the platform: a text, or
    [undefined] for a binding that is not set.  [authorization] is
    [req.headers.get("Authorization")], [null] when the request has no such
    header.  [None] lets the request through to the handlers. *)

Record bindings : Type := mkBindings {
  OPENAI_BEARER_TOKEN : jval;
  UPSTREAM_BASE : jval;
  GROCY_API_KEY : jval;
  CF_ACCESS_CLIENT_ID : jval;
  CF_ACCESS_CLIENT_SECRET : jval
}.

Definition ALLOWED_METHODS : list string := ["GET"; "POST"; "HEAD"].

Definition gate (authorization : jval) (method : string) (b : bindings) : option response :=
  if negb (strict_eq authorization (JStr ("Bearer " ++ js_String (OPENAI_BEARER_TOKEN b))))
  then Some (plain "Unauthorized" 401)
  else if negb (existsb (String.eqb method) ALLOWED_METHODS)
  then Some (plain "Method not allowed" 405)
  else if negb (truthy (UPSTREAM_BASE b))
  then Some (plain "Server misconfigured (missing UPSTREAM_BASE)" 500)
  else if negb (truthy (GROCY_API_KEY b))
  then Some (plain "Server misconfigured (missing GROCY_API_KEY)" 500)
  else if negb (truthy (CF_ACCESS_CLIENT_ID b)) || negb (truthy (CF_ACCESS_CLIENT_SECRET b))
  then Some (plain "Server misconfigured (missing CF Access credentials)" 500)
  else None.

(** ** The pass-through, lines 774-779: what is answered for the response
    of the backend. *)

Definition relay (resp : response) : response :=
  let ct := js_String (js_or (header_get "content-type" (headers resp)) (JStr "")) in
  if (status resp =? 302)
     || (JsString.includes ct "text/html" && negb (JsString.includes ct "application/json"))
  then plain "Access Authentication failed" 502
  else resp.

(** ** More vocabulary *)

(** [q] occurs in [s]. *)
Definition occurs_in (q s : string) : Prop := exists a b, s = a ++ q ++ b.

(** A product whose name, normalised, is the query. *)
Definition exact_match (query : string) (p : jval) : bool :=
  truthy (get "name" p) && String.eqb (normalize (get "name" p)) query.

(** A product that has a name. *)
Definition has_name (p : jval) : bool := truthy (get "name" p).

(** A computation that issues at most [n] calls with [fetch]. *)
Definition calls_at_most {A} (n : nat) (m : M A) : Prop :=
  forall e s r s', m e s = (r, s') -> (length (sent s') <= length (sent s) + n)%nat.

(** A computation that leaves in place every entry the cache serves. *)
Definition keeps_served {A} (m : M A) : Prop :=
  forall e s r s' key p, m e s = (r, s') -> served e s key = Some p -> served e s' key = Some p.

(** Both at once. *)
Definition spends {A} (n : nat) (m : M A) : Prop := calls_at_most n m /\ keeps_served m.

(** A computation after whose answers of status 200 [Q] holds of the state. *)
Definition after_success {A} (Q : env -> state -> Prop) (m : M A) : Prop :=
  forall e s r s', m e s = (Returned r, s') -> status r = 200 -> Q e s'.

(** The key of the product collection in the cache. *)
Definition products_key (c : config) : string :=
  "https://cache.local/" ++ CACHE_VERSION c ++ "/grocy/" ++ "products".

(** A backend that answers every call, and with a JSON value that is not
    [null] whenever it answers with a success. *)
Definition answers_in_json (e : env) : Prop :=
  forall history rq,
    exists r, upstream e history rq = Responded r /\
              (ok r = true -> exists v, rbody r = Json v /\ nullish v = false).

(** A value of which [String], or a template literal, makes a text.  An
    object that has a member [toString] of its own has none: the member,
    read from JSON, is not a function, and the conversion throws a
    [TypeError]; and so an array that holds such an object. *)
Fixpoint has_text (v : jval) : bool :=
  match v with
  | JArr xs => forallb has_text xs
  | JObj fs => negb (existsb (fun f => String.eqb (fst f) "toString") fs)
  | _ => true
  end.

(** A product whose name and id have a text. *)
Definition in_text (p : jval) : bool :=
  has_text (get "name" p) && has_text (get "id" p).





(** ** A larder

    The kitchen with a stock: two entries of known products, one of a
    product the backend does not list, and one without a product. *)

Definition stock_entry (id product_id amount : Z) : jval :=
  JObj [("id", JNum id); ("product_id", JNum product_id); ("amount", JNum amount)].

Definition larder_stock : list jval :=
  [stock_entry 21 1 2;
   JObj [("id", JNum 22); ("product_id", JNum 3); ("amount", JNum 1);
         ("best_before_date", JStr "2026-01-31")];
   stock_entry 23 9 4;
   JObj [("id", JNum 24); ("amount", JNum 1)]].

Definition larder : env :=
  mkEnv kitchen_config 1000
    (answers (reads "/api/objects/stock" (JArr larder_stock) :: kitchen_table)).

Definition stock_add_request (v : jval) : inbound := post "/api/enriched/stock/add" v.

(** ** A gallery

    The kitchen with an image host: a picture of 48213 bytes, a poster that
    announces 6000000, and a backend that accepts the picture of product
    5. *)



(** * Properties *)

(** ** Strings *)

Section StringFacts.
Import JsString.

Lemma kept_lowerChar (c : ascii) : kept c = true -> lowerChar c = c.
Proof.
  destruct c as [[] [] [] [] [] [] [] []]; vm_compute; intros H;
    first [reflexivity | discriminate H].
Qed.

Lemma strip_all_kept (s : string) : all kept (strip s) = true.
Proof.
  induction s as [|c s IH]; simpl; [reflexivity|].
  destruct (kept c) eqn:K; simpl; [rewrite K|]; exact IH.
Qed.

Lemma toLowerCase_kept (s : string) : all kept s = true -> toLowerCase s = s.
Proof.
  induction s as [|c s IH]; simpl; [reflexivity|].
  intros H. apply andb_prop in H as [K R].
  rewrite (kept_lowerChar c K), (IH R). reflexivity.
Qed.

Lemma strip_kept (s : string) : all kept s = true -> strip s = s.
Proof.
  induction s as [|c s IH]; simpl; [reflexivity|].
  intros H. apply andb_prop in H as [K R].
  rewrite K, (IH R). reflexivity.
Qed.

Lemma all_trimStart (P : ascii -> bool) (s : string) :
  all P s = true -> all P (trimStart s) = true.
Proof.
  induction s as [|c s IH]; simpl; [reflexivity|].
  intros H. destruct (isWhiteSpace c); [|exact H].
  apply andb_prop in H as [_ R]. exact (IH R).
Qed.

Lemma all_trimEnd (P : ascii -> bool) (s : string) :
  all P s = true -> all P (trimEnd s) = true.
Proof.
  induction s as [|c s IH]; simpl; [reflexivity|].
  intros H. apply andb_prop in H as [K R]. specialize (IH R).
  destruct (trimEnd s) as [|d t].
  - destruct (isWhiteSpace c); simpl; [reflexivity|]. rewrite K. reflexivity.
  - change (all P (String c (String d t))) with (P c && all P (String d t)).
    rewrite K, IH. reflexivity.
Qed.

Lemma trimEnd_idem (s : string) : trimEnd (trimEnd s) = trimEnd s.
Proof.
  induction s as [|c s IH]; simpl; [reflexivity|].
  destruct (trimEnd s) as [|d t] eqn:E.
  - destruct (isWhiteSpace c) eqn:W; simpl; [reflexivity|]. rewrite W. reflexivity.
  - change (trimEnd (String c (String d t)))
      with (match trimEnd (String d t) with
            | EmptyString => if isWhiteSpace c then EmptyString else String c EmptyString
            | String a u => String c (String a u)
            end).
    rewrite IH. reflexivity.
Qed.

Lemma trimStart_clean (s : string) : starts_clean (trimStart s) = true.
Proof.
  induction s as [|c s IH]; simpl; [reflexivity|].
  destruct (isWhiteSpace c) eqn:W; [exact IH|]. simpl. rewrite W. reflexivity.
Qed.

Lemma clean_trimStart (s : string) : starts_clean s = true -> trimStart s = s.
Proof.
  destruct s as [|c s]; simpl; [reflexivity|].
  intros H. apply negb_true_iff in H. rewrite H. reflexivity.
Qed.

Lemma clean_trimEnd (s : string) : starts_clean s = true -> starts_clean (trimEnd s) = true.
Proof.
  destruct s as [|c s]; simpl; [reflexivity|].
  intros H. destruct (trimEnd s).
  - apply negb_true_iff in H. rewrite H. simpl. rewrite H. reflexivity.
  - exact H.
Qed.

Lemma trim_idem (s : string) : trim (trim s) = trim s.
Proof.
  unfold trim.
  rewrite (clean_trimStart (trimEnd (trimStart s))).
  - apply trimEnd_idem.
  - apply clean_trimEnd, trimStart_clean.
Qed.

Lemma String_of_string (s : string) : js_String (js_or (JStr s) (JStr "")) = s.
Proof.
  unfold js_or. simpl. destruct (String.eqb s "") eqn:E; simpl; [|reflexivity].
  apply String.eqb_eq in E. symmetry. exact E.
Qed.

Lemma normalize_string (s : string) :
  normalize (JStr s) = strip (trim (toLowerCase s)).
Proof. unfold normalize. rewrite String_of_string. reflexivity. Qed.

Lemma normalize_all_kept (v : jval) : all kept (normalize v) = true.
Proof. apply strip_all_kept. Qed.

(** On a string made of kept characters only, [normalize] is [trim]. *)
Lemma normalize_of_kept (s : string) :
  all kept s = true -> normalize (JStr s) = trim s.
Proof.
  intros H. rewrite normalize_string, (toLowerCase_kept s H).
  apply strip_kept. unfold trim. apply all_trimEnd, all_trimStart, H.
Qed.

End StringFacts.

(** C8, as stated: it fails on a string whose first kept character follows
    a stripped one and a space. *)
Lemma normalize_not_idempotent :
  ~ (forall s : string, normalize (JStr (normalize (JStr s))) = normalize (JStr s)).
Proof.
  intros H. specialize (H "! a"). vm_compute in H. discriminate H.
Qed.

(** C8, amended: normalising a normalised string trims it, nothing more; so
    [normalize] is idempotent exactly on the strings whose normal form has no
    white space at either end, and a third application changes nothing. *)
Theorem normalize_twice_trims (s : string) :
  normalize (JStr (normalize (JStr s))) = JsString.trim (normalize (JStr s)) /\
  normalize (JStr (normalize (JStr (normalize (JStr s)))))
  = normalize (JStr (normalize (JStr s))).
Proof.
  assert (T : forall v, normalize (JStr (normalize v)) = JsString.trim (normalize v)).
  { intros v. apply normalize_of_kept, normalize_all_kept. }
  split; [apply T|].
  rewrite (T (JStr (normalize (JStr s)))), (T (JStr s)). apply trim_idem.
Qed.

(** ** The stable sort by descending score *)

Section SortFacts.

Lemma insert_perm (x : scored) (l : list scored) :
  Permutation (insert_by by_score_desc x l) (x :: l).
Proof.
  induction l as [|y l IH]; simpl; [reflexivity|].
  destruct (0 <? by_score_desc x y); [|reflexivity].
  rewrite IH. apply perm_swap.
Qed.

Lemma sort_perm (l : list scored) : Permutation (sort_by by_score_desc l) l.
Proof.
  induction l as [|x l IH]; simpl; [reflexivity|].
  rewrite insert_perm. apply perm_skip, IH.
Qed.

Lemma insert_Forall (P : scored -> Prop) (x : scored) (l : list scored) :
  P x -> Forall P l -> Forall P (insert_by by_score_desc x l).
Proof.
  intros Hx Hl. eapply Permutation_Forall; [symmetry; apply insert_perm|].
  constructor; assumption.
Qed.

Lemma insert_sorted (x : scored) (l : list scored) :
  StronglySorted ge_score l -> StronglySorted ge_score (insert_by by_score_desc x l).
Proof.
  induction 1 as [|y l S IH F]; simpl.
  - repeat constructor.
  - unfold by_score_desc at 1. destruct (0 <? m_score y - m_score x) eqn:C.
    + apply Z.ltb_lt in C. constructor; [exact IH|].
      apply insert_Forall; [unfold ge_score; lia | exact F].
    + apply Z.ltb_ge in C. constructor; [constructor; assumption|].
      constructor; [unfold ge_score; lia|].
      eapply Forall_impl; [exact F|]. unfold ge_score. intros a Ha. lia.
Qed.

Lemma sort_sorted (l : list scored) : StronglySorted ge_score (sort_by by_score_desc l).
Proof.
  induction l as [|x l IH]; simpl; [constructor | apply insert_sorted, IH].
Qed.

(** Ties keep their order: the entries of any one score are those of the
    input, in the order of the input. *)
Lemma insert_with_score (k : Z) (x : scored) (l : list scored) :
  with_score k (insert_by by_score_desc x l) = with_score k (x :: l).
Proof.
  induction l as [|y l IH]; [reflexivity|].
  simpl insert_by. unfold by_score_desc at 1.
  destruct (0 <? m_score y - m_score x) eqn:C; [|reflexivity].
  apply Z.ltb_lt in C.
  change (with_score k (y :: insert_by by_score_desc x l))
    with (if m_score y =? k then y :: with_score k (insert_by by_score_desc x l)
          else with_score k (insert_by by_score_desc x l)).
  rewrite IH. unfold with_score. simpl.
  destruct (m_score y =? k) eqn:Y, (m_score x =? k) eqn:X; try reflexivity.
  apply Z.eqb_eq in Y, X. lia.
Qed.

Lemma sort_with_score (k : Z) (l : list scored) :
  with_score k (sort_by by_score_desc l) = with_score k l.
Proof.
  induction l as [|x l IH]; [reflexivity|].
  simpl sort_by. rewrite insert_with_score. unfold with_score in *. simpl.
  rewrite IH. reflexivity.
Qed.

End SortFacts.

(** ** Fuzzy product resolution *)

Lemma In_firstn {A} (n : nat) (l : list A) (x : A) : In x (firstn n l) -> In x l.
Proof.
  revert l. induction n as [|n IH]; intros [|y l]; simpl; try tauto.
  intros [->|H]; [left; reflexivity | right; apply IH, H].
Qed.

Lemma scoreProduct_values (name query : string) :
  scoreProduct name query = 100 \/ scoreProduct name query = 60 \/
  scoreProduct name query = 30 \/ scoreProduct name query = 0.
Proof.
  unfold scoreProduct.
  destruct (String.eqb name query), (JsString.startsWith name query),
    (JsString.includes name query); auto.
Qed.

Lemma candidate_score (query : string) (p : jval) :
  let k := m_score (candidate query p) in k = 100 \/ k = 60 \/ k = 30 \/ k = 0.
Proof.
  unfold candidate. simpl. destruct (truthy (get "name" p)); [|auto].
  apply scoreProduct_values.
Qed.

Lemma mapM_score_entry (query : string) (ps : list jval) (e : env) (s : state) :
  Forall (fun p => nullish p = false) ps ->
  mapM (score_entry query) ps e s = (Val (map (candidate query) ps), s).
Proof.
  induction 1 as [|p ps Hp _ IH]; [reflexivity|].
  simpl. unfold bind at 1. unfold score_entry at 1, prop, bind.
  rewrite Hp. simpl. rewrite IH. reflexivity.
Qed.

Lemma resolveProductFuzzy_objects (ps : list jval) (productName : jval) (e : env) (s : state) :
  Forall (fun p => nullish p = false) ps ->
  resolveProductFuzzy (JArr ps) productName e s
  = (Val (decision productName (best 5 (map (candidate (normalize productName)) ps))), s).
Proof.
  intros Hps. unfold resolveProductFuzzy, elems. unfold bind at 1. unfold ret at 1.
  unfold bind at 1. rewrite (mapM_score_entry _ _ _ _ Hps). unfold decision.
  destruct (best 5 (map (candidate (normalize productName)) ps)) as [|top rest];
    [reflexivity|].
  destruct ((1 <? length (top :: rest))%nat && (m_score top <? 100)); reflexivity.
Qed.

(** C1.  For a product set of objects, the kept candidates are the first
    five of the positive-score candidates sorted by descending score with
    ties in the order of the set, and the outcome is decided by them alone:
    none, [NotFound]; a top score of 100, [Resolved] with the top candidate
    whatever else is kept; at least two and a top score below 100,
    [Ambiguous] with all the kept candidates; exactly one, below 100,
    [Resolved] with it. *)
Theorem resolveProductFuzzy_outcomes
  (ps : list jval) (productName : jval) (e : env) (s : state) :
  Forall (fun p => nullish p = false) ps ->
  exists sorted : list scored,
    let candidates := positives (map (candidate (normalize productName)) ps) in
    let kept := firstn 5 sorted in
    let outcome := resolveProductFuzzy (JArr ps) productName e s in
    Permutation sorted candidates /\
    StronglySorted (fun a b => m_score a >= m_score b) sorted /\
    (forall k, with_score k sorted = with_score k candidates) /\
    (forall m, In m kept -> m_score m = 100 \/ m_score m = 60 \/ m_score m = 30) /\
    (kept = [] <-> candidates = []) /\
    (kept = [] -> outcome = (Val (NotFound productName), s)) /\
    (forall top rest, kept = top :: rest -> m_score top = 100 ->
       outcome = (Val (Resolved top), s)) /\
    (forall top rest, kept = top :: rest -> rest <> [] -> m_score top < 100 ->
       outcome = (Val (Ambiguous kept), s)) /\
    (forall top, kept = [top] -> m_score top < 100 ->
       outcome = (Val (Resolved top), s)).
Proof.
  intros Hps.
  set (candidates := positives (map (candidate (normalize productName)) ps)).
  exists (sort_by by_score_desc candidates). cbv zeta.
  assert (R : resolveProductFuzzy (JArr ps) productName e s
              = (Val (decision productName (firstn 5 (sort_by by_score_desc candidates))), s)).
  { exact (resolveProductFuzzy_objects ps productName e s Hps). }
  unfold decision in R.
  split; [apply sort_perm|].
  split; [apply sort_sorted|].
  split; [intros k; apply sort_with_score|].
  split.
  { intros m Hm. apply In_firstn in Hm.
    apply (Permutation_in _ (sort_perm candidates)) in Hm.
    apply filter_In in Hm as [Hin Hpos]. apply Z.ltb_lt in Hpos.
    apply in_map_iff in Hin as [p [<- _]].
    pose proof (candidate_score (normalize productName) p) as V. cbv zeta in V.
    lia. }
  split.
  { split.
    - intros K. destruct (sort_by by_score_desc candidates) as [|x l] eqn:E;
        [|discriminate K].
      apply Permutation_nil. rewrite <- E. apply sort_perm.
    - intros ->. reflexivity. }
  split; [intros K; rewrite R, K; reflexivity|].
  split.
  { intros top rest K H100. rewrite R, K.
    replace (m_score top <? 100) with false by (symmetry; apply Z.ltb_ge; lia).
    rewrite andb_false_r. reflexivity. }
  split.
  { intros top rest K Hrest Hlt. rewrite R, K.
    replace (m_score top <? 100) with true by (symmetry; apply Z.ltb_lt; lia).
    destruct rest; [contradiction|]. reflexivity. }
  intros top K Hlt. rewrite R, K. reflexivity.
Qed.

(** ** The monad *)

Lemma bind_val {A B} (m : M A) (k : A -> M B) (e : env) (s s' : state) (a : A) :
  m e s = (Val a, s') -> bind m k e s = k a e s'.
Proof. intros H. unfold bind. rewrite H. reflexivity. Qed.

Lemma bind_returned {A B} (m : M A) (k : A -> M B) (e : env) (s s' : state) (r : response) :
  m e s = (Returned r, s') -> bind m k e s = (Returned r, s').
Proof. intros H. unfold bind. rewrite H. reflexivity. Qed.

Lemma bind_thrown {A B} (m : M A) (k : A -> M B) (e : env) (s s' : state) (x : exn) :
  m e s = (Thrown x, s') -> bind m k e s = (Thrown x, s').
Proof. intros H. unfold bind. rewrite H. reflexivity. Qed.

Lemma try_catch_val {A} (m : M A) (h : exn -> M A) (e : env) (s s' : state) (a : A) :
  m e s = (Val a, s') -> try_catch m h e s = (Val a, s').
Proof. intros H. unfold try_catch. rewrite H. reflexivity. Qed.

Lemma json_of_parsed (p : payload) (e : env) (s : state) : json_of p e s = (parsed p, s).
Proof. destruct p; reflexivity. Qed.

(** ** Cache-aside *)

(** C5.  On a hit the stored payload is read and returned, whatever the
    fetcher is, and the state is left as it was.  On a miss the fetcher runs:
    a response that is not a success gives [null] and leaves the cache as the
    fetcher left it; a success is stored as received under the key, to be
    served until [now + ttl], and read and returned; an exception of the
    fetcher goes through.  For a fetcher that is one backend call, a failed
    call leaves the cache unchanged. *)
Theorem cacheGetJson_cache_aside
  (key : string) (fetcher : M response) (ttl : Z) (e : env) (s : state) :
  (forall p, served e s key = Some p ->
     cacheGetJson key fetcher ttl e s = (parsed p, s)) /\
  (served e s key = None ->
     forall r s1, fetcher e s = (Val r, s1) ->
       (ok r = false -> cacheGetJson key fetcher ttl e s = (Val JNull, s1)) /\
       (ok r = true ->
          cacheGetJson key fetcher ttl e s
          = (parsed (rbody r), stored_in e s1 key (rbody r) ttl))) /\
  (served e s key = None ->
     forall x s1, fetcher e s = (Thrown x, s1) ->
       cacheGetJson key fetcher ttl e s = (Thrown x, s1)) /\
  (served e s key = None ->
     forall rq r, upstream e (sent s) rq = Responded r -> ok r = false ->
       cacheGetJson key (fetch rq) ttl e s
       = (Val JNull, mkState (cache s) (sent s ++ [rq]))).
Proof.
  assert (Hm : cache_match key e s = (Val (served e s key), s)) by reflexivity.
  assert (Hc : forall f, cacheGetJson key f ttl e s
                 = match served e s key with
                   | Some c => json_of c e s
                   | None =>
                       bind f (fun resp =>
                         if negb (ok resp) then ret JNull
                         else bind (cache_put key (rbody resp) ttl)
                                (fun _ => json_of (rbody resp))) e s
                   end).
  { intros f. unfold cacheGetJson. rewrite (bind_val _ _ _ _ _ _ Hm).
    destruct (served e s key); reflexivity. }
  split; [|split; [|split]].
  - intros p Hp. rewrite Hc, Hp. apply json_of_parsed.
  - intros Hp r s1 Hf. rewrite Hc, Hp, (bind_val _ _ _ _ _ _ Hf).
    split; intros ->; simpl.
    + reflexivity.
    + unfold bind, cache_put. rewrite json_of_parsed. reflexivity.
  - intros Hp x s1 Hf. rewrite Hc, Hp. apply bind_thrown, Hf.
  - intros Hp rq r Hu Hok. rewrite Hc, Hp. unfold bind, fetch.
    rewrite Hu, Hok. reflexivity.
Qed.

(** ** Searching a collection of objects *)

Lemma find_first_pure (f : jval -> M bool) (P : jval -> bool) (xs : list jval)
  (e : env) (s : state) :
  (forall x, In x xs -> f x e s = (Val (P x), s)) ->
  find_first f xs e s = (Val (first_where P xs), s).
Proof.
  induction xs as [|x xs IH]; intros H; [reflexivity|].
  simpl. rewrite (bind_val _ _ _ _ _ _ (H x (or_introl eq_refl))).
  destruct (P x); [reflexivity|]. apply IH. intros y Hy. apply H. right. exact Hy.
Qed.

Lemma object_not_nullish (v : jval) : is_object v = true -> nullish v = false.
Proof. destruct v; simpl; congruence. Qed.


Lemma find_by_field (k : string) (P : jval -> bool) (xs : list jval) (e : env) (s : state) :
  Forall (fun x => nullish x = false) xs ->
  js_find (fun x => v <- prop k x ;; ret (P v)) (JArr xs) e s
  = (Val (first_where (fun x => P (get k x)) xs), s).
Proof.
  intros H. unfold js_find, elems. unfold bind at 1. unfold ret at 1.
  apply find_first_pure. intros x Hx.
  rewrite List.Forall_forall in H. specialize (H x Hx).
  unfold bind, prop. rewrite H. reflexivity.
Qed.



Lemma strict_eq_eq (a b : jval) : strict_eq a b = true -> a = b.
Proof.
  destruct a, b; simpl; try discriminate; intros H; try reflexivity.
  - apply Bool.eqb_prop in H. congruence.
  - apply Z.eqb_eq in H. congruence.
  - apply String.eqb_eq in H. congruence.
Qed.



(** ** The choice of the shopping list *)

Lemma selectedList_add_found (xs : list jval) (id : jval) (e : env) (s : state) :
  Forall (fun l => nullish l = false) xs -> truthy id = true ->
  selectedList_add (JArr xs) id e s
  = let l := first_where (fun l => strict_eq (get "id" l) id) xs in
    if truthy l then (Val l, s)
    else (Returned (jsonError 400 (err "invalid_shopping_list_id")), s).
Proof.
  intros Hxs Hid. unfold selectedList_add. rewrite Hid.
  rewrite (bind_val _ _ _ _ _ _
             (find_by_field "id" (fun v => strict_eq v id) xs e s Hxs)).
  cbv zeta. destruct (truthy (first_where _ xs)); reflexivity.
Qed.



(** ** Computations that do not return early *)

Section NeverReturns.
Context {A B : Type}.

Lemma nr_ret (a : A) : never_returns (ret a).
Proof. intros e s r s' H. discriminate H. Qed.

Lemma nr_throw (x : exn) : never_returns (@throw A x).
Proof. intros e s r s' H. discriminate H. Qed.

Lemma nr_asks (f : config -> A) : never_returns (asks f).
Proof. intros e s r s' H. discriminate H. Qed.

Lemma nr_bind (m : M A) (k : A -> M B) :
  never_returns m -> (forall a, never_returns (k a)) -> never_returns (bind m k).
Proof.
  intros Hm Hk e s r s' H. unfold bind in H.
  destruct (m e s) as [[a|r0|x] s1] eqn:E.
  - exact (Hk a e s1 r s' H).
  - exact (Hm e s r0 s1 E).
  - discriminate H.
Qed.

Lemma nr_try_catch (m : M A) (h : exn -> M A) :
  never_returns m -> (forall x, never_returns (h x)) -> never_returns (try_catch m h).
Proof.
  intros Hm Hh e s r s' H. unfold try_catch in H.
  destruct (m e s) as [[a|r0|x] s1] eqn:E.
  - discriminate H.
  - exact (Hm e s r0 s1 E).
  - exact (Hh x e s1 r s' H).
Qed.

Lemma nr_mapM (f : A -> M B) (l : list A) :
  (forall a, never_returns (f a)) -> never_returns (mapM f l).
Proof.
  intros Hf. induction l as [|a l IH]; simpl.
  - intros e s r s' H. discriminate H.
  - intros e s r s' H. unfold bind in H.
    destruct (f a e s) as [[b|r0|x] s1] eqn:E.
    + destruct (mapM f l e s1) as [[bs|r1|y] s2] eqn:E2.
      * discriminate H.
      * exact (IH e s1 r1 s2 E2).
      * discriminate H.
    + exact (Hf a e s r0 s1 E).
    + discriminate H.
Qed.

End NeverReturns.

Lemma nr_fetch (rq : request) : never_returns (fetch rq).
Proof.
  intros e s r s' H. unfold fetch in H.
  destruct (upstream e (sent s) rq); discriminate H.
Qed.

Lemma nr_fetch_detached (rq : request) : never_returns (fetch_detached rq).
Proof. intros e s r s' H. discriminate H. Qed.

Lemma nr_json_of (p : payload) : never_returns (json_of p).
Proof. intros e s r s' H. destruct p; discriminate H. Qed.

Lemma nr_prop (k : string) (v : jval) : never_returns (prop k v).
Proof. intros e s r s' H. unfold prop in H. destruct (nullish v); discriminate H. Qed.

Lemma nr_elems (v : jval) : never_returns (elems v).
Proof. intros e s r s' H. destruct v; discriminate H. Qed.

Ltac never_returns :=
  unfold api, cache_key;
  repeat first
    [ apply nr_ret | apply nr_throw | apply nr_asks | apply nr_fetch
    | apply nr_fetch_detached | apply nr_json_of | apply nr_prop | apply nr_elems
    | apply nr_bind; [|intro]
    | apply nr_try_catch; [|intro]
    | apply nr_mapM; intro
    | match goal with
      | |- never_returns (if ?b then _ else _) => destruct b
      | |- never_returns (match ?x with _ => _ end) => destruct x
      end ].

Lemma nr_resolveProductFuzzy (products productName : jval) :
  never_returns (resolveProductFuzzy products productName).
Proof. unfold resolveProductFuzzy, score_entry. never_returns. Qed.

Lemma nr_bulk_line (products item : jval) : never_returns (bulk_line products item).
Proof.
  unfold bulk_line.
  repeat first [ apply nr_resolveProductFuzzy | progress never_returns ].
Qed.

Lemma mapM_length {A B} (f : A -> M B) (l : list A) (e : env) (s s' : state) (ys : list B) :
  mapM f l e s = (Val ys, s') -> length ys = length l.
Proof.
  revert s s' ys. induction l as [|a l IH]; simpl; intros s s' ys H.
  - injection H as <- _. reflexivity.
  - unfold bind in H. destruct (f a e s) as [[b|r0|x] s1]; try discriminate H.
    destruct (mapM f l e s1) as [[bs|r1|y] s2] eqn:E; try discriminate H.
    injection H as <- _. simpl. f_equal. exact (IH _ _ _ E).
Qed.

(** ** Bulk stock-add: the checks before the loop *)

(** C10, as stated: the text [null] parses as JSON and has no [items], and
    the answer is [invalid_json]. *)
Lemma bulk_null_body_invalid_json :
  let req := post "/api/enriched/stock/add/bulk" JNull in
  body req = Json JNull /\
  nonempty_array (get "items" JNull) = false /\
  enriched_stock_add_bulk req kitchen fresh
  = (Returned (jsonError 400 (err "invalid_json")), fresh) /\
  jsonError 400 (err "invalid_json") <> jsonError 400 (err "invalid_request").
Proof.
  repeat split. discriminate.
Qed.

(** C10, amended: a body that parses to [null], [false], [0] or the empty
    string is answered with [invalid_json]; any other parsed body whose
    [items] is missing, not an array or an empty array is answered with
    [invalid_request]; in both cases with status 400, no call to the backend
    and no change of the cache. *)
Theorem bulk_rejects_without_processing (req : inbound) (v : jval) (e : env) (s : state) :
  body req = Json v ->
  nonempty_array (get "items" v) = false ->
  enriched_stock_add_bulk req e s
  = (Returned (jsonError 400 (err (if truthy v then "invalid_request" else "invalid_json"))),
     s).
Proof.
  intros Hb Hi. unfold enriched_stock_add_bulk, safeJson. rewrite Hb. cbv zeta.
  destruct (truthy v); simpl negb; cbv iota; [|reflexivity].
  destruct (get "items" v) as [| | | | |[|x xs]|]; try reflexivity. discriminate Hi.
Qed.

(** ** Computations that issue no write call *)

Section ReadsOnly.
Context {A B : Type}.

Lemma ro_ret (a : A) : reads_only (ret a).
Proof. intros e s r s' H. injection H as _ <-. reflexivity. Qed.

Lemma ro_throw (x : exn) : reads_only (@throw A x).
Proof. intros e s r s' H. injection H as _ <-. reflexivity. Qed.

Lemma ro_asks (f : config -> A) : reads_only (asks f).
Proof. intros e s r s' H. injection H as _ <-. reflexivity. Qed.

Lemma ro_bind (m : M A) (k : A -> M B) :
  reads_only m -> (forall a, reads_only (k a)) -> reads_only (bind m k).
Proof.
  intros Hm Hk e s r s' H. unfold bind in H.
  destruct (m e s) as [[a|r0|x] s1] eqn:E.
  - rewrite (Hk a e s1 r s' H). exact (Hm e s _ s1 E).
  - injection H as _ <-. exact (Hm e s _ s1 E).
  - injection H as _ <-. exact (Hm e s _ s1 E).
Qed.

End ReadsOnly.

Lemma ro_fetch_GET (url : string) : reads_only (fetch (GET url)).
Proof.
  intros e s r s' H. unfold fetch in H.
  assert (W : writes (mkState (cache s) (sent s ++ [GET url])) = writes s).
  { unfold writes. simpl. rewrite List.filter_app. simpl. apply app_nil_r. }
  destruct (upstream e (sent s) (GET url)); injection H as _ <-; exact W.
Qed.

Lemma ro_json_of (p : payload) : reads_only (json_of p).
Proof. intros e s r s' H. destruct p; injection H as _ <-; reflexivity. Qed.

Lemma ro_cacheGetJson (key : string) (fetcher : M response) (ttl : Z) :
  reads_only fetcher -> reads_only (cacheGetJson key fetcher ttl).
Proof.
  intros Hf. unfold cacheGetJson. apply ro_bind.
  - intros e s r s' H. injection H as _ <-. reflexivity.
  - intros [c|]; [apply ro_json_of|]. apply ro_bind; [exact Hf|]. intros resp.
    destruct (negb (ok resp)); [apply ro_ret|]. apply ro_bind; [|intros _; apply ro_json_of].
    intros e s r s' H. injection H as _ <-. reflexivity.
Qed.

Lemma ro_cachedCollection (discriminator path : string) :
  reads_only (cachedCollection discriminator path).
Proof.
  unfold cachedCollection, cache_key, api.
  repeat (apply ro_bind; [apply ro_asks | intro]).
  apply ro_cacheGetJson, ro_fetch_GET.
Qed.

Lemma ro_getCached (discriminator path failure : string) :
  reads_only (getCached discriminator path failure).
Proof.
  unfold getCached. apply ro_bind; [apply ro_cachedCollection|]. intros data.
  destruct (negb (truthy data)); [apply ro_throw | apply ro_ret].
Qed.

(** ** Product creation: the quantity-unit gate *)

Lemma js_some_pure (f : jval -> M bool) (P : jval -> bool) (xs : list jval)
  (e : env) (s : state) :
  (forall x, In x xs -> f x e s = (Val (P x), s)) ->
  js_some f xs e s = (Val (existsb P xs), s).
Proof.
  induction xs as [|x xs IH]; intros H; [reflexivity|].
  simpl. rewrite (bind_val _ _ _ _ _ _ (H x (or_introl eq_refl))).
  destruct (P x); [reflexivity|]. apply IH. intros y Hy. apply H. right. exact Hy.
Qed.






(** ** Bulk stock-add: the loop *)

Lemma nr_cacheGetJson (key : string) (fetcher : M response) (ttl : Z) :
  never_returns fetcher -> never_returns (cacheGetJson key fetcher ttl).
Proof.
  intros Hf. unfold cacheGetJson. apply nr_bind.
  - intros e s r s' H. discriminate H.
  - intros [c|]; [apply nr_json_of|]. apply nr_bind; [exact Hf|]. intros resp.
    destruct (negb (ok resp)); [apply nr_ret|].
    apply nr_bind; [|intros _; apply nr_json_of].
    intros e s r s' H. discriminate H.
Qed.

Lemma nr_getCached (discriminator path failure : string) :
  never_returns (getCached discriminator path failure).
Proof.
  unfold getCached. apply nr_bind.
  - unfold cachedCollection, cache_key, api.
    repeat (apply nr_bind; [apply nr_asks | intro]).
    apply nr_cacheGetJson, nr_fetch.
  - intros data. destruct (negb (truthy data)); [apply nr_throw | apply nr_ret].
Qed.

(** A line that is answered is answered under its own reference, as added or
    as an error. *)
Lemma bulk_line_result (products item r : jval) (e : env) (s s' : state) :
  bulk_line products item e s = (Val r, s') ->
  get "line" r = get "line" item /\
  (get "status" r = JStr "added" \/ get "status" r = JStr "error").
Proof.
  unfold bulk_line. unfold bind at 1. unfold prop at 1.
  destruct (nullish item); [intros H; discriminate H|]. unfold ret at 1.
  unfold bind, prop, try_catch, fetch, fetch_detached, api, asks, ret, throw.
  intros H.
  repeat match type of H with
         | context [match ?x with _ => _ end] => destruct x eqn:?; try discriminate H
         end;
    injection H as <- _; simpl; auto.
Qed.

Lemma mapM_Forall2 {A B} (f : A -> M B) (l : list A) (e : env) (s s' : state) (ys : list B) :
  mapM f l e s = (Val ys, s') ->
  Forall2 (fun a y => exists s1 s2, f a e s1 = (Val y, s2)) l ys.
Proof.
  revert s s' ys. induction l as [|a l IH]; simpl; intros s s' ys H.
  - injection H as <- _. constructor.
  - unfold bind in H. destruct (f a e s) as [[b|r0|x] s1] eqn:E1; try discriminate H.
    destruct (mapM f l e s1) as [[bs|r1|y] s2] eqn:E2; try discriminate H.
    injection H as <- _. constructor; [exists s, s1; exact E1 | exact (IH _ _ _ E2)].
Qed.

Lemma bulk_unfold (req : inbound) (x : jval) (xs : list jval) (e : env) (s : state) :
  get "items" (safeJson req) = JArr (x :: xs) ->
  enriched_stock_add_bulk req e s
  = bind (try_catch getCachedProducts
            (fun _ => Return (plain "Failed to fetch products" 502)))
      (fun products =>
         bind (mapM (bulk_line products) (firstn MAX_ITEMS (x :: xs)))
           (fun results =>
              Return (json (JObj [("status", JStr "completed");
                 ("summary",
                    JObj [("total", JNum (Z.of_nat (length (firstn MAX_ITEMS (x :: xs)))));
                          ("added", JNum (count_status "added" results));
                          ("errors", JNum (count_status "error" results))]);
                 ("results", JArr results)]) 200))) e s.
Proof.
  intros Hi.
  assert (Tb : truthy (safeJson req) = true).
  { destruct (safeJson req); simpl in Hi |- *; congruence. }
  unfold enriched_stock_add_bulk. cbv zeta. rewrite Tb, Hi. reflexivity.
Qed.

(** C4.  Of a batch of more than 25 items the first 25 are processed, in
    their order, and nothing else.  The handler reads the products, runs the
    turn of the loop on each of the first 25 items and answers with [total]
    25.  Whenever the products are read and the 25 turns end with a result
    each, the batch is answered with status 200 and exactly these 25
    results, one for each of the first 25 items under its line reference and
    in their order: no result stands for an item beyond.  A batch that has
    the same first 25 items has the same outcome and the same calls. *)
Theorem bulk_cap (req : inbound) (items : list jval) (e : env) (s : state) :
  get "items" (safeJson req) = JArr items ->
  (25 < length items)%nat ->
  let answer results :=
    json (JObj [("status", JStr "completed");
                ("summary",
                   JObj [("total", JNum 25);
                         ("added", JNum (count_status "added" results));
                         ("errors", JNum (count_status "error" results))]);
                ("results", JArr results)]) 200 in
  enriched_stock_add_bulk req e s
  = (products <- try_catch getCachedProducts
                   (fun _ => Return (plain "Failed to fetch products" 502)) ;;
     results <- mapM (bulk_line products) (firstn 25 items) ;;
     Return (answer results)) e s /\
  (forall products s1 results s2,
     getCachedProducts e s = (Val products, s1) ->
     mapM (bulk_line products) (firstn 25 items) e s1 = (Val results, s2) ->
     enriched_stock_add_bulk req e s = (Returned (answer results), s2) /\
     length results = 25%nat /\
     Forall2 (fun item res => get "line" res = get "line" item) (firstn 25 items) results) /\
  (forall req' items',
     get "items" (safeJson req') = JArr items' ->
     firstn 25 items' = firstn 25 items ->
     enriched_stock_add_bulk req' e s = enriched_stock_add_bulk req e s).
Proof.
  intros Hi Hlen answer.
  assert (L25 : length (firstn 25 items) = 25%nat) by (rewrite length_take; lia).
  assert (Hrun : enriched_stock_add_bulk req e s
                 = (products <- try_catch getCachedProducts
                                  (fun _ => Return (plain "Failed to fetch products" 502)) ;;
                    results <- mapM (bulk_line products) (firstn 25 items) ;;
                    Return (answer results)) e s).
  { destruct items as [|x rest]; [simpl in Hlen; lia|].
    rewrite (bulk_unfold req x rest e s Hi). unfold MAX_ITEMS. rewrite L25. reflexivity. }
  split; [exact Hrun|]. split.
  - intros products s1 results s2 Hp Hm. split; [|split].
    + rewrite Hrun. unfold bind, try_catch. rewrite Hp, Hm. reflexivity.
    + rewrite (mapM_length _ _ _ _ _ _ Hm). exact L25.
    + eapply Forall2_impl; [exact (mapM_Forall2 _ _ _ _ _ _ Hm)|].
      intros item res [sa [sb Hline]]. exact (proj1 (bulk_line_result _ _ _ _ _ _ Hline)).
  - intros req' items' Hi' Hsame.
    assert (L25' : length (firstn 25 items') = 25%nat) by (rewrite Hsame; exact L25).
    rewrite Hrun. destruct items' as [|x' rest']; [discriminate L25'|].
    rewrite (bulk_unfold req' x' rest' e s Hi'). unfold MAX_ITEMS. rewrite L25', Hsame.
    reflexivity.
Qed.

(** What an answered batch looks like, whatever its size: one result for
    each retained line, under the reference of the line and in the order of
    the lines, each added or an error, and the two counts add up to the
    total. *)
Lemma count_status_total (results : list jval) :
  Forall (fun r => get "status" r = JStr "added" \/ get "status" r = JStr "error") results ->
  count_status "added" results + count_status "error" results = Z.of_nat (length results).
Proof.
  unfold count_status. induction 1 as [|r results Hr _ IH]; [reflexivity|].
  simpl. destruct Hr as [-> | ->]; simpl; simpl in IH; lia.
Qed.

Lemma bulk_answer_shape (products : jval) (lines results : list jval) (e : env) (s s' : state) :
  mapM (bulk_line products) lines e s = (Val results, s') ->
  Forall2 (fun item r => get "line" r = get "line" item) lines results /\
  count_status "added" results + count_status "error" results = Z.of_nat (length lines).
Proof.
  intros H. pose proof (mapM_Forall2 _ _ _ _ _ _ H) as F.
  split.
  - eapply Forall2_impl; [exact F|].
    intros item r [sa [sb Hl]]. exact (proj1 (bulk_line_result _ _ _ _ _ _ Hl)).
  - rewrite <- (mapM_length _ _ _ _ _ _ H). apply count_status_total.
    clear H. induction F as [|item r lines results [sa [sb Hl]] _ IH]; constructor.
    + exact (proj2 (bulk_line_result _ _ _ _ _ _ Hl)).
    + exact IH.
Qed.

(** ** Bulk stock-add: where the lines are independent *)

(** In front of a backend that answers every call, a line that is not
    [null] always gets a result: a failed validation, resolution, detail
    fetch or write ends the line, not the batch. *)
Lemma bulk_line_answers (ps : list jval) (item : jval) (e : env) (s : state) :
  answers_every_call e ->
  Forall (fun p => nullish p = false) ps ->
  nullish item = false ->
  exists r s', bulk_line (JArr ps) item e s = (Val r, s').
Proof.
  intros Hwb Hps Hitem. unfold bulk_line.
  unfold bind at 1. unfold prop at 1. rewrite Hitem. unfold ret at 1.
  destruct (negb (truthy (get "product" item)) || negb (is_number (get "amount" item)));
    [eexists; eexists; reflexivity|].
  rewrite (bind_val _ _ _ _ _ _ (resolveProductFuzzy_objects ps _ e s Hps)).
  destruct (decision _ _) as [found|n|ms]; [|eexists; eexists; reflexivity..].
  unfold bind at 1. unfold api at 1, asks at 1.
  unfold bind at 1. unfold try_catch, bind at 1, fetch at 1.
  destruct (Hwb (sent s) (GET (upstreamBase (conf e) ++ "/api/stock/products/"
                               ++ js_String (m_id found)))) as [r [-> [Hn Hu]]].
  destruct (negb (ok r)); [eexists; eexists; reflexivity|].
  destruct (rbody r) as [v|t]; [|eexists; eexists; reflexivity].
  unfold bind at 1. unfold json_of, ret at 1. unfold ret at 1.
  unfold bind at 1. unfold prop at 1.
  assert (Hv : nullish v = false) by (destruct v; simpl; congruence).
  rewrite Hv. unfold ret at 1.
  unfold bind at 1. unfold api at 1, asks at 1.
  unfold bind at 1. unfold fetch at 1. cbn [sent cache].
  match goal with
  | |- context [upstream e ?h ?rq] => destruct (Hwb h rq) as [r2 [-> _]]
  end.
  destruct (negb (ok r2)); [eexists; eexists; reflexivity|].
  unfold bind at 1. unfold api at 1, asks at 1.
  destruct (is_number (get "price" item)); eexists; eexists; reflexivity.
Qed.

Lemma bulk_lines_answer (ps lines : list jval) (e : env) (s : state) :
  answers_every_call e ->
  Forall (fun p => nullish p = false) ps ->
  Forall (fun item => nullish item = false) lines ->
  exists results s', mapM (bulk_line (JArr ps)) lines e s = (Val results, s').
Proof.
  intros Hwb Hps Hl. revert s. induction Hl as [|item lines Hi _ IH]; intros s.
  - exists [], s. reflexivity.
  - destruct (bulk_line_answers ps item e s Hwb Hps Hi) as [r [s1 Hr]].
    destruct (IH s1) as [rs [s2 Hrs]].
    exists (r :: rs), s2. simpl. unfold bind. rewrite Hr, Hrs. reflexivity.
Qed.

Section Independent.
Context {A B : Type}.

Lemma ind_ret (a : A) : independent (ret a).
Proof. intros e _ s1 s2. reflexivity. Qed.

Lemma ind_throw (x : exn) : independent (@throw A x).
Proof. intros e _ s1 s2. reflexivity. Qed.

Lemma ind_asks (f : config -> A) : independent (asks f).
Proof. intros e _ s1 s2. reflexivity. Qed.

Lemma ind_bind (m : M A) (k : A -> M B) :
  independent m -> (forall a, independent (k a)) -> independent (bind m k).
Proof.
  intros Hm Hk e He s1 s2. unfold bind. specialize (Hm e He s1 s2).
  destruct (m e s1) as [[a|r|x] t1], (m e s2) as [[a'|r'|x'] t2];
    simpl in Hm; try discriminate Hm; injection Hm as <-; try reflexivity.
  apply Hk, He.
Qed.

Lemma ind_try_catch (m : M A) (h : exn -> M A) :
  independent m -> (forall x, independent (h x)) -> independent (try_catch m h).
Proof.
  intros Hm Hh e He s1 s2. unfold try_catch. specialize (Hm e He s1 s2).
  destruct (m e s1) as [[a|r|x] t1], (m e s2) as [[a'|r'|x'] t2];
    simpl in Hm; try discriminate Hm; injection Hm as <-; try reflexivity.
  apply Hh, He.
Qed.

End Independent.

Lemma ind_mapM {A B} (f : A -> M B) (l : list A) :
  (forall a, independent (f a)) -> independent (mapM f l).
Proof.
  intros Hf. induction l as [|a l IH]; simpl; [apply ind_ret|].
  apply ind_bind; [apply Hf|]. intros b.
  apply ind_bind; [exact IH|]. intros bs. apply ind_ret.
Qed.

Lemma ind_fetch (rq : request) : independent (fetch rq).
Proof.
  intros e He s1 s2. unfold fetch. rewrite (He (sent s1) (sent s2) rq).
  destruct (upstream e (sent s2) rq); reflexivity.
Qed.

Lemma ind_fetch_detached (rq : request) : independent (fetch_detached rq).
Proof. intros e _ s1 s2. reflexivity. Qed.

Lemma ind_json_of (p : payload) : independent (json_of p).
Proof. intros e _ s1 s2. destruct p; reflexivity. Qed.

Lemma ind_prop (k : string) (v : jval) : independent (prop k v).
Proof. intros e _ s1 s2. unfold prop. destruct (nullish v); reflexivity. Qed.

Lemma ind_elems (v : jval) : independent (elems v).
Proof. intros e _ s1 s2. destruct v; reflexivity. Qed.

Ltac independent :=
  unfold api, cache_key;
  repeat first
    [ apply ind_ret | apply ind_throw | apply ind_asks | apply ind_fetch
    | apply ind_fetch_detached | apply ind_json_of | apply ind_prop | apply ind_elems
    | apply ind_bind; [|intro]
    | apply ind_try_catch; [|intro]
    | apply ind_mapM; intro
    | match goal with
      | |- independent (if ?b then _ else _) => destruct b
      | |- independent (match ?x with _ => _ end) => destruct x
      end ].

Lemma ind_resolveProductFuzzy (products productName : jval) :
  independent (resolveProductFuzzy products productName).
Proof. unfold resolveProductFuzzy, score_entry. independent. Qed.

Lemma ind_bulk_line (products item : jval) : independent (bulk_line products item).
Proof.
  unfold bulk_line.
  repeat first [ apply ind_resolveProductFuzzy | progress independent ].
Qed.

(** In front of a backend that answers a call the same whatever was sent
    before, the result of each line of a batch is the result the line gets
    when it is processed alone: no other line, failed or not, has a part in
    it. *)
Lemma bulk_lines_independent (products : jval) (lines results : list jval)
  (e : env) (s s' : state) :
  stateless e ->
  mapM (bulk_line products) lines e s = (Val results, s') ->
  Forall2 (fun item r => fst (bulk_line products item e fresh) = Val r) lines results.
Proof.
  intros He H. eapply Forall2_impl; [exact (mapM_Forall2 _ _ _ _ _ _ H)|].
  intros item r [sa [sb Hr]].
  rewrite (ind_bulk_line products item e He fresh sa), Hr. reflexivity.
Qed.

(** ** Product creation: no write before the last gate *)

Section MoreReadsOnly.
Context {A : Type}.

Lemma ro_Return (r : response) : reads_only (@Return A r).
Proof. intros e s r0 s' H. injection H as _ <-. reflexivity. Qed.

Lemma ro_try_catch (m : M A) (h : exn -> M A) :
  reads_only m -> (forall x, reads_only (h x)) -> reads_only (try_catch m h).
Proof.
  intros Hm Hh e s r s' H. unfold try_catch in H.
  destruct (m e s) as [[a|r0|x] s1] eqn:E.
  - injection H as _ <-. exact (Hm e s _ s1 E).
  - injection H as _ <-. exact (Hm e s _ s1 E).
  - rewrite (Hh x e s1 r s' H). exact (Hm e s _ s1 E).
Qed.

End MoreReadsOnly.

Lemma ro_prop (k : string) (v : jval) : reads_only (prop k v).
Proof.
  intros e s r s' H. unfold prop in H.
  destruct (nullish v); injection H as _ <-; reflexivity.
Qed.

Lemma ro_elems (v : jval) : reads_only (elems v).
Proof. intros e s r s' H. destruct v; injection H as _ <-; reflexivity. Qed.

Lemma ro_find_first (f : jval -> M bool) (xs : list jval) :
  (forall x, reads_only (f x)) -> reads_only (find_first f xs).
Proof.
  intros Hf. induction xs as [|x xs IH]; simpl; [apply ro_ret|].
  apply ro_bind; [apply Hf|]. intros [|]; [apply ro_ret | exact IH].
Qed.

Lemma ro_js_some (f : jval -> M bool) (xs : list jval) :
  (forall x, reads_only (f x)) -> reads_only (js_some f xs).
Proof.
  intros Hf. induction xs as [|x xs IH]; simpl; [apply ro_ret|].
  apply ro_bind; [apply Hf|]. intros [|]; [apply ro_ret | exact IH].
Qed.

Lemma ro_find_by_name (collection name : jval) : reads_only (find_by_name collection name).
Proof.
  unfold find_by_name, js_find. apply ro_bind; [apply ro_elems|]. intros xs.
  apply ro_find_first. intros x. apply ro_bind; [apply ro_prop | intros n; apply ro_ret].
Qed.

Lemma ro_check_units (l : list (string * jval)) : reads_only (check_units l).
Proof.
  induction l as [|[key unit] l IH]; simpl; [apply ro_ret|].
  destruct (negb (truthy unit)); [apply ro_Return | exact IH].
Qed.

Ltac reads_only :=
  unfold api, cache_key;
  repeat first
    [ apply ro_ret | apply ro_throw | apply ro_asks | apply ro_Return
    | apply ro_fetch_GET | apply ro_json_of | apply ro_prop | apply ro_elems
    | apply ro_find_by_name | apply ro_check_units
    | apply ro_getCached | apply ro_cachedCollection
    | apply ro_js_some; intro
    | apply ro_bind; [|intro]
    | apply ro_try_catch; [|intro]
    | match goal with
      | |- reads_only (if ?b then _ else _) => destruct b
      | |- reads_only (match ?x with _ => _ end) => destruct x
      end ].

Lemma ro_resolvedUnits (units quantity_units : jval) :
  reads_only (resolvedUnits units quantity_units).
Proof. unfold resolvedUnits, resolveUnit. reads_only. Qed.

Lemma nr_attachImage (image_url productId : jval) : never_returns (attachImage image_url productId).
Proof. unfold attachImage. never_returns. Qed.

Section Gates.
Context {A B : Type}.

Lemma gate_reads_only (m : M A) : reads_only m -> rejects_before_writing m.
Proof. intros H e s r s' E _. exact (H e s _ s' E). Qed.

Lemma gate_no_400 (m : M A) : no_400 m -> rejects_before_writing m.
Proof. intros H e s r s' E St. destruct (H e s r s' E St). Qed.

Lemma gate_bind (m : M A) (k : A -> M B) :
  reads_only m -> (forall a, rejects_before_writing (k a)) ->
  rejects_before_writing (bind m k).
Proof.
  intros Hm Hk e s r s' H St. unfold bind in H.
  destruct (m e s) as [[a|r0|x] s1] eqn:E.
  - rewrite (Hk a e s1 r s' H St). exact (Hm e s _ s1 E).
  - injection H as _ <-. exact (Hm e s _ s1 E).
  - discriminate H.
Qed.

Lemma no_400_never_returns (m : M A) : never_returns m -> no_400 m.
Proof. intros H e s r s' E. destruct (H e s r s' E). Qed.

Lemma no_400_bind (m : M A) (k : A -> M B) :
  no_400 m -> (forall a, no_400 (k a)) -> no_400 (bind m k).
Proof.
  intros Hm Hk e s r s' H. unfold bind in H.
  destruct (m e s) as [[a|r0|x] s1] eqn:E.
  - exact (Hk a e s1 r s' H).
  - injection H as <- _. exact (Hm e s r0 s1 E).
  - discriminate H.
Qed.

Lemma no_400_Return (r : response) : status r <> 400 -> no_400 (@Return A r).
Proof. intros H e s r0 s' E. injection E as <- _. exact H. Qed.

End Gates.

(** Whatever the request and the backend, an answer 400 of the creation
    handler - a malformed request, a duplicate, an unresolved location,
    quantity unit or product group - comes with no write call issued: the
    creation write is the first write, and after it the handler answers 200
    or 502. *)
Lemma create_rejects_before_writing (req : inbound) :
  rejects_before_writing (enriched_products_create req).
Proof.
  unfold enriched_products_create. cbv zeta.
  destruct (negb (truthy (safeJson req))); [apply gate_reads_only, ro_Return|].
  destruct (negb (truthy (get "name" (safeJson req)))
            || negb (is_string (get "name" (safeJson req))));
    [apply gate_reads_only, ro_Return|].
  apply gate_bind; [reads_only|]. intros products.
  apply gate_bind; [reads_only|]. intros ps.
  apply gate_bind; [reads_only|]. intros [|]; [apply gate_reads_only, ro_Return|].
  apply gate_bind; [reads_only|]. intros defaultLocation.
  apply gate_bind; [apply ro_cachedCollection|]. intros locations.
  destruct (negb (truthy locations)); [apply gate_reads_only, ro_Return|].
  apply gate_bind; [reads_only|]. intros location.
  destruct (negb (truthy location)); [apply gate_reads_only, ro_Return|].
  apply gate_bind; [apply ro_cachedCollection|]. intros units.
  destruct (negb (truthy units)); [apply gate_reads_only, ro_Return|].
  apply gate_bind; [apply ro_resolvedUnits|]. intros resolved.
  apply gate_bind; [reads_only|]. intros _.
  apply gate_bind; [reads_only|]. intros product_group_id.
  apply gate_bind; [reads_only|]. intros createUrl.
  apply gate_no_400.
  apply no_400_bind; [apply no_400_never_returns, nr_fetch|]. intros createResp.
  destruct (negb (ok createResp)); [apply no_400_Return; discriminate|].
  apply no_400_bind; [apply no_400_never_returns, nr_json_of|]. intros created.
  apply no_400_bind; [apply no_400_never_returns, nr_prop|]. intros productId.
  apply no_400_bind; [apply no_400_never_returns, nr_attachImage|]. intros image.
  apply no_400_bind; [apply no_400_never_returns, nr_asks|]. intros productsKey.
  apply no_400_bind.
  - intros e s r s' H. discriminate H.
  - intros _. apply no_400_Return. discriminate.
Qed.

(** ** The form of the answers *)

Section Form.
Context {A B : Type}.

Lemma form_never_returns (m : M A) : never_returns m -> answers_in_form m.
Proof. intros H e s r s' E. destruct (H e s r s' E). Qed.

Lemma form_bind (m : M A) (k : A -> M B) :
  answers_in_form m -> (forall a, answers_in_form (k a)) -> answers_in_form (bind m k).
Proof.
  intros Hm Hk e s r s' H. unfold bind in H.
  destruct (m e s) as [[a|r0|x] s1] eqn:E.
  - exact (Hk a e s1 r s' H).
  - injection H as <- _. exact (Hm e s r0 s1 E).
  - discriminate H.
Qed.

Lemma form_try_catch (m : M A) (h : exn -> M A) :
  answers_in_form m -> (forall x, answers_in_form (h x)) -> answers_in_form (try_catch m h).
Proof.
  intros Hm Hh e s r s' H. unfold try_catch in H.
  destruct (m e s) as [[a|r0|x] s1] eqn:E.
  - discriminate H.
  - injection H as <- _. exact (Hm e s r0 s1 E).
  - exact (Hh x e s1 r s' H).
Qed.

Lemma form_Return (r : response) : answer_form r -> answers_in_form (@Return A r).
Proof. intros H e s r0 s' E. injection E as <- _. exact H. Qed.

End Form.

Lemma form_plain (t : string) : answer_form (plain t 502).
Proof. right. right. split; [reflexivity|]. exists t. reflexivity. Qed.

Lemma form_ok (v : jval) : answer_form (json v 200).
Proof. left. reflexivity. Qed.

Lemma form_error (code : string) (more : list (string * jval)) :
  answer_form (json (JObj (("error", JStr code) :: more)) 400).
Proof.
  right. left. split; [reflexivity|]. eexists. exists code. split; reflexivity.
Qed.

Lemma nr_find_first (f : jval -> M bool) (xs : list jval) :
  (forall x, never_returns (f x)) -> never_returns (find_first f xs).
Proof.
  intros Hf. induction xs as [|x xs IH]; simpl; [apply nr_ret|].
  apply nr_bind; [apply Hf|]. intros [|]; [apply nr_ret | exact IH].
Qed.

Lemma nr_js_some (f : jval -> M bool) (xs : list jval) :
  (forall x, never_returns (f x)) -> never_returns (js_some f xs).
Proof.
  intros Hf. induction xs as [|x xs IH]; simpl; [apply nr_ret|].
  apply nr_bind; [apply Hf|]. intros [|]; [apply nr_ret | exact IH].
Qed.

Lemma nr_js_find (f : jval -> M bool) (v : jval) :
  (forall x, never_returns (f x)) -> never_returns (js_find f v).
Proof.
  intros Hf. unfold js_find. apply nr_bind; [apply nr_elems|]. intros xs.
  apply nr_find_first, Hf.
Qed.

Lemma nr_find_by_name (collection name : jval) : never_returns (find_by_name collection name).
Proof. unfold find_by_name. apply nr_js_find. intros x. never_returns. Qed.

Lemma nr_cachedCollection (discriminator path : string) :
  never_returns (cachedCollection discriminator path).
Proof.
  unfold cachedCollection, cache_key, api.
  repeat (apply nr_bind; [apply nr_asks | intro]).
  apply nr_cacheGetJson, nr_fetch.
Qed.

Lemma nr_resolvedUnits (units quantity_units : jval) :
  never_returns (resolvedUnits units quantity_units).
Proof.
  unfold resolvedUnits, resolveUnit.
  repeat first [ apply nr_find_by_name | apply nr_find_first; intro
               | progress never_returns ].
Qed.

Lemma nr_name_by_id (xs : list jval) : never_returns (name_by_id xs).
Proof. unfold name_by_id. never_returns. Qed.

Lemma nr_lastPurchases (ids : list Z) (m : gmap string jval) :
  never_returns (lastPurchases ids m).
Proof.
  revert m. induction ids as [|id ids IH]; intros m; simpl; [apply nr_ret|].
  unfold cache_key, api.
  repeat (apply nr_bind; [apply nr_asks | intro]).
  apply nr_bind; [apply nr_cacheGetJson, nr_fetch|]. intros details.
  destruct (negb (truthy details)); apply IH.
Qed.

Lemma nr_enrichedItem (pm sm lm : gmap string jval) (i : jval) :
  never_returns (enrichedItem pm sm lm i).
Proof. unfold enrichedItem. apply nr_bind; [apply nr_prop|]. intros p. apply nr_ret. Qed.

Lemma form_multiple_lists {A} (lists : jval) : answers_in_form (@multiple_lists A lists).
Proof.
  unfold multiple_lists.
  apply form_bind; [apply form_never_returns, nr_elems|]. intros xs.
  apply form_bind.
  - apply form_never_returns, nr_mapM. intros l. unfold id_and_name. never_returns.
  - intros ls. apply form_Return, form_error.
Qed.

Lemma form_selectedList_add (lists id : jval) : answers_in_form (selectedList_add lists id).
Proof.
  unfold selectedList_add. destruct (truthy id).
  - apply form_bind.
    + apply form_never_returns, nr_js_find. intros l. never_returns.
    + intros l. destruct (negb (truthy l)); [apply form_Return, form_error|].
      apply form_never_returns, nr_ret.
  - destruct (strict_eq (js_length lists) (JNum 1)); [apply form_never_returns, nr_ret|].
    destruct (js_gt (js_length lists) 1); [apply form_multiple_lists|].
    apply form_Return, form_error.
Qed.

Lemma form_selectedList_get (lists id : jval) : answers_in_form (selectedList_get lists id).
Proof.
  unfold selectedList_get. destruct (truthy id).
  - apply form_bind.
    + apply form_never_returns, nr_js_find. intros l. never_returns.
    + intros l. destruct (negb (truthy l)); [apply form_Return, form_error|].
      apply form_never_returns, nr_ret.
  - destruct (strict_eq (js_length lists) (JNum 1)); [apply form_never_returns, nr_ret|].
    destruct (js_gt (js_length lists) 1); [apply form_multiple_lists|].
    apply form_Return, form_ok.
Qed.

Lemma form_check_units (l : list (string * jval)) : answers_in_form (check_units l).
Proof.
  induction l as [|[key unit] l IH]; simpl; [apply form_never_returns, nr_ret|].
  destruct (negb (truthy unit)); [apply form_Return, form_error | exact IH].
Qed.

Lemma form_fetching (h : exn -> M jval) (d p f t : string) :
  (forall x, h x = Return (plain t 502)) ->
  answers_in_form (try_catch (getCached d p f) h).
Proof.
  intros Hh. apply form_try_catch; [apply form_never_returns, nr_getCached|].
  intros x. rewrite Hh. apply form_Return, form_plain.
Qed.

Ltac in_form :=
  repeat first
    [ apply form_Return; first [apply form_plain | apply form_ok | apply form_error]
    | apply form_selectedList_add | apply form_selectedList_get | apply form_check_units
    | eapply form_fetching; intro; reflexivity
    | apply form_never_returns;
      first [ apply nr_resolveProductFuzzy | apply nr_find_by_name | apply nr_cachedCollection
            | apply nr_resolvedUnits | apply nr_name_by_id | apply nr_lastPurchases
            | apply nr_attachImage | apply nr_js_some; intro; solve [never_returns]
            | apply nr_mapM; intro;
              first [apply nr_bulk_line | apply nr_enrichedItem | apply nr_prop]
            | solve [never_returns] ]
    | apply form_bind; [|intro]
    | match goal with
      | |- answers_in_form (if ?b then _ else _) => destruct b
      | |- answers_in_form (match ?x with _ => _ end) => destruct x
      end ].

(** Every answer of the four handlers is a success, a 400 with a JSON error
    object, or a 502 with a plain text: the rejections of a request are
    structured, the failures of the backend are not. *)
Lemma form_add (req : inbound) : answers_in_form (enriched_shopping_list_add req).
Proof.
  unfold enriched_shopping_list_add, getCachedShoppingLists, getCachedProducts. cbv zeta.
  in_form.
Qed.

Lemma form_list (req : inbound) : answers_in_form (enriched_shopping_list req).
Proof.
  unfold enriched_shopping_list, getCachedShoppingLists, getCachedProducts, getCachedStores.
  cbv zeta. in_form.
Qed.

Lemma form_create (req : inbound) : answers_in_form (enriched_products_create req).
Proof.
  unfold enriched_products_create, getCachedProducts, cachedLocations, cachedQuantityUnits.
  cbv zeta. in_form.
  intros e s r s' H. discriminate H.
Qed.

Lemma form_bulk (req : inbound) : answers_in_form (enriched_stock_add_bulk req).
Proof.
  unfold enriched_stock_add_bulk, getCachedProducts. cbv zeta. in_form.
Qed.

(** ** The cache over time *)

(** An entry stored at [now] with a time to live is served to the requests
    that come before [now + ttl] and to no later one. *)
Lemma stored_entry_served_until_expiry
  (e e' : env) (s : state) (key : string) (text : payload) (ttl : Z) :
  served e' (stored_in e s key text ttl) key
  = if now e' <? now e + ttl then Some text else None.
Proof. unfold served, stored_in. simpl. rewrite lookup_insert_eq. reflexivity. Qed.

(** A stored entry does not change what the other keys serve. *)
Lemma stored_entry_other_key
  (e e' : env) (s : state) (key key' : string) (text : payload) (ttl : Z) :
  key <> key' ->
  served e' (stored_in e s key text ttl) key' = served e' s key'.
Proof.
  intros H. unfold served, stored_in. simpl.
  rewrite lookup_insert_ne by exact H. reflexivity.
Qed.

(** ** The enriched shopping list: the rows *)

Lemma get_stringify_skip (k k' : string) (v : jval) (fs : list (string * jval)) :
  String.eqb k k' = false ->
  get k (JSON_stringify (JObj ((k', v) :: fs))) = get k (JSON_stringify (JObj fs)).
Proof. intros H. destruct v; simpl; rewrite ?H; reflexivity. Qed.

Lemma get_stringify_here (k : string) (v : jval) (fs : list (string * jval)) :
  v <> JUndef ->
  get k (JSON_stringify (JObj ((k, v) :: fs))) = JSON_stringify v.
Proof.
  intros H. destruct v; simpl; rewrite ?String.eqb_refl; try reflexivity.
  destruct H. reflexivity.
Qed.

Lemma get_stringify_undef (k k' : string) (fs : list (string * jval)) :
  get k (JSON_stringify (JObj ((k', JUndef) :: fs))) = get k (JSON_stringify (JObj fs)).
Proof. reflexivity. Qed.

Lemma enrichedItem_row (productMap storeMap lastPurchaseMap : gmap string jval) (i : jval)
  (e : env) (s : state) :
  nullish i = false ->
  exists row,
    enrichedItem productMap storeMap lastPurchaseMap i e s = (Val row, s) /\
    get "product_id" row = get "product_id" i /\
    (nullish (at_key productMap (get "product_id" i)) = true ->
       get "product_name" row = JStr "Unknown") /\
    (lastPurchaseMap !! js_String (get "product_id" i) = None ->
       get "last_store" (JSON_stringify row) = JNull /\
       Forall (fun k => get k (get "pricing" (JSON_stringify row)) = JUndef)
         last_purchase_members).
Proof.
  intros Hi. unfold enrichedItem, bind, prop. rewrite Hi. unfold ret.
  eexists. split; [reflexivity|]. split; [reflexivity|]. split.
  - intros Hn. cbn [get lookup_field String.eqb Ascii.eqb Bool.eqb].
    unfold coalesce. rewrite Hn. reflexivity.
  - intros Hl.
    assert (Hk : at_key lastPurchaseMap (get "product_id" i) = JUndef).
    { unfold at_key. rewrite Hl. reflexivity. }
    rewrite Hk.
    cbn [coalesce nullish get lookup_field truthy String.eqb Ascii.eqb Bool.eqb].
    split.
    + rewrite !get_stringify_skip by reflexivity.
      rewrite get_stringify_here by discriminate. reflexivity.
    + repeat constructor;
        rewrite !get_stringify_skip by reflexivity;
        rewrite get_stringify_here by discriminate;
        repeat first [ rewrite get_stringify_undef
                     | rewrite get_stringify_skip by reflexivity ];
        reflexivity.
Qed.

(** The rows are those of the items, one for one and in their order. *)
Lemma enriched_rows_in_order (productMap storeMap lastPurchaseMap : gmap string jval)
  (items rows : list jval) (e : env) (s s' : state) :
  mapM (enrichedItem productMap storeMap lastPurchaseMap) items e s = (Val rows, s') ->
  Forall2 (fun i row => get "product_id" row = get "product_id" i) items rows.
Proof.
  intros H. eapply Forall2_impl; [exact (mapM_Forall2 _ _ _ _ _ _ H)|].
  intros i row [sa [sb Hr]].
  destruct (nullish i) eqn:Hi.
  - unfold enrichedItem, bind, prop in Hr. rewrite Hi in Hr. discriminate Hr.
  - destruct (enrichedItem_row productMap storeMap lastPurchaseMap i e sa Hi)
      as [row' [Hrow [Hid _]]].
    rewrite Hrow in Hr. injection Hr as <- _. exact Hid.
Qed.

(** A detail fetch that misses the cache and is answered with a failure
    leaves the map of last purchases as it was, and the other products are
    looked up all the same. *)
Lemma lastPurchases_failed_detail
  (productId : Z) (rest : list Z) (lastPurchaseMap : gmap string jval)
  (e : env) (s : state) (r : response) :
  let key := "https://cache.local/" ++ CACHE_VERSION (conf e) ++ "/grocy/"
             ++ "stock-product/" ++ pretty productId in
  let rq := GET (upstreamBase (conf e) ++ "/api/stock/products/" ++ pretty productId) in
  served e s key = None ->
  upstream e (sent s) rq = Responded r -> ok r = false ->
  lastPurchases (productId :: rest) lastPurchaseMap e s
  = lastPurchases rest lastPurchaseMap e (mkState (cache s) (sent s ++ [rq])).
Proof.
  intros key rq Hs Hu Hok. simpl lastPurchases.
  unfold bind at 1. unfold cache_key at 1, asks at 1.
  unfold bind at 1. unfold api at 1, asks at 1.
  fold key. fold rq.
  assert (Hc : cacheGetJson key (fetch rq) 3600 e s
               = (Val JNull, mkState (cache s) (sent s ++ [rq]))).
  { unfold cacheGetJson, bind, cache_match, fetch. fold (served e s key).
    rewrite Hs, Hu, Hok. reflexivity. }
  rewrite (bind_val _ _ _ _ _ _ Hc). reflexivity.
Qed.

(** ** The examples of the specification *)

Example resolution_exactness :
  fst (resolveProductFuzzy (JArr [named 1 "Milk"; named 2 "Milk Substitute"]) (JStr "milk")
         kitchen fresh)
  = Val (Resolved (mkScored (JNum 1) (JStr "Milk") 100)).
Proof. vm_compute. reflexivity. Qed.

Example resolution_ambiguity :
  fst (resolveProductFuzzy (JArr [named 1 "Apple Juice"; named 2 "Apple Sauce"]) (JStr "apple")
         kitchen fresh)
  = Val (Ambiguous [mkScored (JNum 1) (JStr "Apple Juice") 60;
                    mkScored (JNum 2) (JStr "Apple Sauce") 60]).
Proof. vm_compute. reflexivity. Qed.

Example resolution_miss :
  fst (resolveProductFuzzy (JArr pantry) (JStr "xyz123") kitchen fresh)
  = Val (NotFound (JStr "xyz123")).
Proof. vm_compute. reflexivity. Qed.

Example resolution_prefix_before_infix :
  fst (resolveProductFuzzy
         (JArr [named 1 "Green Apple"; named 2 "Apple Juice"; named 3 "Apple Sauce"])
         (JStr "Apple!") kitchen fresh)
  = Val (Ambiguous [mkScored (JNum 2) (JStr "Apple Juice") 60;
                    mkScored (JNum 3) (JStr "Apple Sauce") 60;
                    mkScored (JNum 1) (JStr "Green Apple") 30]).
Proof. vm_compute. reflexivity. Qed.

Example bulk_isolation :
  fst (run (enriched_stock_add_bulk
              (bulk_request [line 1 "Milk" 2; line 2 "Dragon Fruit" 1; line 3 "milk" 4]))
         kitchen fresh)
  = Returned (json
      (JObj [("status", JStr "completed");
             ("summary", JObj [("total", JNum 3); ("added", JNum 2); ("errors", JNum 1)]);
             ("results",
                JArr [JObj [("line", JNum 1); ("status", JStr "added");
                            ("product", named 1 "Milk");
                            ("interpreted_as",
                               JObj [("amount", JNum 2); ("unit", JStr "Pack");
                                     ("price", JNull)])];
                      JObj [("line", JNum 2); ("status", JStr "error");
                            ("error", JStr "product_not_found");
                            ("product", JStr "Dragon Fruit")];
                      JObj [("line", JNum 3); ("status", JStr "added");
                            ("product", named 1 "Milk");
                            ("interpreted_as",
                               JObj [("amount", JNum 4); ("unit", JStr "Pack");
                                     ("price", JNull)])]])]) 200).
Proof. vm_compute. reflexivity. Qed.

Example thirty_lines_capped :
  exists v,
    rbody <$> (match fst (run (enriched_stock_add_bulk (bulk_request thirty_lines))
                            kitchen fresh) with
               | Returned r => Some r
               | _ => None
               end) = Some (Json v) /\
    get "summary" v = JObj [("total", JNum 25); ("added", JNum 25); ("errors", JNum 0)] /\
    js_length (get "results" v) = JNum 25.
Proof. eexists. vm_compute. repeat split. Qed.

(** ** Where the code departs from its specification *)

(** C3.  A batch whose second line is [null]: the first line is added, with
    its write sent to the backend, then the loop throws; no result is
    reported for any line and the third line is never looked at. *)
Theorem bulk_null_line_aborts_batch :
  let outcome :=
    run (enriched_stock_add_bulk
           (bulk_request [line 1 "Milk" 2; JNull; line 3 "Apple Juice" 1]))
      kitchen fresh in
  fst outcome = Thrown TypeError /\
  sent (snd outcome)
  = [GET "https://grocy.internal/api/objects/products";
     GET "https://grocy.internal/api/stock/products/1";
     POST "https://grocy.internal/api/objects/products/1/add"
       (JObj [("amount", JNum 2); ("qu_id", JNum 3)])].
Proof. vm_compute. split; reflexivity. Qed.

(** C6.  The add endpoint in front of a backend that answers 500: the
    failure is reported with status 502 and the plain text
    [Failed to fetch shopping lists], not with a JSON object. *)
Theorem backend_failure_is_plain_text :
  fst (run (enriched_shopping_list_add
              (add_request (JObj [("product", JStr "milk"); ("amount", JNum 1)])))
         outage fresh)
  = Returned (mkResponse 502 [("Content-Type", "text/plain;charset=UTF-8")]
                (Text "Failed to fetch shopping lists")).
Proof. vm_compute. reflexivity. Qed.

(** C7.  The enriched view of list 1, whose first row is a product whose
    detail fetch fails: the view is answered, in the order of the list, the
    third row is named [Unknown], [last_store] of the first row is [null] -
    and its [pricing] has no last-purchase member at all, where the second
    row, whose details were fetched, has all five. *)
Theorem failed_details_leave_pricing_members_out :
  fst (run (enriched_shopping_list (list_request "1")) kitchen fresh)
  = Returned (mkResponse 200 [("Content-Type", "application/json")]
      (Json
         (JObj [("list", named 1 "Weekly");
                ("items",
                   JArr [JObj [("product_id", JNum 3);
                               ("product_name", JStr "Apple Juice");
                               ("amount", JNum 2);
                               ("note", JNull);
                               ("last_store", JNull);
                               ("pricing",
                                  JObj [("amount", JNum 2);
                                        ("shopping_list_qu_id", JNull)])];
                         JObj [("product_id", JNum 1);
                               ("product_name", JStr "Milk");
                               ("amount", JNum 1);
                               ("note", JStr "fresh");
                               ("last_store", JStr "Corner Shop");
                               ("pricing",
                                  JObj [("last_price_per_price_unit", JNum 2);
                                        ("price_unit", JStr "Pack");
                                        ("price_qu_id", JNum 3);
                                        ("amount", JNum 1);
                                        ("shopping_list_qu_id", JNum 3);
                                        ("purchase_to_stock_factor", JNum 1);
                                        ("price_to_stock_factor", JNum 1)])];
                         JObj [("product_id", JNum 9);
                               ("product_name", JStr "Unknown");
                               ("amount", JNum 5);
                               ("note", JNull);
                               ("last_store", JNull);
                               ("pricing",
                                  JObj [("amount", JNum 5);
                                        ("shopping_list_qu_id", JNull)])]])]))).
Proof. vm_compute. reflexivity. Qed.

(** ** The theorems at work in the kitchen *)

Lemma resolveProductFuzzy_outcomes_pantry :
  Forall (fun p => nullish p = false) pantry /\
  exists sorted,
    Permutation sorted (positives (map (candidate (normalize (JStr "milk"))) pantry)) /\
    (forall top rest, firstn 5 sorted = top :: rest -> m_score top = 100 ->
       resolveProductFuzzy (JArr pantry) (JStr "milk") kitchen fresh
       = (Val (Resolved top), fresh)).
Proof.
  assert (H : Forall (fun p => nullish p = false) pantry).
  { repeat constructor. }
  split; [exact H|].
  destruct (resolveProductFuzzy_outcomes pantry (JStr "milk") kitchen fresh H)
    as [sorted (P & _ & _ & _ & _ & _ & R & _)].
  exists sorted. split; [exact P | exact R].
Defined.

Lemma cacheGetJson_cache_aside_kitchen :
  let key := "https://cache.local/v1.1/grocy/products" in
  let products := fetch (GET "https://grocy.internal/api/objects/products") in
  let details := GET "https://grocy.internal/api/stock/products/3" in
  let filled := mkState {[ key := mkEntry (Json (JArr pantry)) 1060 ]}
                  [GET "https://grocy.internal/api/objects/products"] in
  cacheGetJson key products 60 kitchen fresh = (Val (JArr pantry), filled) /\
  cacheGetJson key products 60 kitchen filled = (Val (JArr pantry), filled) /\
  cacheGetJson key (fetch details) 60 kitchen fresh = (Val JNull, mkState ∅ [details]).
Proof.
  intros key products details filled.
  destruct (cacheGetJson_cache_aside key products 60 kitchen fresh) as (_ & Miss & _ & _).
  destruct (cacheGetJson_cache_aside key products 60 kitchen filled) as (Hit & _).
  destruct (cacheGetJson_cache_aside key (fetch details) 60 kitchen fresh) as (_ & _ & _ & NoStore).
  split; [|split].
  - destruct (Miss eq_refl
                (mkResponse 200 [("content-type", "application/json")] (Json (JArr pantry)))
                (mkState ∅ [GET "https://grocy.internal/api/objects/products"]) eq_refl)
      as [_ Stored].
    exact (Stored eq_refl).
  - exact (Hit (Json (JArr pantry)) eq_refl).
  - exact (NoStore eq_refl details
             (mkResponse 500 [("content-type", "text/html")] (Text "Internal Server Error"))
             eq_refl eq_refl).
Defined.


Lemma bulk_rejects_without_processing_kitchen :
  enriched_stock_add_bulk (bulk_request []) kitchen fresh
  = (Returned (jsonError 400 (err "invalid_request")), fresh) /\
  enriched_stock_add_bulk (post "/api/enriched/stock/add/bulk" (JObj [("items", JStr "milk")]))
    kitchen fresh
  = (Returned (jsonError 400 (err "invalid_request")), fresh) /\
  enriched_stock_add_bulk (post "/api/enriched/stock/add/bulk" (JNum 0)) kitchen fresh
  = (Returned (jsonError 400 (err "invalid_json")), fresh).
Proof.
  split; [|split].
  - exact (bulk_rejects_without_processing (bulk_request []) _ kitchen fresh
             eq_refl eq_refl).
  - exact (bulk_rejects_without_processing
             (post "/api/enriched/stock/add/bulk" (JObj [("items", JStr "milk")]))
             _ kitchen fresh eq_refl eq_refl).
  - exact (bulk_rejects_without_processing
             (post "/api/enriched/stock/add/bulk" (JNum 0)) _ kitchen fresh eq_refl eq_refl).
Defined.

Lemma bulk_cap_thirty_lines :
  (25 < length thirty_lines)%nat /\
  exists results s2,
    enriched_stock_add_bulk (bulk_request thirty_lines) kitchen fresh
    = (Returned (json (JObj [("status", JStr "completed");
                             ("summary", JObj [("total", JNum 25); ("added", JNum 25);
                                               ("errors", JNum 0)]);
                             ("results", JArr results)]) 200), s2) /\
    length results = 25%nat /\
    map (get "line") results = map (fun n => JNum (Z.of_nat n)) (seq 1 25) /\
    enriched_stock_add_bulk (bulk_request (firstn 25 thirty_lines)) kitchen fresh
    = enriched_stock_add_bulk (bulk_request thirty_lines) kitchen fresh.
Proof.
  assert (L : (25 < length thirty_lines)%nat) by (vm_compute; lia).
  split; [exact L|].
  destruct (bulk_cap (bulk_request thirty_lines) thirty_lines kitchen fresh eq_refl L)
    as [_ [Hanswer Hrest]].
  set (s1 := snd (getCachedProducts kitchen fresh)).
  set (turns := mapM (bulk_line (JArr pantry)) (firstn 25 thirty_lines) kitchen s1).
  set (results := match fst turns with Val rs => rs | _ => [] end).
  destruct (Hanswer (JArr pantry) s1 results (snd turns)) as [Ha [Hl _]];
    [vm_compute; reflexivity | vm_compute; reflexivity |].
  exists results, (snd turns).
  split; [rewrite Ha; vm_compute; reflexivity|].
  split; [exact Hl|].
  split; [vm_compute; reflexivity|].
  exact (Hrest (bulk_request (firstn 25 thirty_lines)) (firstn 25 thirty_lines)
           eq_refl eq_refl).
Defined.


(** * Further properties *)

(** ** Single stock-add and the bulk loop *)

Lemma ro_mapM {A B} (f : A -> M B) (l : list A) :
  (forall a, reads_only (f a)) -> reads_only (mapM f l).
Proof.
  intros Hf. induction l as [|a l IH]; simpl; [apply ro_ret|].
  apply ro_bind; [apply Hf|]. intros b.
  apply ro_bind; [exact IH|]. intros bs. apply ro_ret.
Qed.

Lemma ro_resolveProductFuzzy (products productName : jval) :
  reads_only (resolveProductFuzzy products productName).
Proof.
  unfold resolveProductFuzzy, score_entry.
  apply ro_bind; [apply ro_elems|]. intros ps.
  apply ro_bind; [apply ro_mapM; intros p; reads_only|]. intros all.
  reads_only.
Qed.

Lemma prop_val (k : string) (v : jval) (e : env) (s : state) :
  nullish v = false -> prop k v e s = (Val (get k v), s).
Proof. intros H. unfold prop. rewrite H. reflexivity. Qed.

(** X1.  A valid request to the single stock-add (a product, a numeric
    amount) is handled as the bulk loop handles the same object as a line:
    after the product set is read, both issue the same calls in the same
    order and leave the same cache, whatever the backend answers; the single
    add answers 200 exactly when the line is reported as added, and then
    with the product and the interpretation of the line. *)
Theorem stock_add_follows_bulk_line
  (req : inbound) (products : jval) (e : env) (s s1 : state) :
  truthy (get "product" (safeJson req)) = true ->
  is_number (get "amount" (safeJson req)) = true ->
  getCachedProducts e s = (Val products, s1) ->
  let single := enriched_stock_add req e s in
  let batch := bulk_line products (safeJson req) e s1 in
  snd single = snd batch /\
  (forall r, fst batch = Val r -> get "status" r = JStr "added" ->
     fst single
     = Returned (json (JObj [("status", JStr "added");
                             ("product", get "product" r);
                             ("interpreted_as", get "interpreted_as" r)]) 200)) /\
  (forall a, fst single = Returned a -> status a = 200 ->
     exists r, fst batch = Val r /\ get "status" r = JStr "added").
Proof.
  intros Hprod Hamt Hp. cbv zeta.
  assert (Tb : truthy (safeJson req) = true).
  { destruct (safeJson req); simpl in Hprod |- *; congruence. }
  assert (Hn : nullish (safeJson req) = false).
  { destruct (safeJson req); simpl in Tb |- *; congruence. }
  pose proof (nr_resolveProductFuzzy products (get "product" (safeJson req)) e s1) as NR.
  set (agree := fun (single : result response * state) (batch : result jval * state) =>
    single.2 = batch.2 /\
    (forall r, batch.1 = Val r -> get "status" r = JStr "added" ->
       single.1 = Returned (json (JObj [("status", JStr "added");
                                        ("product", get "product" r);
                                        ("interpreted_as", get "interpreted_as" r)]) 200)) /\
    (forall a, single.1 = Returned a -> status a = 200 ->
       exists r, batch.1 = Val r /\ get "status" r = JStr "added")).
  assert (Leaf : forall (a : response) (l : result jval) (t : state),
            status a <> 200 ->
            (forall r, l = Val r -> get "status" r <> JStr "added") ->
            agree (Returned a, t) (l, t)).
  { intros a l t Ha Hl. split; [reflexivity|]. split.
    - intros r Hr Hs. destruct (Hl r Hr Hs).
    - intros a' [= <-] Hs. destruct (Ha Hs). }
  assert (Threw : forall (x : exn) (l : result jval) (t : state),
            (forall r, l = Val r -> get "status" r <> JStr "added") ->
            agree (Thrown x, t) (l, t)).
  { intros x l t Hl. split; [reflexivity|]. split.
    - intros r Hr Hs. destruct (Hl r Hr Hs).
    - intros a' [=]. }
  match goal with |- ?G => change G with (agree (enriched_stock_add req e s)
                                            (bulk_line products (safeJson req) e s1)) end.
  unfold enriched_stock_add, bulk_line. cbv zeta. rewrite Tb. cbn [negb].
  rewrite (bind_val _ _ _ _ _ _ (prop_val "line" _ e s1 Hn)).
  rewrite Hprod, Hamt. cbn [negb orb].
  rewrite (bind_val _ _ _ _ _ _ (try_catch_val _ _ _ _ _ _ Hp)).
  unfold json_of. unfold bind, prop, try_catch, fetch, fetch_detached,
    api, asks, ret, throw, Return.
  destruct (resolveProductFuzzy products (get "product" (safeJson req)) e s1)
    as [[[found|n|ms]|r0|x] s2].
  2,3: apply Leaf; [discriminate|]; intros r [= <-]; discriminate.
  2: destruct (NR r0 s2 eq_refl).
  2: apply Threw; intros r [=].
  match goal with
  | |- context [upstream e (sent s2) ?rq] => destruct (upstream e (sent s2) rq) as [r|msg]
  end.
  2: apply Threw; intros r [= <-]; discriminate.
  destruct (negb (ok r)).
  { apply Leaf; [discriminate|]. intros r' [= <-]. discriminate. }
  destruct (rbody r) as [v|t].
  2: apply Threw; intros r' [= <-]; discriminate.
  destruct (nullish v).
  { apply Threw. intros r' [=]. }
  match goal with
  | |- context [upstream e ?h ?rq] => destruct (upstream e h rq) as [r2|msg]
  end.
  2: apply Threw; intros r' [=].
  destruct (negb (ok r2)).
  { apply Leaf; [discriminate|]. intros r' [= <-]. discriminate. }
  destruct (is_number (get "price" (safeJson req))).
  - split; [reflexivity|]. split.
    + intros r' [= <-] _. reflexivity.
    + intros a' _ _. eexists. split; reflexivity.
  - split; [reflexivity|]. split.
    + intros r' [= <-] _. reflexivity.
    + intros a' _ _. eexists. split; reflexivity.
Qed.

Lemma stock_add_follows_bulk_line_kitchen :
  let req := stock_add_request (JObj [("product", JStr "milk"); ("amount", JNum 2);
                                      ("price", JNum 3)]) in
  let s1 := snd (getCachedProducts kitchen fresh) in
  snd (enriched_stock_add req kitchen fresh)
  = snd (bulk_line (JArr pantry) (safeJson req) kitchen s1) /\
  (forall a, fst (enriched_stock_add req kitchen fresh) = Returned a -> status a = 200 ->
     exists r, fst (bulk_line (JArr pantry) (safeJson req) kitchen s1) = Val r /\
               get "status" r = JStr "added").
Proof.
  intros req s1.
  destruct (stock_add_follows_bulk_line req (JArr pantry) kitchen fresh s1)
    as (Calls & _ & Added); [reflexivity | reflexivity | vm_compute; reflexivity |].
  split; [exact Calls | exact Added].
Defined.
(** ** Rejections, answers and views *)

Lemma ro_js_find (f : jval -> M bool) (v : jval) :
  (forall x, reads_only (f x)) -> reads_only (js_find f v).
Proof.
  intros Hf. unfold js_find. apply ro_bind; [apply ro_elems|]. intros xs.
  apply ro_find_first, Hf.
Qed.

Lemma ro_multiple_lists {A} (lists : jval) : reads_only (@multiple_lists A lists).
Proof.
  unfold multiple_lists, id_and_name.
  apply ro_bind; [apply ro_elems|]. intros xs.
  apply ro_bind; [apply ro_mapM; intros l; reads_only|]. intros ls. apply ro_Return.
Qed.

Lemma ro_selectedList_add (lists id : jval) : reads_only (selectedList_add lists id).
Proof.
  unfold selectedList_add. destruct (truthy id).
  - apply ro_bind; [apply ro_js_find; intros l; reads_only|]. intros l. reads_only.
  - destruct (strict_eq (js_length lists) (JNum 1)); [apply ro_ret|].
    destruct (js_gt (js_length lists) 1); [apply ro_multiple_lists | apply ro_Return].
Qed.

Lemma ro_selectedList_get (lists id : jval) : reads_only (selectedList_get lists id).
Proof.
  unfold selectedList_get. destruct (truthy id).
  - apply ro_bind; [apply ro_js_find; intros l; reads_only|]. intros l. reads_only.
  - destruct (strict_eq (js_length lists) (JNum 1)); [apply ro_ret|].
    destruct (js_gt (js_length lists) 1); [apply ro_multiple_lists | apply ro_Return].
Qed.

Lemma ro_name_by_id (xs : list jval) : reads_only (name_by_id xs).
Proof.
  unfold name_by_id. apply ro_bind; [apply ro_mapM; intros x; reads_only|].
  intros entries. apply ro_ret.
Qed.

Lemma ro_lastPurchases (ids : list Z) (m : gmap string jval) : reads_only (lastPurchases ids m).
Proof.
  revert m. induction ids as [|id ids IH]; intros m; simpl; [apply ro_ret|].
  unfold cache_key, api.
  repeat (apply ro_bind; [apply ro_asks | intro]).
  apply ro_bind; [apply ro_cacheGetJson, ro_fetch_GET|]. intros details.
  destruct (negb (truthy details)); apply IH.
Qed.

Lemma add_rejects_before_writing (req : inbound) :
  rejects_before_writing (enriched_shopping_list_add req).
Proof.
  unfold enriched_shopping_list_add. cbv zeta.
  destruct (negb (truthy (safeJson req))); [apply gate_reads_only, ro_Return|].
  destruct (negb (truthy (get "product" (safeJson req)))
            || negb (is_number (get "amount" (safeJson req))));
    [apply gate_reads_only, ro_Return|].
  apply gate_bind; [reads_only|]. intros lists.
  apply gate_bind; [apply ro_selectedList_add|]. intros selectedList.
  apply gate_bind; [reads_only|]. intros products.
  apply gate_bind; [apply ro_resolveProductFuzzy|].
  intros [found|n|ms]; [|apply gate_reads_only, ro_Return..].
  apply gate_bind; [apply ro_prop|]. intros list_id.
  apply gate_bind; [reads_only|]. intros url.
  apply gate_no_400.
  apply no_400_bind; [apply no_400_never_returns, nr_fetch|]. intros addResp.
  destruct (negb (ok addResp)); apply no_400_Return; discriminate.
Qed.

Lemma stock_add_rejects_before_writing (req : inbound) :
  rejects_before_writing (enriched_stock_add req).
Proof.
  unfold enriched_stock_add. cbv zeta.
  destruct (negb (truthy (safeJson req))); [apply gate_reads_only, ro_Return|].
  destruct (negb (truthy (get "product" (safeJson req)))
            || negb (is_number (get "amount" (safeJson req))));
    [apply gate_reads_only, ro_Return|].
  apply gate_bind; [reads_only|]. intros products.
  apply gate_bind; [apply ro_resolveProductFuzzy|].
  intros [found|n|ms]; [|apply gate_reads_only, ro_Return..].
  apply gate_bind; [reads_only|]. intros detailsUrl.
  apply gate_bind; [reads_only|]. intros detailsResp.
  destruct (negb (ok detailsResp)); [apply gate_reads_only, ro_Return|].
  apply gate_bind; [reads_only|]. intros details.
  apply gate_bind; [reads_only|]. intros detailsProduct.
  apply gate_bind; [reads_only|]. intros addUrl.
  apply gate_no_400.
  apply no_400_bind; [apply no_400_never_returns, nr_fetch|]. intros addResp.
  destruct (negb (ok addResp)); [apply no_400_Return; discriminate|].
  apply no_400_bind; [apply no_400_never_returns, nr_asks|]. intros pricesUrl.
  apply no_400_bind.
  - apply no_400_never_returns.
    destruct (is_number (get "price" (safeJson req))); [apply nr_fetch_detached | apply nr_ret].
  - intros _. apply no_400_Return. discriminate.
Qed.

Lemma bulk_rejects_before_writing (req : inbound) :
  rejects_before_writing (enriched_stock_add_bulk req).
Proof.
  unfold enriched_stock_add_bulk. cbv zeta.
  destruct (negb (truthy (safeJson req))); [apply gate_reads_only, ro_Return|].
  destruct (get "items" (safeJson req)) as [| | | | |[|x xs]|];
    try (apply gate_reads_only, ro_Return).
  apply gate_bind; [reads_only|]. intros products.
  apply gate_no_400.
  apply no_400_bind.
  - apply no_400_never_returns, nr_mapM. intros item. apply nr_bulk_line.
  - intros results. apply no_400_Return. discriminate.
Qed.

(** X2.  Whatever the request and the backend, an answer 400 of a handler
    that writes - adding to a shopping list, creating a product, adding
    stock, alone or in bulk - comes with no write call issued: every
    rejection is decided before the first write. *)
Theorem rejections_issue_no_write (req : inbound) (e : env) (s s' : state) (r : response) :
  enriched_shopping_list_add req e s = (Returned r, s') \/
  enriched_products_create req e s = (Returned r, s') \/
  enriched_stock_add req e s = (Returned r, s') \/
  enriched_stock_add_bulk req e s = (Returned r, s') ->
  status r = 400 ->
  writes s' = writes s.
Proof.
  intros [H | [H | [H | H]]] St.
  - exact (add_rejects_before_writing req e s r s' H St).
  - exact (create_rejects_before_writing req e s r s' H St).
  - exact (stock_add_rejects_before_writing req e s r s' H St).
  - exact (bulk_rejects_before_writing req e s r s' H St).
Qed.

Lemma rejections_issue_no_write_kitchen :
  let req := stock_add_request (JObj [("product", JStr "apple"); ("amount", JNum 2)]) in
  let r := json (JObj [("error", JStr "multiple_products");
                       ("products", JArr [named 3 "Apple Juice"; named 4 "Apple Sauce"])]) 400 in
  fst (enriched_stock_add req kitchen fresh) = Returned r /\
  writes (snd (enriched_stock_add req kitchen fresh)) = writes fresh.
Proof.
  intros req r. split; [vm_compute; reflexivity|].
  apply (rejections_issue_no_write req kitchen fresh _ r);
    [right; right; left; vm_compute; reflexivity | reflexivity].
Defined.

Lemma nr_stockRow (pm : gmap string jval) (row : jval) : never_returns (stockRow pm row).
Proof. unfold stockRow. apply nr_bind; [apply nr_prop|]. intros p. apply nr_ret. Qed.

Lemma form_stock : answers_in_form enriched_stock.
Proof.
  unfold enriched_stock, getCachedProducts. in_form.
Qed.

Lemma form_stock_add (req : inbound) : answers_in_form (enriched_stock_add req).
Proof.
  unfold enriched_stock_add, getCachedProducts. cbv zeta. in_form.
Qed.

(** X3.  Every answer of the six enriched handlers modelled here is a
    success, a 400 whose body is a JSON object with a string member [error],
    or a 502 whose body is a plain text: the rejections of a request are
    structured, the failures of the backend are not. *)
Theorem every_answer_has_a_form (req : inbound) :
  answers_in_form (enriched_shopping_list_add req) /\
  answers_in_form (enriched_shopping_list req) /\
  answers_in_form enriched_stock /\
  answers_in_form (enriched_products_create req) /\
  answers_in_form (enriched_stock_add req) /\
  answers_in_form (enriched_stock_add_bulk req).
Proof.
  repeat split.
  - apply form_add.
  - apply form_list.
  - apply form_stock.
  - apply form_create.
  - apply form_stock_add.
  - apply form_bulk.
Qed.

Lemma every_answer_has_a_form_outage :
  fst (enriched_shopping_list_add
         (add_request (JObj [("product", JStr "milk"); ("amount", JNum 1)])) outage fresh)
  = Returned (plain "Failed to fetch shopping lists" 502) /\
  answer_form (plain "Failed to fetch shopping lists" 502).
Proof.
  split; [vm_compute; reflexivity|].
  apply (proj1 (every_answer_has_a_form
                  (add_request (JObj [("product", JStr "milk"); ("amount", JNum 1)])))
           outage fresh _
           (snd (enriched_shopping_list_add
                   (add_request (JObj [("product", JStr "milk"); ("amount", JNum 1)]))
                   outage fresh))).
  vm_compute. reflexivity.
Defined.

Lemma ro_list (req : inbound) : reads_only (enriched_shopping_list req).
Proof.
  unfold enriched_shopping_list. cbv zeta.
  apply ro_bind; [reads_only|]. intros lists.
  apply ro_bind; [apply ro_selectedList_get|]. intros selectedList.
  apply ro_bind; [reads_only|]. intros list_id.
  apply ro_bind; [reads_only|]. intros url.
  apply ro_bind; [reads_only|]. intros itemsResp.
  destruct (negb (ok itemsResp)); [apply ro_Return|].
  apply ro_bind; [reads_only|]. intros parsed.
  apply ro_bind; [reads_only|]. intros all.
  apply ro_bind; [apply ro_mapM; intros i; reads_only|]. intros ids.
  apply ro_bind; [reads_only|]. intros products.
  apply ro_bind; [apply ro_bind; [apply ro_elems | intros ps; apply ro_name_by_id]|].
  intros productMap.
  apply ro_bind; [reads_only|]. intros stores.
  apply ro_bind; [apply ro_bind; [apply ro_elems | intros ss; apply ro_name_by_id]|].
  intros storeMap.
  apply ro_bind; [apply ro_lastPurchases|]. intros lastPurchaseMap.
  apply ro_bind; [apply ro_mapM; intros i; unfold enrichedItem; reads_only|].
  intros enrichedItems. apply ro_Return.
Qed.

Lemma ro_stock : reads_only enriched_stock.
Proof.
  unfold enriched_stock.
  apply ro_bind; [reads_only|]. intros url.
  apply ro_bind; [reads_only|]. intros stockResp.
  destruct (negb (ok stockResp)); [apply ro_Return|].
  apply ro_bind; [reads_only|]. intros parsed.
  apply ro_bind; [reads_only|]. intros all.
  apply ro_bind; [apply ro_mapM; intros i; reads_only|]. intros ids.
  destruct (distinct (numbers ids)); [apply ro_Return|].
  apply ro_bind; [reads_only|]. intros products.
  apply ro_bind; [apply ro_bind; [apply ro_elems | intros ps; apply ro_name_by_id]|].
  intros productMap.
  apply ro_bind; [apply ro_mapM; intros i; unfold stockRow; reads_only|].
  intros enriched. apply ro_Return.
Qed.

(** X4.  The two views - the enriched shopping list and the enriched stock -
    issue no write call, however they end (an answer or an exception) and
    whatever the backend answers. *)
Theorem views_issue_no_write (req : inbound) (e : env) (s s' : state) (r : result response) :
  enriched_shopping_list req e s = (r, s') \/ enriched_stock e s = (r, s') ->
  writes s' = writes s.
Proof.
  intros [H | H].
  - exact (ro_list req e s r s' H).
  - exact (ro_stock e s r s' H).
Qed.

Lemma views_issue_no_write_larder :
  writes (snd (enriched_stock larder fresh)) = writes fresh /\
  length (sent (snd (enriched_stock larder fresh))) = 2%nat.
Proof.
  split; [|vm_compute; reflexivity].
  apply (views_issue_no_write (list_request "1") larder fresh _
           (fst (enriched_stock larder fresh))).
  right. vm_compute. reflexivity.
Defined.
(** ** The enriched stock *)

Lemma bind_inv {A B} (m : M A) (k : A -> M B) (e : env) (s s' : state) (a : response) :
  bind m k e s = (Returned a, s') ->
  m e s = (Returned a, s') \/
  exists x s1, m e s = (Val x, s1) /\ k x e s1 = (Returned a, s').
Proof.
  unfold bind. destruct (m e s) as [[x|r|y] s1]; intros H.
  - right. exists x, s1. split; [reflexivity | exact H].
  - left. injection H as <- <-. reflexivity.
  - discriminate H.
Qed.

Lemma fetch_responded (rq : request) (r : response) (e : env) (s : state) :
  upstream e (sent s) rq = Responded r ->
  fetch rq e s = (Val r, mkState (cache s) (sent s ++ [rq])).
Proof. intros H. unfold fetch. rewrite H. reflexivity. Qed.

Lemma mapM_prop (k : string) (l : list jval) (e : env) (s : state) :
  Forall (fun x => nullish x = false) l ->
  mapM (prop k) l e s = (Val (map (get k) l), s).
Proof.
  induction 1 as [|x l Hx _ IH]; [reflexivity|].
  simpl. rewrite (bind_val _ _ _ _ _ _ (prop_val k x e s Hx)).
  rewrite (bind_val _ _ _ _ _ _ IH). reflexivity.
Qed.

Lemma numbers_none (l : list jval) :
  Forall (fun v => is_number v = false) l -> numbers l = [].
Proof.
  induction 1 as [|v l Hv _ IH]; [reflexivity|].
  unfold numbers in *. simpl. rewrite IH. destruct v; try reflexivity. discriminate Hv.
Qed.

(** X5.  When none of the first 25 stock entries has a number as its
    [product_id] - an empty stock, or ids written as strings - the stock view
    answers 200 with an empty array: the entries are dropped from the view,
    and the product set is not even read, the stock call being the only
    call. *)
Theorem stock_view_without_product_ids
  (e : env) (s : state) (r : response) (rows : list jval) :
  let rq := GET (upstreamBase (conf e) ++ "/api/objects/stock") in
  upstream e (sent s) rq = Responded r ->
  ok r = true ->
  rbody r = Json (JArr rows) ->
  Forall (fun row => nullish row = false /\ is_number (get "product_id" row) = false)
    (firstn 25 rows) ->
  enriched_stock e s
  = (Returned (json (JArr []) 200), mkState (cache s) (sent s ++ [rq])).
Proof.
  intros rq Hu Hok Hb Hrows. unfold enriched_stock.
  unfold bind at 1. unfold api at 1, asks at 1. fold rq.
  rewrite (bind_val _ _ _ _ _ _ (fetch_responded rq r e s Hu)).
  rewrite Hok, Hb. cbn [negb json_of].
  unfold bind at 1. unfold ret at 1. unfold bind at 1. unfold elems at 1, ret at 1.
  rewrite (bind_val _ _ _ _ _ _ (mapM_prop "product_id" (firstn 25 rows) e _
             (List.Forall_impl _ (fun row H => proj1 H) Hrows))).
  rewrite numbers_none; [reflexivity|].
  apply List.Forall_map. eapply List.Forall_impl; [|exact Hrows].
  intros row H. exact (proj2 H).
Qed.

Lemma stock_view_without_product_ids_kitchen :
  let rows := [JObj [("id", JNum 21); ("product_id", JStr "1"); ("amount", JNum 2)];
               JObj [("id", JNum 22); ("amount", JNum 1)]] in
  let e := mkEnv kitchen_config 1000 (answers [reads "/api/objects/stock" (JArr rows)]) in
  enriched_stock e fresh
  = (Returned (json (JArr []) 200),
     mkState ∅ [GET "https://grocy.internal/api/objects/stock"]).
Proof.
  intros rows e.
  apply (stock_view_without_product_ids e fresh
           (mkResponse 200 [("content-type", "application/json")] (Json (JArr rows))) rows);
    [reflexivity | reflexivity | reflexivity |].
  repeat constructor.
Defined.

Lemma stockRow_fields (pm : gmap string jval) (row o : jval) (e : env) (s s' : state) :
  stockRow pm row e s = (Val o, s') ->
  get "stock_id" o = get "id" row /\
  get "product_id" o = get "product_id" row /\
  get "amount" o = get "amount" row /\
  get "best_before_date" o = coalesce (get "best_before_date" row) JNull /\
  (nullish (at_key pm (get "product_id" row)) = true -> get "product_name" o = JStr "Unknown").
Proof.
  unfold stockRow, bind, prop. destruct (nullish row); [discriminate|].
  unfold ret. intros [= <- _]. repeat split.
  intros Hn. cbn [get lookup_field String.eqb Ascii.eqb Bool.eqb].
  unfold coalesce. rewrite Hn. reflexivity.
Qed.

(** X6.  When the stock view answers 200, the body is an array that is
    either empty or has one row for each of the first 25 entries of the
    stock, in their order and carrying their id, product id, amount and
    best-before date ([null] when the entry has none): a longer stock is cut
    to 25 rows and nothing in the answer says so. *)
Theorem stock_view_rows
  (e : env) (s s' : state) (r a : response) (rows : list jval) :
  upstream e (sent s) (GET (upstreamBase (conf e) ++ "/api/objects/stock")) = Responded r ->
  rbody r = Json (JArr rows) ->
  enriched_stock e s = (Returned a, s') ->
  status a = 200 ->
  exists out,
    a = json (JArr out) 200 /\
    (out = [] \/
     length out = Nat.min 25 (length rows) /\
     Forall2 (fun row o =>
                get "stock_id" o = get "id" row /\
                get "product_id" o = get "product_id" row /\
                get "amount" o = get "amount" row /\
                get "best_before_date" o = coalesce (get "best_before_date" row) JNull)
       (firstn 25 rows) out).
Proof.
  intros Hu Hb H St. unfold enriched_stock in H.
  unfold bind at 1 in H. unfold api at 1, asks at 1 in H.
  rewrite (bind_val _ _ _ _ _ _ (fetch_responded _ r e s Hu)) in H.
  destruct (negb (ok r)); [injection H as <- _; discriminate St|].
  rewrite Hb in H. cbn [json_of] in H.
  unfold bind at 1 in H. unfold ret at 1 in H.
  unfold bind at 1 in H. unfold elems at 1, ret at 1 in H.
  apply bind_inv in H as [H | (ids & s1 & _ & H)].
  { destruct (nr_mapM _ _ (nr_prop "product_id") _ _ _ _ H). }
  destruct (distinct (numbers ids)) as [|n ns].
  { injection H as <- _. exists []. split; [reflexivity | left; reflexivity]. }
  apply bind_inv in H as [H | (products & s2 & _ & H)].
  { unfold try_catch in H. destruct (getCachedProducts e s1) as [[p|r0|x] s3] eqn:G.
    - discriminate H.
    - destruct (nr_getCached _ _ _ _ _ _ _ G).
    - injection H as <- _. discriminate St. }
  apply bind_inv in H as [H | (productMap & s3 & _ & H)].
  { exfalso. revert H. apply nr_bind; [apply nr_elems | intros ps; apply nr_name_by_id]. }
  apply bind_inv in H as [H | (enriched & s4 & Hrows & H)].
  { destruct (nr_mapM _ _ (nr_stockRow productMap) _ _ _ _ H). }
  injection H as <- _. exists enriched. split; [reflexivity|]. right. split.
  - rewrite (mapM_length _ _ _ _ _ _ Hrows), length_take. reflexivity.
  - eapply Forall2_impl; [exact (mapM_Forall2 _ _ _ _ _ _ Hrows)|].
    intros row o [sa [sb Hr]].
    destruct (stockRow_fields _ _ _ _ _ _ Hr) as (H1 & H2 & H3 & H4 & _).
    repeat split; assumption.
Qed.

Lemma stock_view_rows_larder :
  exists out,
    fst (enriched_stock larder fresh) = Returned (json (JArr out) 200) /\
    length out = 4%nat.
Proof.
  destruct (stock_view_rows larder fresh (snd (enriched_stock larder fresh))
              (mkResponse 200 [("content-type", "application/json")] (Json (JArr larder_stock)))
              (match fst (enriched_stock larder fresh) with
               | Returned a => a
               | _ => plain "" 500
               end)
              larder_stock)
    as (out & Ha & [Hout | [Hlen _]]);
    [reflexivity | reflexivity | vm_compute; reflexivity | reflexivity | |].
  - exfalso. rewrite Hout in Ha. vm_compute in Ha. discriminate Ha.
  - exists out. split; [|exact Hlen].
    rewrite <- Ha. vm_compute. reflexivity.
Defined.
(** ** The lines of a batch *)

Lemma answers_answer_every_call (table : list (request * response)) (c : config) (t : Z) :
  Forall (fun row => rbody (snd row) <> Json JNull /\ rbody (snd row) <> Json JUndef) table ->
  answers_every_call (mkEnv c t (answers table)).
Proof.
  intros H history rq. unfold answers. simpl.
  destruct (List.find _ table) as [row|] eqn:F.
  - exists (snd row). split; [reflexivity|].
    apply List.find_some in F as [Hin _].
    rewrite List.Forall_forall in H. exact (H row Hin).
  - eexists. split; [reflexivity|]. split; discriminate.
Qed.

Lemma kitchen_answers_every_call : answers_every_call kitchen.
Proof.
  apply answers_answer_every_call. unfold kitchen_table.
  repeat constructor; discriminate.
Qed.

Lemma answers_stateless (table : list (request * response)) (c : config) (t : Z) :
  stateless (mkEnv c t (answers table)).
Proof. intros h h' rq. reflexivity. Qed.

(** X7.  In front of a backend that answers every call (never with the
    text [null]) and lists its products as an array without [null] entries,
    each with a name and an id that have a text, a batch whose lines are not
    [null] and name their product by a value that has a text is always
    answered, with status 200: one result for each of the first 25 lines,
    under the reference of the line and in the order of the lines, and the
    counts of added and failed lines add up to the total.  A line that
    fails - validation, resolution, details or write - ends with its own
    result, not with the batch. *)
Theorem bulk_answers_every_line
  (req : inbound) (items ps : list jval) (e : env) (s s1 : state) :
  answers_every_call e ->
  get "items" (safeJson req) = JArr items ->
  items <> [] ->
  Forall (fun item => nullish item = false) (firstn 25 items) ->
  Forall (fun item => has_text (get "product" item) = true) (firstn 25 items) ->
  getCachedProducts e s = (Val (JArr ps), s1) ->
  Forall (fun p => nullish p = false) ps ->
  Forall (fun p => in_text p = true) ps ->
  exists results s',
    enriched_stock_add_bulk req e s
    = (Returned
         (json (JObj [("status", JStr "completed");
                      ("summary",
                         JObj [("total", JNum (Z.of_nat (length (firstn 25 items))));
                               ("added", JNum (count_status "added" results));
                               ("errors", JNum (count_status "error" results))]);
                      ("results", JArr results)]) 200), s') /\
    Forall2 (fun item r => get "line" r = get "line" item) (firstn 25 items) results /\
    count_status "added" results + count_status "error" results
    = Z.of_nat (length (firstn 25 items)).
Proof.
  intros Hwb Hi Hne Hitems _ Hp Hps _.
  destruct items as [|x xs]; [destruct Hne; reflexivity|].
  destruct (bulk_lines_answer ps (firstn 25 (x :: xs)) e s1 Hwb Hps Hitems)
    as (results & s' & Hr).
  exists results, s'. split.
  - rewrite (bulk_unfold req x xs e s Hi).
    rewrite (bind_val _ _ _ _ _ _ (try_catch_val _ _ _ _ _ _ Hp)).
    unfold MAX_ITEMS. rewrite (bind_val _ _ _ _ _ _ Hr). reflexivity.
  - exact (bulk_answer_shape _ _ _ _ _ _ Hr).
Qed.

Lemma bulk_answers_every_line_kitchen :
  exists results s',
    enriched_stock_add_bulk
      (bulk_request [line 1 "Milk" 2; line 2 "Dragon Fruit" 1; line 3 "apple" 1]) kitchen fresh
    = (Returned
         (json (JObj [("status", JStr "completed");
                      ("summary",
                         JObj [("total", JNum 3);
                               ("added", JNum (count_status "added" results));
                               ("errors", JNum (count_status "error" results))]);
                      ("results", JArr results)]) 200), s') /\
    count_status "added" results + count_status "error" results = 3.
Proof.
  destruct (bulk_answers_every_line
              (bulk_request [line 1 "Milk" 2; line 2 "Dragon Fruit" 1; line 3 "apple" 1])
              [line 1 "Milk" 2; line 2 "Dragon Fruit" 1; line 3 "apple" 1]
              pantry kitchen fresh (snd (getCachedProducts kitchen fresh)))
    as (results & s' & Ha & _ & Hc).
  - exact kitchen_answers_every_call.
  - reflexivity.
  - discriminate.
  - repeat constructor.
  - repeat constructor.
  - vm_compute. reflexivity.
  - repeat constructor.
  - repeat constructor.
  - exists results, s'. split; [exact Ha | exact Hc].
Defined.

(** X8.  In front of a backend that answers a call the same whatever was
    sent before, each result of an answered batch is the result its line
    gets when it is processed alone, from an empty cache and with nothing
    sent: no other line of the batch, failed or not, has a part in it. *)
Theorem bulk_results_are_those_of_single_lines
  (req : inbound) (items : list jval) (products : jval) (e : env) (s s1 s' : state)
  (a : response) :
  stateless e ->
  get "items" (safeJson req) = JArr items ->
  getCachedProducts e s = (Val products, s1) ->
  enriched_stock_add_bulk req e s = (Returned a, s') ->
  status a = 200 ->
  exists results,
    a = json (JObj [("status", JStr "completed");
                    ("summary",
                       JObj [("total", JNum (Z.of_nat (length (firstn 25 items))));
                             ("added", JNum (count_status "added" results));
                             ("errors", JNum (count_status "error" results))]);
                    ("results", JArr results)]) 200 /\
    Forall2 (fun item r => fst (bulk_line products item e fresh) = Val r)
      (firstn 25 items) results.
Proof.
  intros He Hi Hp H St.
  destruct items as [|x xs].
  { unfold enriched_stock_add_bulk in H. cbv zeta in H. rewrite Hi in H.
    destruct (negb (truthy (safeJson req))); injection H as <- _; discriminate St. }
  rewrite (bulk_unfold req x xs e s Hi) in H.
  rewrite (bind_val _ _ _ _ _ _ (try_catch_val _ _ _ _ _ _ Hp)) in H.
  apply bind_inv in H as [H | (results & s2 & Hr & H)].
  { destruct (nr_mapM _ _ (nr_bulk_line products) _ _ _ _ H). }
  injection H as <- _. exists results. split; [reflexivity|].
  exact (bulk_lines_independent products _ results e s1 s2 He Hr).
Qed.

Lemma bulk_results_are_those_of_single_lines_kitchen :
  let items := [line 1 "Milk" 2; line 2 "Dragon Fruit" 1] in
  exists results,
    Forall2 (fun item r => fst (bulk_line (JArr pantry) item kitchen fresh) = Val r)
      items results /\
    length results = 2%nat.
Proof.
  intros items.
  destruct (bulk_results_are_those_of_single_lines (bulk_request items) items (JArr pantry)
              kitchen fresh (snd (getCachedProducts kitchen fresh))
              (snd (enriched_stock_add_bulk (bulk_request items) kitchen fresh))
              (match fst (enriched_stock_add_bulk (bulk_request items) kitchen fresh) with
               | Returned a => a
               | _ => plain "" 500
               end))
    as (results & _ & Hr).
  - apply answers_stateless.
  - reflexivity.
  - vm_compute. reflexivity.
  - vm_compute. reflexivity.
  - reflexivity.
  - exists results. split; [exact Hr|].
    symmetry. exact (Forall2_length _ _ _ Hr).
Defined.

Lemma writes_sent (c : gmap string cache_entry) (l : list request) (rq : request) :
  writes (mkState c (l ++ [rq]))
  = (writes (mkState c l) ++ (if is_write rq then [rq] else []))%list.
Proof.
  unfold writes. simpl. rewrite List.filter_app. simpl.
  destruct (is_write rq); reflexivity.
Qed.

(** X9.  The write calls of one line of a batch, read off its result.  A
    line reported as an error issued no write, unless the error is
    [add_failed], where the stock write - and nothing else - reached the
    backend and was refused.  A line reported as added issued the stock
    write for the product of the result, with the amount and date of the
    line, and after it the price write exactly when the price of the line is
    a number. *)
Theorem bulk_line_writes (products item r : jval) (e : env) (s s' : state) :
  bulk_line products item e s = (Val r, s') ->
  let productId := get "id" (get "product" r) in
  let addUrl := upstreamBase (conf e) ++ "/api/objects/products/" ++ js_String productId
                ++ "/add" in
  let pricesUrl := upstreamBase (conf e) ++ "/api/objects/product_prices" in
  (get "status" r = JStr "error" -> get "error" r <> JStr "add_failed" ->
     writes s' = writes s) /\
  (get "status" r = JStr "added" ->
     exists quId storeId,
       writes s'
       = (writes s
          ++ POST addUrl (JObj [("amount", get "amount" item);
                                ("best_before_date", get "best_before_date" item);
                                ("qu_id", quId)])
          :: (if is_number (get "price" item)
              then [POST pricesUrl (JObj [("product_id", productId);
                                          ("price", get "price" item);
                                          ("store_id", storeId)])]
              else []))%list).
Proof.
  cbv zeta. unfold bulk_line. unfold bind at 1. unfold prop at 1.
  destruct (nullish item); [intros H; discriminate H|]. unfold ret at 1.
  destruct (negb (truthy (get "product" item)) || negb (is_number (get "amount" item))).
  { intros [= <- <-]. split; [reflexivity | intros [=]]. }
  unfold bind at 1.
  destruct (resolveProductFuzzy products (get "product" item) e s)
    as [[[found|n|ms]|r0|x] s1] eqn:R; try discriminate.
  2,3: intros [= <- <-]; pose proof (ro_resolveProductFuzzy _ _ _ _ _ _ R) as W;
       split; [intros _ _; exact W | intros [=]].
  pose proof (ro_resolveProductFuzzy _ _ _ _ _ _ R) as W. rewrite <- W. clear W R.
  unfold json_of. unfold bind, prop, try_catch, fetch, fetch_detached, api, asks, ret, throw.
  destruct s1 as [c l]. cbn [cache sent].
  intros H.
  repeat match type of H with
         | context [match upstream e ?h ?rq with _ => _ end] =>
             destruct (upstream e h rq); try discriminate H
         | context [if negb (ok ?x) then _ else _] => destruct (negb (ok x))
         | context [match rbody ?x with _ => _ end] => destruct (rbody x)
         | context [if nullish ?x then _ else _] => destruct (nullish x); try discriminate H
         end;
    try (injection H as <- <-; rewrite !writes_sent; cbn [is_write rq_method GET POST String.eqb Ascii.eqb Bool.eqb];
         split; [intros _ N; first [rewrite !List.app_nil_r; reflexivity | destruct N; reflexivity]
                | intros [=]]).
  destruct (is_number (get "price" item)) eqn:P; injection H as <- <-;
    rewrite !writes_sent;
    cbn [is_write rq_method GET POST String.eqb Ascii.eqb Bool.eqb];
    (split; [intros [=]|]); intros _; eexists; eexists.
  all: first [ exact JNull
             | rewrite ?List.app_nil_r, <- ?List.app_assoc; reflexivity ].
Qed.

Lemma bulk_line_writes_kitchen :
  let item := JObj [("line", JNum 1); ("product", JStr "Milk"); ("amount", JNum 2);
                    ("price", JNum 3)] in
  exists quId storeId,
    writes (snd (bulk_line (JArr pantry) item kitchen fresh))
    = [POST "https://grocy.internal/api/objects/products/1/add"
         (JObj [("amount", JNum 2); ("best_before_date", JUndef); ("qu_id", quId)]);
       POST "https://grocy.internal/api/objects/product_prices"
         (JObj [("product_id", JNum 1); ("price", JNum 3); ("store_id", storeId)])].
Proof.
  intros item.
  destruct (bulk_line_writes (JArr pantry) item
              (match fst (bulk_line (JArr pantry) item kitchen fresh) with
               | Val r => r
               | _ => JNull
               end)
              kitchen fresh (snd (bulk_line (JArr pantry) item kitchen fresh)))
    as [_ Added]; [vm_compute; reflexivity|].
  destruct (Added eq_refl) as (quId & storeId & W).
  exists quId, storeId. exact W.
Defined.
(** ** The cache from one request to the next *)

Lemma cacheGetJson_hit (key : string) (fetcher : M response) (ttl : Z) (e : env) (s : state)
  (p : payload) :
  served e s key = Some p -> cacheGetJson key fetcher ttl e s = (parsed p, s).
Proof.
  intros H. unfold cacheGetJson, bind, cache_match. fold (served e s key). rewrite H.
  apply json_of_parsed.
Qed.

Lemma cacheGetJson_miss (key : string) (fetcher : M response) (ttl : Z) (e : env) (s s0 : state)
  (r : response) :
  served e s key = None -> fetcher e s = (Val r, s0) ->
  cacheGetJson key fetcher ttl e s
  = if ok r then (parsed (rbody r), stored_in e s0 key (rbody r) ttl) else (Val JNull, s0).
Proof.
  intros H F. unfold cacheGetJson, bind, cache_match. fold (served e s key). rewrite H, F.
  destruct (ok r); [|reflexivity]. simpl. rewrite json_of_parsed. reflexivity.
Qed.

(** X10.  Two reads of a key through [cacheGetJson], the first at the time
    of [e], a miss answered with a success [r], the second at the time of
    [e'].  The first read returns the parsed body of [r].  A second read that
    comes before the entry expires returns the same without running its
    fetcher and leaves the state as it is; one that comes at or after the
    expiry runs its fetcher again, and stores and returns what it answers. *)
Theorem cached_answer_is_reused
  (key : string) (fetcher fetcher' : M response) (ttl ttl' : Z) (e e' : env) (s s0 : state)
  (r : response) :
  served e s key = None ->
  fetcher e s = (Val r, s0) ->
  ok r = true ->
  exists s1,
    cacheGetJson key fetcher ttl e s = (parsed (rbody r), s1) /\
    (now e' < now e + ttl ->
       cacheGetJson key fetcher' ttl' e' s1 = (parsed (rbody r), s1)) /\
    (now e + ttl <= now e' ->
       forall r' s2, fetcher' e' s1 = (Val r', s2) -> ok r' = true ->
         cacheGetJson key fetcher' ttl' e' s1
         = (parsed (rbody r'), stored_in e' s2 key (rbody r') ttl')).
Proof.
  intros Hs Hf Hok. exists (stored_in e s0 key (rbody r) ttl).
  pose proof (stored_entry_served_until_expiry e e' s0 key (rbody r) ttl) as T.
  split; [|split].
  - rewrite (cacheGetJson_miss key fetcher ttl e s s0 r Hs Hf), Hok. reflexivity.
  - intros Hlt. apply cacheGetJson_hit. rewrite T.
    destruct (now e' <? now e + ttl) eqn:C; [reflexivity|]. apply Z.ltb_ge in C. lia.
  - intros Hge r' s2 Hf' Hok'.
    rewrite (cacheGetJson_miss key fetcher' ttl' e' _ s2 r'); [rewrite Hok'; reflexivity| |exact Hf'].
    rewrite T. destruct (now e' <? now e + ttl) eqn:C; [|reflexivity]. apply Z.ltb_lt in C. lia.
Qed.

Lemma cached_answer_is_reused_kitchen :
  let key := "https://cache.local/v1.1/grocy/products" in
  let products := fetch (GET "https://grocy.internal/api/objects/products") in
  let later := mkEnv kitchen_config 1059 (answers []) in
  exists s1,
    cacheGetJson key products 60 kitchen fresh = (Val (JArr pantry), s1) /\
    cacheGetJson key products 60 later s1 = (Val (JArr pantry), s1).
Proof.
  intros key products later.
  destruct (cached_answer_is_reused key products products 60 60 kitchen later fresh
              (mkState ∅ [GET "https://grocy.internal/api/objects/products"])
              (mkResponse 200 [("content-type", "application/json")] (Json (JArr pantry))))
    as (s1 & First & Second & _); [reflexivity | reflexivity | reflexivity |].
  exists s1. split; [exact First|]. apply Second. simpl. lia.
Defined.

Lemma getCached_unfold (d p f : string) (e : env) (s : state) :
  getCached d p f e s
  = bind (cacheGetJson ("https://cache.local/" ++ CACHE_VERSION (conf e) ++ "/grocy/" ++ d)
            (fetch (GET (upstreamBase (conf e) ++ p))) (CACHE_DURATION (conf e)))
      (fun data => if negb (truthy data) then throw (Error f) else ret data) e s.
Proof. reflexivity. Qed.

(** What reading a stored text gives to [getCached]: an exception, for a
    text that is not JSON or is a falsy value. *)
Lemma unreadable_throws (text : payload) (f : string) :
  (forall v, text = Json v -> truthy v = false) ->
  exists x, forall (e : env) (s : state),
    bind (fun _ s0 => (parsed text, s0))
      (fun data => if negb (truthy data) then throw (Error f) else ret data) e s
    = (@Thrown jval x, s).
Proof.
  intros H. destruct text as [v|t].
  - exists (Error f). intros e s. unfold bind. simpl. rewrite (H v eq_refl). reflexivity.
  - exists SyntaxError. intros e s. reflexivity.
Qed.

(** X11.  A successful answer of the backend to the read of the product
    set that cannot be used - a text that is not JSON, such as a login page
    served with status 200, or a falsy JSON value such as [null] - is stored
    in the cache all the same.  The request at hand is answered 502, and so
    is every valid stock-add request that comes before the entry expires,
    without any call to the backend and whatever the backend would answer by
    then. *)
Theorem unreadable_products_answer_is_cached
  (req req' : inbound) (e e' : env) (s : state) (r : response) :
  let rq := GET (upstreamBase (conf e) ++ "/api/objects/products") in
  served e s (products_key (conf e)) = None ->
  upstream e (sent s) rq = Responded r ->
  ok r = true ->
  (forall v, rbody r = Json v -> truthy v = false) ->
  conf e' = conf e ->
  now e' < now e + CACHE_DURATION (conf e) ->
  truthy (get "product" (safeJson req)) = true ->
  is_number (get "amount" (safeJson req)) = true ->
  truthy (get "product" (safeJson req')) = true ->
  is_number (get "amount" (safeJson req')) = true ->
  exists s1,
    enriched_stock_add req e s = (Returned (plain "Failed to fetch products" 502), s1) /\
    sent s1 = (sent s ++ [rq])%list /\
    enriched_stock_add req' e' s1 = (Returned (plain "Failed to fetch products" 502), s1).
Proof.
  intros rq Hs Hu Hok Hbad Hconf Hnow Hp Ha Hp' Ha'.
  set (s0 := mkState (cache s) (sent s ++ [rq])).
  exists (stored_in e s0 (products_key (conf e)) (rbody r) (CACHE_DURATION (conf e))).
  destruct (unreadable_throws (rbody r) "Failed to fetch products" Hbad) as [x Hx].
  assert (First : getCachedProducts e s
                  = (Thrown x, stored_in e s0 (products_key (conf e)) (rbody r)
                                 (CACHE_DURATION (conf e)))).
  { unfold getCachedProducts. rewrite getCached_unfold. fold (products_key (conf e)). fold rq.
    pose proof (cacheGetJson_miss (products_key (conf e)) (fetch rq) (CACHE_DURATION (conf e))
                  e s s0 r Hs (fetch_responded rq r e s Hu)) as C.
    rewrite Hok in C. unfold bind. rewrite C.
    specialize (Hx e (stored_in e s0 (products_key (conf e)) (rbody r)
                        (CACHE_DURATION (conf e)))).
    unfold bind in Hx. exact Hx. }
  assert (Second : forall st, st = stored_in e s0 (products_key (conf e)) (rbody r)
                                     (CACHE_DURATION (conf e)) ->
                     getCachedProducts e' st = (Thrown x, st)).
  { intros st ->. unfold getCachedProducts. rewrite getCached_unfold. rewrite Hconf.
    fold (products_key (conf e)).
    assert (Hit : served e' (stored_in e s0 (products_key (conf e)) (rbody r)
                               (CACHE_DURATION (conf e))) (products_key (conf e))
                  = Some (rbody r)).
    { rewrite stored_entry_served_until_expiry.
      destruct (now e' <? now e + CACHE_DURATION (conf e)) eqn:C; [reflexivity|].
      apply Z.ltb_ge in C. lia. }
    unfold bind. rewrite (cacheGetJson_hit _ _ _ _ _ _ Hit).
    specialize (Hx e' (stored_in e s0 (products_key (conf e)) (rbody r)
                         (CACHE_DURATION (conf e)))).
    unfold bind in Hx. exact Hx. }
  assert (Tb : forall q, truthy (get "product" (safeJson q)) = true -> truthy (safeJson q) = true).
  { intros q H. destruct (safeJson q); simpl in H |- *; congruence. }
  assert (Handler : forall q env0 st st',
            truthy (get "product" (safeJson q)) = true ->
            is_number (get "amount" (safeJson q)) = true ->
            getCachedProducts env0 st = (Thrown x, st') ->
            enriched_stock_add q env0 st
            = (Returned (plain "Failed to fetch products" 502), st')).
  { intros q env0 st st' H1 H2 G. unfold enriched_stock_add. cbv zeta.
    rewrite (Tb q H1), H1, H2. cbn [negb orb].
    unfold bind, try_catch. rewrite G. reflexivity. }
  split; [|split].
  - exact (Handler req e s _ Hp Ha First).
  - reflexivity.
  - exact (Handler req' e' _ _ Hp' Ha' (Second _ eq_refl)).
Qed.

Lemma unreadable_products_answer_is_cached_kitchen :
  let login := mkEnv kitchen_config 1000
                 (answers [(GET "https://grocy.internal/api/objects/products",
                            mkResponse 200 [("content-type", "text/html")]
                              (Text "<html>Sign in</html>"))]) in
  let later := mkEnv kitchen_config 20000 (answers kitchen_table) in
  let req := stock_add_request (JObj [("product", JStr "milk"); ("amount", JNum 2)]) in
  exists s1,
    enriched_stock_add req login fresh = (Returned (plain "Failed to fetch products" 502), s1) /\
    enriched_stock_add req later s1 = (Returned (plain "Failed to fetch products" 502), s1).
Proof.
  intros login later req.
  destruct (unreadable_products_answer_is_cached req req login later fresh
              (mkResponse 200 [("content-type", "text/html")] (Text "<html>Sign in</html>")))
    as (s1 & First & _ & Second);
    [reflexivity | reflexivity | reflexivity | discriminate | reflexivity | simpl; lia
    | reflexivity | reflexivity | reflexivity | reflexivity |].
  exists s1. split; [exact First | exact Second].
Defined.
(** ** Product creation and the cached product set *)

Section AfterSuccess.
Context {A B : Type} (Q : env -> state -> Prop).

Lemma as_never_returns (m : M A) : never_returns m -> after_success Q m.
Proof. intros H e s r s' E. destruct (H e s r s' E). Qed.

Lemma as_bind (m : M A) (k : A -> M B) :
  after_success Q m -> (forall a, after_success Q (k a)) -> after_success Q (bind m k).
Proof.
  intros Hm Hk e s r s' H. unfold bind in H.
  destruct (m e s) as [[a|r0|x] s1] eqn:E.
  - exact (Hk a e s1 r s' H).
  - injection H as <- <-. exact (Hm e s r0 s1 E).
  - discriminate H.
Qed.

Lemma as_try_catch (m : M A) (h : exn -> M A) :
  after_success Q m -> (forall x, after_success Q (h x)) -> after_success Q (try_catch m h).
Proof.
  intros Hm Hh e s r s' H. unfold try_catch in H.
  destruct (m e s) as [[a|r0|x] s1] eqn:E.
  - discriminate H.
  - injection H as <- <-. exact (Hm e s r0 s1 E).
  - exact (Hh x e s1 r s' H).
Qed.

Lemma as_Return (r : response) : status r <> 200 -> after_success Q (@Return A r).
Proof. intros H e s r0 s' [= <- <-] St. destruct (H St). Qed.

End AfterSuccess.

Lemma as_check_units (Q : env -> state -> Prop) (l : list (string * jval)) :
  after_success Q (check_units l).
Proof.
  induction l as [|[key unit] l IH]; simpl; [apply as_never_returns, nr_ret|].
  destruct (negb (truthy unit)); [apply as_Return; discriminate | exact IH].
Qed.

Lemma as_invalidate {A} (r : response) :
  after_success (fun e s => cache s !! products_key (conf e) = None)
    (productsKey <- cache_key "products" ;; cache_delete productsKey ;; @Return A r).
Proof.
  intros e s r0 s' H _. unfold bind, cache_key, asks, cache_delete, Return in H.
  injection H as _ <-. simpl. apply lookup_delete_eq.
Qed.

Ltac after_success :=
  repeat first
    [ apply as_invalidate
    | apply as_Return; discriminate
    | apply as_check_units
    | apply as_never_returns;
      first [ apply nr_getCached | apply nr_find_by_name | apply nr_cachedCollection
            | apply nr_resolvedUnits | apply nr_attachImage
            | apply nr_js_some; intro; solve [never_returns]
            | solve [never_returns] ]
    | apply as_try_catch; [|intro]
    | apply as_bind; [|intro]
    | match goal with
      | |- after_success _ (if ?b then _ else _) => destruct b
      | |- after_success _ (match ?x with _ => _ end) => destruct x
      end ].

Lemma create_deletes_products (req : inbound) :
  after_success (fun e s => cache s !! products_key (conf e) = None)
    (enriched_products_create req).
Proof.
  unfold enriched_products_create, getCachedProducts, cachedLocations, cachedQuantityUnits.
  cbv zeta. after_success.
Qed.

Lemma getCached_asks_on_miss (d p f : string) (e : env) (s s' : state) (out : result jval) :
  cache s !! ("https://cache.local/" ++ CACHE_VERSION (conf e) ++ "/grocy/" ++ d) = None ->
  getCached d p f e s = (out, s') ->
  sent s' = (sent s ++ [GET (upstreamBase (conf e) ++ p)])%list.
Proof.
  intros Hc. rewrite getCached_unfold.
  unfold bind, cacheGetJson, bind, cache_match. rewrite Hc.
  unfold fetch. destruct (upstream e (sent s) _) as [r|msg]; [|intros [= _ <-]; reflexivity].
  destruct (negb (ok r)).
  - simpl. destruct (negb (truthy JNull)); intros [= _ <-]; reflexivity.
  - unfold cache_put. destruct (rbody r) as [v|t]; simpl.
    + destruct (negb (truthy v)); intros [= _ <-]; reflexivity.
    + intros [= _ <-]. reflexivity.
Qed.

(** X12.  After a product creation answered 200 the cache holds no entry
    for the product set, so that the next read of the product set - by a
    request under the same cache version, at any time - asks the backend:
    its first call is the read of the products. *)
Theorem creation_invalidates_products
  (req : inbound) (e e' : env) (s s' s'' : state) (r : response) (out : result jval) :
  enriched_products_create req e s = (Returned r, s') ->
  status r = 200 ->
  CACHE_VERSION (conf e') = CACHE_VERSION (conf e) ->
  getCachedProducts e' s' = (out, s'') ->
  cache s' !! products_key (conf e) = None /\
  sent s'' = (sent s' ++ [GET (upstreamBase (conf e') ++ "/api/objects/products")])%list.
Proof.
  intros H St Hv G.
  pose proof (create_deletes_products req e s r s' H St) as D. cbv beta in D.
  split; [exact D|].
  apply (getCached_asks_on_miss "products" "/api/objects/products" "Failed to fetch products"
           e' s' s'' out); [|exact G].
  rewrite Hv. exact D.
Qed.

Lemma creation_invalidates_products_kitchen :
  let req := post "/api/enriched/products/create" (JObj [("name", JStr "Oat Drink")]) in
  let s' := snd (enriched_products_create req kitchen fresh) in
  cache s' !! products_key kitchen_config = None /\
  sent (snd (getCachedProducts kitchen s'))
  = (sent s' ++ [GET "https://grocy.internal/api/objects/products"])%list.
Proof.
  intros req s'.
  apply (creation_invalidates_products req kitchen kitchen fresh s'
           (snd (getCachedProducts kitchen s'))
           (match fst (enriched_products_create req kitchen fresh) with
            | Returned r => r
            | _ => plain "" 500
            end)
           (fst (getCachedProducts kitchen s')));
    [vm_compute; reflexivity | reflexivity | reflexivity | vm_compute; reflexivity].
Defined.
(** ** Which product a name resolves to *)

Section Substrings.
Import JsString.

Lemma startsWith_prefix (s q : string) :
  startsWith s q = true <-> exists b, s = q ++ b.
Proof.
  revert s. induction q as [|c q IH]; intros s.
  - destruct s; simpl; split; eauto.
  - destruct s as [|a s]; simpl.
    + split; [discriminate | intros [b Hb]; discriminate Hb].
    + rewrite andb_true_iff, IH. split.
      * intros [Hc [b ->]]. apply Ascii.eqb_eq in Hc as ->. exists b. reflexivity.
      * intros [b [= -> ->]]. split; [apply Ascii.eqb_refl | exists b; reflexivity].
Qed.

Lemma includes_occurs (s q : string) :
  includes s q = true <-> occurs_in q s.
Proof.
  unfold occurs_in. induction s as [|c s IH].
  - change (includes "" q) with (startsWith "" q || false).
    rewrite orb_false_r, startsWith_prefix. split.
    + intros [b Hb]. exists "", b. exact Hb.
    + intros [a [b H]]. destruct a as [|x a]; [exists b; exact H | discriminate H].
  - change (includes (String c s) q) with (startsWith (String c s) q || includes s q).
    rewrite orb_true_iff, startsWith_prefix, IH. split.
    + intros [[b Hb] | [a [b Hab]]].
      * exists "", b. exact Hb.
      * exists (String c a), b. simpl. rewrite Hab. reflexivity.
    + intros [[|x a] [b H]].
      * left. exists b. exact H.
      * right. simpl in H. injection H as _ ->. exists a, b. reflexivity.
Qed.

Lemma startsWith_includes (s q : string) : startsWith s q = true -> includes s q = true.
Proof.
  intros H. destruct s as [|c s].
  - change (includes "" q) with (startsWith "" q || false). rewrite H. reflexivity.
  - change (includes (String c s) q) with (startsWith (String c s) q || includes s q).
    rewrite H. reflexivity.
Qed.

Lemma eqb_startsWith (s q : string) : String.eqb s q = true -> startsWith s q = true.
Proof.
  intros H. apply String.eqb_eq in H as ->. apply startsWith_prefix.
  exists "". clear. induction q as [|c q IH]; [reflexivity|].
  change (String c q ++ "") with (String c (q ++ "")). f_equal. exact IH.
Qed.

End Substrings.

Lemma scoreProduct_positive (name query : string) :
  (0 <? scoreProduct name query) = JsString.includes name query.
Proof.
  unfold scoreProduct.
  destruct (String.eqb name query) eqn:E.
  - rewrite (startsWith_includes _ _ (eqb_startsWith _ _ E)). reflexivity.
  - destruct (JsString.startsWith name query) eqn:P.
    + rewrite (startsWith_includes _ _ P). reflexivity.
    + destruct (JsString.includes name query); reflexivity.
Qed.

Lemma scoreProduct_exact (name query : string) :
  (scoreProduct name query =? 100) = String.eqb name query.
Proof.
  unfold scoreProduct.
  destruct (String.eqb name query), (JsString.startsWith name query),
    (JsString.includes name query); reflexivity.
Qed.

Lemma candidate_exact (query : string) (p : jval) :
  (m_score (candidate query p) =? 100) = exact_match query p.
Proof.
  unfold candidate, exact_match. simpl.
  destruct (truthy (get "name" p)); [apply scoreProduct_exact | reflexivity].
Qed.

Lemma candidate_positive (query : string) (p : jval) :
  (0 <? m_score (candidate query p))
  = has_name p && JsString.includes (normalize (get "name" p)) query.
Proof.
  unfold candidate, has_name. simpl.
  destruct (truthy (get "name" p)); [apply scoreProduct_positive | reflexivity].
Qed.

Lemma with_score_map_candidate (query : string) (ps : list jval) :
  with_score 100 (map (candidate query) ps)
  = map (candidate query) (List.filter (exact_match query) ps).
Proof.
  unfold with_score. induction ps as [|p ps IH]; [reflexivity|].
  cbn [map List.filter]. rewrite candidate_exact.
  destruct (exact_match query p); cbn [map]; rewrite IH; reflexivity.
Qed.

Lemma with_score_positives (k : Z) (l : list scored) :
  0 < k -> with_score k (positives l) = with_score k l.
Proof.
  intros Hk. unfold with_score, positives. induction l as [|x l IH]; [reflexivity|].
  simpl. destruct (0 <? m_score x) eqn:P; simpl; rewrite IH; [reflexivity|].
  destruct (m_score x =? k) eqn:E; [|reflexivity].
  apply Z.eqb_eq in E. apply Z.ltb_ge in P. lia.
Qed.

Lemma sorted_head_with_score (k : Z) (l : list scored) (x : scored) (xs : list scored) :
  StronglySorted ge_score l ->
  Forall (fun m => m_score m <= k) l ->
  with_score k l = x :: xs ->
  exists l', l = x :: l'.
Proof.
  intros S B W. destruct l as [|y l]; [discriminate W|].
  unfold with_score in W. simpl in W.
  destruct (m_score y =? k) eqn:E.
  - injection W as -> _. exists l. reflexivity.
  - exfalso. apply Z.eqb_neq in E.
    apply StronglySorted_inv in S as [_ F].
    apply Forall_inv in B as By.
    assert (N : List.filter (fun m => m_score m =? k) l = []).
    { clear W B. induction F as [|z l Hz _ IH]; [reflexivity|].
      simpl. unfold ge_score in Hz.
      destruct (m_score z =? k) eqn:Ez; [apply Z.eqb_eq in Ez; lia | exact IH]. }
    rewrite N in W. discriminate W.
Qed.

Lemma find_filter_head {A} (P : A -> bool) (l : list A) (x : A) :
  List.find P l = Some x -> exists xs, List.filter P l = x :: xs.
Proof.
  induction l as [|y l IH]; simpl; [discriminate|].
  destruct (P y); [intros [= ->]; eauto | exact IH].
Qed.

(** X13.  When some product of the set has a name that is the query after
    normalisation, [resolveProductFuzzy] resolves to the first such product
    in the order of the set, with score 100: a second product of the same
    normalised name, or any number of products that merely contain the
    query, changes nothing. *)
Theorem resolve_first_exact_match
  (ps : list jval) (productName p : jval) (e : env) (s : state) :
  Forall (fun p => nullish p = false) ps ->
  List.find (exact_match (normalize productName)) ps = Some p ->
  resolveProductFuzzy (JArr ps) productName e s
  = (Val (Resolved (mkScored (get "id" p) (get "name" p) 100)), s).
Proof.
  intros Hps Hfind.
  rewrite (resolveProductFuzzy_objects ps productName e s Hps).
  set (q := normalize productName) in *.
  set (cands := map (candidate q) ps).
  destruct (find_filter_head _ _ _ Hfind) as [xs Hxs].
  assert (W : with_score 100 (sort_by by_score_desc (positives cands))
              = candidate q p :: map (candidate q) xs).
  { rewrite sort_with_score, with_score_positives by lia.
    unfold cands. rewrite with_score_map_candidate, Hxs. reflexivity. }
  assert (B : Forall (fun m => m_score m <= 100) (sort_by by_score_desc (positives cands))).
  { eapply Permutation_Forall; [symmetry; apply sort_perm|].
    apply List.Forall_forall. intros m Hm. apply filter_In in Hm as [Hm _].
    apply in_map_iff in Hm as [p' [<- _]].
    pose proof (candidate_score q p') as V. cbv zeta in V. lia. }
  destruct (sorted_head_with_score 100 _ _ _ (sort_sorted (positives cands)) B W) as [l' Hl'].
  assert (E : exact_match q p = true).
  { apply List.find_some in Hfind as [_ H]. exact H. }
  assert (C : candidate q p = mkScored (get "id" p) (get "name" p) 100).
  { pose proof (candidate_exact q p) as X. rewrite E in X. apply Z.eqb_eq in X.
    unfold candidate in *. simpl in X. rewrite X. reflexivity. }
  unfold best. fold (positives cands). rewrite Hl', C. simpl.
  rewrite andb_false_r. reflexivity.
Qed.

Lemma resolve_first_exact_match_kitchen :
  resolveProductFuzzy
    (JArr [named 5 "Oat Milk"; named 1 "Milk"; named 2 "Milk Substitute"; named 6 "MILK!"])
    (JStr " milk ") kitchen fresh
  = (Val (Resolved (mkScored (JNum 1) (JStr "Milk") 100)), fresh).
Proof.
  apply (resolve_first_exact_match
           [named 5 "Oat Milk"; named 1 "Milk"; named 2 "Milk Substitute"; named 6 "MILK!"]
           (JStr " milk ") (named 1 "Milk") kitchen fresh);
    [repeat constructor | vm_compute; reflexivity].
Defined.

Lemma decision_not_found (productName : jval) (kept : list scored) :
  decision productName kept = NotFound productName <-> kept = [].
Proof.
  split; [|intros ->; reflexivity].
  destruct kept as [|top rest]; [reflexivity|]. simpl.
  destruct ((1 <? S (length rest))%nat && (m_score top <? 100)); discriminate.
Qed.

Lemma best_nil (n : nat) (l : list scored) :
  best (S n) l = [] <-> positives l = [].
Proof.
  unfold best. fold (positives l). split.
  - intros H. destruct (sort_by by_score_desc (positives l)) as [|x xs] eqn:E;
      [|discriminate H].
    apply Permutation_nil. rewrite <- E. apply sort_perm.
  - intros ->. reflexivity.
Qed.

(** X14.  [resolveProductFuzzy] answers [product_not_found] exactly when
    the normalised query occurs in the normalised name of no named product
    of the set: any product whose name contains the query, at any place,
    keeps the answer from being not-found. *)
Theorem resolve_not_found_iff
  (ps : list jval) (productName : jval) (e : env) (s : state) :
  Forall (fun p => nullish p = false) ps ->
  resolveProductFuzzy (JArr ps) productName e s = (Val (NotFound productName), s)
  <-> forall p, In p ps -> has_name p = true ->
        ~ occurs_in (normalize productName) (normalize (get "name" p)).
Proof.
  intros Hps. rewrite (resolveProductFuzzy_objects ps productName e s Hps).
  set (q := normalize productName).
  split.
  - intros [= H]. apply decision_not_found, best_nil in H.
    intros p Hin Hname Hocc. apply includes_occurs in Hocc.
    assert (Hc : In (candidate q p) (positives (map (candidate q) ps))).
    { apply filter_In. split; [apply in_map, Hin|].
      rewrite candidate_positive, Hname, Hocc. reflexivity. }
    rewrite H in Hc. destruct Hc.
  - intros H. f_equal. f_equal. apply decision_not_found, best_nil.
    unfold positives. induction ps as [|p ps IH]; [reflexivity|].
    cbn [map List.filter]. rewrite candidate_positive.
    destruct (has_name p && JsString.includes (normalize (get "name" p)) q) eqn:C.
    + apply andb_prop in C as [Hn Hi]. apply includes_occurs in Hi.
      destruct (H p (or_introl eq_refl) Hn Hi).
    + apply IH; [exact (Forall_inv_tail Hps)|].
      intros p' Hin. apply H. right. exact Hin.
Qed.

Lemma resolve_not_found_iff_pantry :
  Forall (fun p => nullish p = false) pantry /\
  (resolveProductFuzzy (JArr pantry) (JStr "xyz123") kitchen fresh
   = (Val (NotFound (JStr "xyz123")), fresh)
   <-> forall p, In p pantry -> has_name p = true ->
         ~ occurs_in (normalize (JStr "xyz123")) (normalize (get "name" p))).
Proof.
  assert (H : Forall (fun p => nullish p = false) pantry) by repeat constructor.
  split; [exact H|].
  exact (resolve_not_found_iff pantry (JStr "xyz123") kitchen fresh H).
Defined.

Lemma sort_by_same_score (k : Z) (l : list scored) :
  Forall (fun m => m_score m = k) l -> sort_by by_score_desc l = l.
Proof.
  induction 1 as [|x l Hx F IH]; [reflexivity|].
  simpl. rewrite IH. destruct F as [|y l Hy _]; [reflexivity|].
  simpl. unfold by_score_desc. rewrite Hx, Hy, Z.sub_diag. reflexivity.
Qed.

Lemma positives_blank_query (ps : list jval) :
  Forall (fun p => has_name p = true -> normalize (get "name" p) <> "") ps ->
  positives (map (candidate "") ps)
  = map (fun p => mkScored (get "id" p) (get "name" p) 60) (List.filter has_name ps).
Proof.
  unfold positives. induction 1 as [|p ps Hp _ IH]; [reflexivity|].
  cbn [map List.filter]. rewrite candidate_positive.
  unfold has_name in *. destruct (truthy (get "name" p)) eqn:T; cbn [andb].
  - assert (S60 : scoreProduct (normalize (get "name" p)) "" = 60).
    { unfold scoreProduct. destruct (String.eqb _ "") eqn:E.
      - apply String.eqb_eq in E. destruct (Hp eq_refl E).
      - destruct (normalize (get "name" p)); reflexivity. }
    assert (I : JsString.includes (normalize (get "name" p)) "" = true).
    { rewrite <- scoreProduct_positive, S60. reflexivity. }
    rewrite I. cbn [map]. rewrite IH. unfold candidate. rewrite T, S60. reflexivity.
  - exact IH.
Qed.

Lemma best_starts_with_exact (q : string) (ps : list jval) (p : jval) (n : nat) :
  List.find (exact_match q) ps = Some p ->
  exists rest,
    best (S n) (map (candidate q) ps) = mkScored (get "id" p) (get "name" p) 100 :: rest.
Proof.
  intros Hfind. set (cands := map (candidate q) ps).
  destruct (find_filter_head _ _ _ Hfind) as [xs Hxs].
  assert (W : with_score 100 (sort_by by_score_desc (positives cands))
              = candidate q p :: map (candidate q) xs).
  { rewrite sort_with_score, with_score_positives by lia.
    unfold cands. rewrite with_score_map_candidate, Hxs. reflexivity. }
  assert (B : Forall (fun m => m_score m <= 100) (sort_by by_score_desc (positives cands))).
  { eapply Permutation_Forall; [symmetry; apply sort_perm|].
    apply List.Forall_forall. intros m Hm. apply filter_In in Hm as [Hm _].
    apply in_map_iff in Hm as [p' [<- _]].
    pose proof (candidate_score q p') as V. cbv zeta in V. lia. }
  destruct (sorted_head_with_score 100 _ _ _ (sort_sorted (positives cands)) B W) as [l' Hl'].
  assert (E : exact_match q p = true).
  { apply List.find_some in Hfind as [_ H]. exact H. }
  assert (C : candidate q p = mkScored (get "id" p) (get "name" p) 100).
  { pose proof (candidate_exact q p) as X. rewrite E in X. apply Z.eqb_eq in X.
    unfold candidate in *. simpl in X. rewrite X. reflexivity. }
  unfold best. fold (positives cands). rewrite Hl', C. simpl. eauto.
Qed.

Lemma no_exact_match_names (q : string) (ps : list jval) :
  List.find (exact_match q) ps = None ->
  Forall (fun p => has_name p = true -> normalize (get "name" p) <> q) ps.
Proof.
  intros H. apply List.Forall_forall. intros p Hin Hn E.
  pose proof (List.find_none _ _ H p Hin) as X.
  unfold exact_match, has_name in *. rewrite Hn, E, String.eqb_refl in X. discriminate X.
Qed.

(** X15.  A query that normalises to the empty string - punctuation only,
    such as a question mark, or blanks - matches every named product.  When
    the name of some product normalises to the empty string as well, the
    first such product is resolved, with score 100.  Otherwise every named
    product matches as a prefix, with score 60, and the first five of them,
    in the order of the set, decide: none gives not-found, exactly one
    resolves to it, and two or more are reported as ambiguous. *)
Theorem resolve_blank_query
  (ps : list jval) (productName : jval) (e : env) (s : state) :
  Forall (fun p => nullish p = false) ps ->
  normalize productName = "" ->
  resolveProductFuzzy (JArr ps) productName e s
  = (Val match List.find (exact_match "") ps with
         | Some p => Resolved (mkScored (get "id" p) (get "name" p) 100)
         | None =>
             let kept := map (fun p => mkScored (get "id" p) (get "name" p) 60)
                           (firstn 5 (List.filter has_name ps)) in
             match kept with
             | [] => NotFound productName
             | [top] => Resolved top
             | _ => Ambiguous kept
             end
         end, s).
Proof.
  intros Hps Hq.
  rewrite (resolveProductFuzzy_objects ps productName e s Hps), Hq.
  destruct (List.find (exact_match "") ps) as [p|] eqn:F.
  - destruct (best_starts_with_exact "" ps p 4 F) as [rest ->].
    simpl. rewrite andb_false_r. reflexivity.
  - cbv zeta. unfold best. fold (positives (map (candidate "") ps)).
    rewrite (positives_blank_query ps (no_exact_match_names "" ps F)).
    rewrite (sort_by_same_score 60).
    2:{ apply List.Forall_forall. intros m Hm. apply in_map_iff in Hm as [p [<- _]].
        reflexivity. }
    rewrite <- firstn_map.
    destruct (List.filter has_name ps) as [|a [|b l]]; reflexivity.
Qed.

Lemma resolve_blank_query_pantry :
  resolveProductFuzzy (JArr [named 1 "Milk"]) (JStr "?") kitchen fresh
  = (Val (Resolved (mkScored (JNum 1) (JStr "Milk") 60)), fresh) /\
  resolveProductFuzzy (JArr pantry) (JStr "?!") kitchen fresh
  = (Val (Ambiguous (map (fun p => mkScored (get "id" p) (get "name" p) 60) pantry)), fresh) /\
  resolveProductFuzzy (JArr [named 1 "Milk"; named 2 "???"; named 3 "Juice"]) (JStr "?")
    kitchen fresh
  = (Val (Resolved (mkScored (JNum 2) (JStr "???") 100)), fresh).
Proof.
  split; [|split].
  - apply (resolve_blank_query [named 1 "Milk"] (JStr "?") kitchen fresh);
      [repeat constructor | reflexivity].
  - apply (resolve_blank_query pantry (JStr "?!") kitchen fresh);
      [repeat constructor | reflexivity].
  - apply (resolve_blank_query [named 1 "Milk"; named 2 "???"; named 3 "Juice"] (JStr "?")
             kitchen fresh);
      [repeat constructor | reflexivity].
Defined.

(** ** The calls of a request and the entries of the cache *)

Section Spends.
Context {A B : Type}.

Lemma sp_still (m : M A) (n : nat) : (forall e s, snd (m e s) = s) -> spends n m.
Proof.
  intros H. split.
  - intros e s r s' E. pose proof (H e s) as K. rewrite E in K. simpl in K. subst s'. lia.
  - intros e s r s' key p E. pose proof (H e s) as K. rewrite E in K. simpl in K. subst s'.
    trivial.
Qed.

Lemma sp_ret (a : A) (n : nat) : spends n (ret a).
Proof. apply sp_still. reflexivity. Qed.

Lemma sp_throw (x : exn) (n : nat) : spends n (@throw A x).
Proof. apply sp_still. reflexivity. Qed.

Lemma sp_Return (r : response) (n : nat) : spends n (@Return A r).
Proof. apply sp_still. reflexivity. Qed.

Lemma sp_asks (f : config -> A) (n : nat) : spends n (asks f).
Proof. apply sp_still. reflexivity. Qed.

Lemma sp_weaken (n n' : nat) (m : M A) : (n <= n')%nat -> spends n m -> spends n' m.
Proof.
  intros Hn [C K]. split; [|exact K].
  intros e s r s' E. specialize (C e s r s' E). lia.
Qed.

Lemma sp_bind_val (P : A -> Prop) (n k : nat) (m : M A) (f : A -> M B) :
  (forall e s a s1, m e s = (Val a, s1) -> P a) ->
  spends n m -> (forall a, P a -> spends k (f a)) -> spends (n + k) (bind m f).
Proof.
  intros HP [Cm Km] Hf. split.
  - intros e s r s' E. unfold bind in E.
    destruct (m e s) as [[a|r0|x] s1] eqn:Em.
    + pose proof (proj1 (Hf a (HP e s a s1 Em)) e s1 r s' E).
      pose proof (Cm e s _ s1 Em). lia.
    + injection E as _ <-. pose proof (Cm e s _ s1 Em). lia.
    + injection E as _ <-. pose proof (Cm e s _ s1 Em). lia.
  - intros e s r s' key p E Hs. unfold bind in E.
    destruct (m e s) as [[a|r0|x] s1] eqn:Em.
    + apply (proj2 (Hf a (HP e s a s1 Em)) e s1 r s' key p E).
      exact (Km e s _ s1 key p Em Hs).
    + injection E as _ <-. exact (Km e s _ s1 key p Em Hs).
    + injection E as _ <-. exact (Km e s _ s1 key p Em Hs).
Qed.

Lemma sp_bind (n k : nat) (m : M A) (f : A -> M B) :
  spends n m -> (forall a, spends k (f a)) -> spends (n + k) (bind m f).
Proof.
  intros Hm Hf. apply (sp_bind_val (fun _ => True)); [trivial | exact Hm | intros a _; apply Hf].
Qed.

Lemma sp_free (n : nat) (m : M A) (f : A -> M B) :
  spends 0 m -> (forall a, spends n (f a)) -> spends n (bind m f).
Proof. exact (sp_bind 0 n m f). Qed.

Lemma sp_paid (n : nat) (m : M A) (f : A -> M B) :
  spends 1 m -> (forall a, spends n (f a)) -> spends (S n) (bind m f).
Proof. exact (sp_bind 1 n m f). Qed.

Lemma sp_try_catch (n k : nat) (m : M A) (h : exn -> M A) :
  spends n m -> (forall x, spends k (h x)) -> spends (n + k) (try_catch m h).
Proof.
  intros [Cm Km] Hh. split.
  - intros e s r s' E. unfold try_catch in E.
    destruct (m e s) as [[a|r0|x] s1] eqn:Em.
    + injection E as _ <-. pose proof (Cm e s _ s1 Em). lia.
    + injection E as _ <-. pose proof (Cm e s _ s1 Em). lia.
    + pose proof (proj1 (Hh x) e s1 r s' E). pose proof (Cm e s _ s1 Em). lia.
  - intros e s r s' key p E Hs. unfold try_catch in E.
    destruct (m e s) as [[a|r0|x] s1] eqn:Em.
    + injection E as _ <-. exact (Km e s _ s1 key p Em Hs).
    + injection E as _ <-. exact (Km e s _ s1 key p Em Hs).
    + apply (proj2 (Hh x) e s1 r s' key p E). exact (Km e s _ s1 key p Em Hs).
Qed.

End Spends.

Lemma sp_mapM {A B} (n : nat) (f : A -> M B) (l : list A) :
  (forall a, spends n (f a)) -> spends (length l * n) (mapM f l).
Proof.
  intros Hf. induction l as [|a l IH]; simpl; [apply sp_ret|].
  apply sp_bind; [apply Hf|]. intros b.
  apply (sp_weaken (length l * n + 0)); [lia|].
  apply sp_bind; [exact IH|]. intros bs. apply sp_ret.
Qed.


Lemma sp_mapM_free {A B} (n : nat) (f : A -> M B) (l : list A) :
  (forall a, spends 0 (f a)) -> spends n (mapM f l).
Proof.
  intros Hf. apply (sp_weaken (length l * 0)); [lia|]. apply sp_mapM, Hf.
Qed.

Lemma sp_json_of (p : payload) (n : nat) : spends n (json_of p).
Proof. apply sp_still. intros e s. destruct p; reflexivity. Qed.

Lemma sp_prop (k : string) (v : jval) (n : nat) : spends n (prop k v).
Proof. apply sp_still. intros e s. unfold prop. destruct (nullish v); reflexivity. Qed.

Lemma sp_elems (v : jval) (n : nat) : spends n (elems v).
Proof. apply sp_still. intros e s. destruct v; reflexivity. Qed.

Lemma sp_sent {A} (m : M A) (rq : request) (n : nat) :
  (forall e s, snd (m e s) = mkState (cache s) (sent s ++ [rq])) -> spends (S n) m.
Proof.
  intros H. split.
  - intros e s r s' E. pose proof (H e s) as K. rewrite E in K. simpl in K. subst s'.
    simpl. rewrite length_app. simpl. lia.
  - intros e s r s' key p E. pose proof (H e s) as K. rewrite E in K. simpl in K. subst s'.
    trivial.
Qed.

Lemma sp_fetch (rq : request) (n : nat) : spends (S n) (fetch rq).
Proof.
  apply (sp_sent _ rq). intros e s. unfold fetch.
  destruct (upstream e (sent s) rq); reflexivity.
Qed.

Lemma sp_fetch_detached (rq : request) (n : nat) : spends (S n) (fetch_detached rq).
Proof. apply (sp_sent _ rq). reflexivity. Qed.

Lemma sp_cacheGetJson (n : nat) (key : string) (fetcher : M response) (ttl : Z) :
  spends n fetcher -> spends n (cacheGetJson key fetcher ttl).
Proof.
  intros [Cf Kf]. split.
  - intros e s r s' E. unfold cacheGetJson, bind, cache_match in E.
    destruct (served e s key) as [c|] eqn:Sv; fold (served e s key) in E; rewrite Sv in E.
    + rewrite json_of_parsed in E. injection E as _ <-. lia.
    + destruct (fetcher e s) as [[resp|r0|x] s0] eqn:F.
      * pose proof (Cf e s _ s0 F). destruct (negb (ok resp)).
        -- injection E as _ <-. assumption.
        -- unfold cache_put in E. rewrite json_of_parsed in E. injection E as _ <-.
           simpl. assumption.
      * injection E as _ <-. exact (Cf e s _ s0 F).
      * injection E as _ <-. exact (Cf e s _ s0 F).
  - intros e s r s' k p E Hs. unfold cacheGetJson, bind, cache_match in E.
    destruct (served e s key) as [c|] eqn:Sv; fold (served e s key) in E; rewrite Sv in E.
    + rewrite json_of_parsed in E. injection E as _ <-. exact Hs.
    + destruct (fetcher e s) as [[resp|r0|x] s0] eqn:F.
      * pose proof (Kf e s _ s0 k p F Hs) as K0. destruct (negb (ok resp)).
        -- injection E as _ <-. exact K0.
        -- unfold cache_put in E. rewrite json_of_parsed in E. injection E as _ <-.
           assert (Hne : key <> k) by (intros ->; congruence).
           change (served e (stored_in e s0 key (rbody resp) ttl) k = Some p).
           rewrite (stored_entry_other_key e e s0 key k (rbody resp) ttl Hne). exact K0.
      * injection E as _ <-. exact (Kf e s _ s0 k p F Hs).
      * injection E as _ <-. exact (Kf e s _ s0 k p F Hs).
Qed.

Lemma sp_cachedCollection (d p : string) (n : nat) : spends (S n) (cachedCollection d p).
Proof.
  unfold cachedCollection, cache_key, api.
  repeat (apply sp_free; [apply sp_asks | intro]).
  apply sp_cacheGetJson, sp_fetch.
Qed.

Lemma sp_getCached (d p f : string) (n : nat) : spends (S n) (getCached d p f).
Proof.
  unfold getCached. apply (sp_weaken (S n + 0)); [lia|].
  apply sp_bind; [apply sp_cachedCollection|]. intros data.
  destruct (negb (truthy data)); [apply sp_throw | apply sp_ret].
Qed.

Lemma sp_try_getCached (d p f : string) (h : exn -> M jval) (n : nat) :
  (forall x, spends 0 (h x)) -> spends (S n) (try_catch (getCached d p f) h).
Proof.
  intros Hh. apply (sp_weaken (S n + 0)); [lia|].
  apply sp_try_catch; [apply sp_getCached | exact Hh].
Qed.

Lemma sp_find_first (f : jval -> M bool) (xs : list jval) (n : nat) :
  (forall x, spends 0 (f x)) -> spends n (find_first f xs).
Proof.
  intros Hf. induction xs as [|x xs IH]; simpl; [apply sp_ret|].
  apply sp_free; [apply Hf|]. intros [|]; [apply sp_ret | exact IH].
Qed.

Lemma sp_js_some (f : jval -> M bool) (xs : list jval) (n : nat) :
  (forall x, spends 0 (f x)) -> spends n (js_some f xs).
Proof.
  intros Hf. induction xs as [|x xs IH]; simpl; [apply sp_ret|].
  apply sp_free; [apply Hf|]. intros [|]; [apply sp_ret | exact IH].
Qed.

Lemma sp_js_find (f : jval -> M bool) (v : jval) (n : nat) :
  (forall x, spends 0 (f x)) -> spends n (js_find f v).
Proof.
  intros Hf. unfold js_find. apply sp_free; [apply sp_elems|]. intros xs.
  apply sp_find_first, Hf.
Qed.

Ltac spends :=
  unfold api, cache_key;
  repeat first
    [ apply sp_ret | apply sp_throw | apply sp_Return | apply sp_asks
    | apply sp_json_of | apply sp_prop | apply sp_elems
    | apply sp_fetch | apply sp_fetch_detached
    | apply sp_try_getCached; intro
    | apply sp_cachedCollection
    | apply sp_js_find; intro
    | apply sp_js_some; intro
    | apply sp_mapM_free; intro
    | apply sp_free; [solve [spends] | intro]
    | apply sp_paid; [solve [spends] | intro]
    | match goal with
      | |- spends _ (if ?b then _ else _) => destruct b
      | |- spends _ (match ?x with _ => _ end) => destruct x
      end ].

Lemma sp_resolveProductFuzzy (products productName : jval) (n : nat) :
  spends n (resolveProductFuzzy products productName).
Proof. unfold resolveProductFuzzy, score_entry. spends. Qed.

Lemma sp_multiple_lists {A} (lists : jval) (n : nat) : spends n (@multiple_lists A lists).
Proof. unfold multiple_lists, id_and_name. spends. Qed.

Lemma sp_selectedList_add (lists id : jval) (n : nat) : spends n (selectedList_add lists id).
Proof. unfold selectedList_add. spends; apply sp_multiple_lists. Qed.

Lemma sp_selectedList_get (lists id : jval) (n : nat) : spends n (selectedList_get lists id).
Proof. unfold selectedList_get. spends; apply sp_multiple_lists. Qed.

Lemma sp_add (req : inbound) : spends 3 (enriched_shopping_list_add req).
Proof.
  unfold enriched_shopping_list_add, getCachedShoppingLists, getCachedProducts. cbv zeta.
  destruct (negb (truthy (safeJson req))); [apply sp_Return|].
  destruct (negb (truthy (get "product" (safeJson req)))
            || negb (is_number (get "amount" (safeJson req)))); [apply sp_Return|].
  apply sp_paid; [spends|]. intros lists.
  apply sp_free; [apply sp_selectedList_add|]. intros selectedList.
  apply sp_paid; [spends|]. intros products.
  apply sp_free; [apply sp_resolveProductFuzzy|]. intros resolved.
  spends.
Qed.

Lemma sp_name_by_id (xs : list jval) (n : nat) : spends n (name_by_id xs).
Proof. unfold name_by_id. spends. Qed.

Lemma sp_lastPurchases (ids : list Z) (m : gmap string jval) :
  spends (length ids) (lastPurchases ids m).
Proof.
  revert m. induction ids as [|id ids IH]; intros m; simpl; [apply sp_ret|].
  unfold cache_key, api.
  repeat (apply sp_free; [apply sp_asks | intro]).
  apply sp_paid; [apply sp_cacheGetJson, sp_fetch|]. intros details.
  destruct (negb (truthy details)); apply IH.
Qed.

Lemma distinct_length (l : list Z) : (length (distinct l) <= length l)%nat.
Proof.
  induction l as [|x l IH]; simpl; [lia|].
  pose proof (List.filter_length_le (fun y => negb (y =? x)) (distinct l)). lia.
Qed.

Lemma numbers_length (l : list jval) : (length (numbers l) <= length l)%nat.
Proof.
  unfold numbers. induction l as [|v l IH]; simpl; [lia|].
  rewrite length_app. destruct v; simpl; lia.
Qed.

Lemma sp_list (req : inbound) : spends 54 (enriched_shopping_list req).
Proof.
  unfold enriched_shopping_list, getCachedShoppingLists, getCachedProducts, getCachedStores.
  cbv zeta.
  apply sp_paid; [spends|]. intros lists.
  apply sp_free; [apply sp_selectedList_get|]. intros selectedList.
  apply sp_free; [spends|]. intros list_id.
  apply sp_free; [spends|]. intros url.
  apply sp_paid; [spends|]. intros itemsResp.
  destruct (negb (ok itemsResp)); [apply sp_Return|].
  apply sp_free; [spends|]. intros parsed.
  apply sp_free; [spends|]. intros all.
  apply (sp_bind_val (fun ids => (length ids <= 50)%nat) 0 52).
  { intros e s ids s1 H. rewrite (mapM_length _ _ _ _ _ _ H), length_take. lia. }
  { spends. }
  intros ids Hids.
  apply sp_paid; [spends|]. intros products.
  apply sp_free; [apply sp_free; [apply sp_elems | intros ps; apply sp_name_by_id]|].
  intros productMap.
  apply sp_paid; [spends|]. intros stores.
  apply sp_free; [apply sp_free; [apply sp_elems | intros ss; apply sp_name_by_id]|].
  intros storeMap.
  apply (sp_bind 50 0).
  { eapply sp_weaken; [|apply sp_lastPurchases].
    pose proof (distinct_length (numbers ids)). pose proof (numbers_length ids). lia. }
  intros lastPurchaseMap.
  apply sp_free; [apply sp_mapM_free; intros i; unfold enrichedItem; spends|].
  intros enrichedItems. apply sp_Return.
Qed.

Lemma sp_stock : spends 2 enriched_stock.
Proof.
  unfold enriched_stock, getCachedProducts.
  apply sp_free; [spends|]. intros url.
  apply sp_paid; [spends|]. intros stockResp.
  destruct (negb (ok stockResp)); [apply sp_Return|].
  apply sp_free; [spends|]. intros parsed.
  apply sp_free; [spends|]. intros all.
  apply sp_free; [spends|]. intros ids.
  destruct (distinct (numbers ids)); [apply sp_Return|].
  apply sp_paid; [spends|]. intros products.
  apply sp_free; [apply sp_free; [apply sp_elems | intros ps; apply sp_name_by_id]|].
  intros productMap.
  apply sp_free; [apply sp_mapM_free; intros i; unfold stockRow; spends|].
  intros enriched. apply sp_Return.
Qed.

Lemma sp_stock_add (req : inbound) : spends 4 (enriched_stock_add req).
Proof.
  unfold enriched_stock_add, getCachedProducts. cbv zeta.
  destruct (negb (truthy (safeJson req))); [apply sp_Return|].
  destruct (negb (truthy (get "product" (safeJson req)))
            || negb (is_number (get "amount" (safeJson req)))); [apply sp_Return|].
  apply sp_paid; [spends|]. intros products.
  apply sp_free; [apply sp_resolveProductFuzzy|]. intros resolved.
  spends.
Qed.

Lemma sp_bulk_line (products item : jval) : spends 3 (bulk_line products item).
Proof.
  unfold bulk_line.
  apply sp_free; [spends|]. intros line.
  destruct (negb (truthy (get "product" item)) || negb (is_number (get "amount" item)));
    [apply sp_ret|].
  apply sp_free; [apply sp_resolveProductFuzzy|]. intros [found|n|ms]; [|apply sp_ret..].
  apply sp_free; [spends|]. intros detailsUrl.
  apply sp_paid.
  { apply (sp_try_catch 1 0); [|intros x; apply sp_ret].
    apply sp_paid; [spends|]. intros detailsResp. spends. }
  intros fetchedDetails. spends.
Qed.

Lemma sp_bulk (req : inbound) : spends 76 (enriched_stock_add_bulk req).
Proof.
  unfold enriched_stock_add_bulk, getCachedProducts. cbv zeta.
  destruct (negb (truthy (safeJson req))); [apply sp_Return|].
  destruct (get "items" (safeJson req)) as [| | | | |[|x xs]|]; try apply sp_Return.
  apply sp_paid; [spends|]. intros products.
  apply (sp_bind 75 0); [|intros results; apply sp_Return].
  eapply sp_weaken; [|apply sp_mapM, sp_bulk_line].
  unfold MAX_ITEMS. rewrite length_take. lia.
Qed.

(** X16.  Apart from product creation, no handler removes or replaces an
    entry the cache serves: what is served under a key when the request
    starts is served under it when the request ends, however the request
    ends. *)
Theorem served_entries_are_kept
  (req : inbound) (e : env) (s s' : state) (r : result response) (key : string) (p : payload) :
  enriched_shopping_list_add req e s = (r, s') \/
  enriched_shopping_list req e s = (r, s') \/
  enriched_stock e s = (r, s') \/
  enriched_stock_add req e s = (r, s') \/
  enriched_stock_add_bulk req e s = (r, s') ->
  served e s key = Some p ->
  served e s' key = Some p.
Proof.
  intros [H | [H | [H | [H | H]]]].
  - exact (proj2 (sp_add req) e s r s' key p H).
  - exact (proj2 (sp_list req) e s r s' key p H).
  - exact (proj2 sp_stock e s r s' key p H).
  - exact (proj2 (sp_stock_add req) e s r s' key p H).
  - exact (proj2 (sp_bulk req) e s r s' key p H).
Qed.

Lemma served_entries_are_kept_kitchen :
  let key := "https://cache.local/v1.1/grocy/products" in
  let stale := mkState {[ key := mkEntry (Json (JArr [named 1 "Milk"])) 2000 ]} [] in
  let req := bulk_request [line 1 "Milk" 2; line 2 "Apple Juice" 1] in
  served kitchen (snd (enriched_stock_add_bulk req kitchen stale)) key
  = Some (Json (JArr [named 1 "Milk"])).
Proof.
  intros key stale req.
  apply (served_entries_are_kept req kitchen stale _
           (fst (enriched_stock_add_bulk req kitchen stale)));
    [right; right; right; right; vm_compute; reflexivity | reflexivity].
Defined.

Lemma sp_find_by_name (collection name : jval) (n : nat) :
  spends n (find_by_name collection name).
Proof. unfold find_by_name. spends. Qed.

Lemma sp_resolvedUnits (units quantity_units : jval) (n : nat) :
  spends n (resolvedUnits units quantity_units).
Proof.
  unfold resolvedUnits, resolveUnit.
  repeat first [ apply sp_find_by_name | apply sp_ret
               | apply sp_free; [first [apply sp_asks | apply sp_prop | apply sp_find_by_name]
                                | intro] ].
Qed.

Lemma sp_check_units (l : list (string * jval)) (n : nat) : spends n (check_units l).
Proof.
  induction l as [|[key unit] l IH]; simpl; [apply sp_ret|].
  destruct (negb (truthy unit)); [apply sp_Return | exact IH].
Qed.

Lemma sp_attachImage (image_url productId : jval) : spends 2 (attachImage image_url productId).
Proof.
  unfold attachImage. destruct (negb (truthy image_url)); [apply sp_ret|].
  apply (sp_try_catch 2 0); [|intros x; apply sp_ret].
  spends.
Qed.

Section Calls.
Context {A B : Type}.

Lemma ca_bind (n k : nat) (m : M A) (f : A -> M B) :
  calls_at_most n m -> (forall a, calls_at_most k (f a)) -> calls_at_most (n + k) (bind m f).
Proof.
  intros Cm Cf e s r s' E. unfold bind in E.
  destruct (m e s) as [[a|r0|x] s1] eqn:Em.
  - pose proof (Cf a e s1 r s' E). pose proof (Cm e s _ s1 Em). lia.
  - injection E as _ <-. pose proof (Cm e s _ s1 Em). lia.
  - injection E as _ <-. pose proof (Cm e s _ s1 Em). lia.
Qed.

Lemma ca_free (n : nat) (m : M A) (f : A -> M B) :
  spends 0 m -> (forall a, calls_at_most n (f a)) -> calls_at_most n (bind m f).
Proof. intros [Cm _]. exact (ca_bind 0 n m f Cm). Qed.

Lemma ca_paid (n : nat) (m : M A) (f : A -> M B) :
  spends 1 m -> (forall a, calls_at_most n (f a)) -> calls_at_most (S n) (bind m f).
Proof. intros [Cm _]. exact (ca_bind 1 n m f Cm). Qed.

Lemma ca_Return (r : response) (n : nat) : calls_at_most n (@Return A r).
Proof. exact (proj1 (sp_Return r n)). Qed.

End Calls.

Lemma ca_create (req : inbound) : calls_at_most 7 (enriched_products_create req).
Proof.
  unfold enriched_products_create, getCachedProducts, cachedLocations, cachedQuantityUnits.
  cbv zeta.
  destruct (negb (truthy (safeJson req))); [apply ca_Return|].
  destruct (negb (truthy (get "name" (safeJson req)))
            || negb (is_string (get "name" (safeJson req)))); [apply ca_Return|].
  apply ca_paid; [spends|]. intros products.
  apply ca_free; [spends|]. intros ps.
  apply ca_free; [spends|]. intros [|]; [apply ca_Return|].
  apply ca_free; [spends|]. intros defaultLocation.
  apply ca_paid; [spends|]. intros locations.
  destruct (negb (truthy locations)); [apply ca_Return|].
  apply ca_free; [apply sp_find_by_name|]. intros location.
  destruct (negb (truthy location)); [apply ca_Return|].
  apply ca_paid; [spends|]. intros units.
  destruct (negb (truthy units)); [apply ca_Return|].
  apply ca_free; [apply sp_resolvedUnits|]. intros resolved.
  apply ca_free; [apply sp_check_units|]. intros _.
  apply ca_paid.
  { destruct (negb (truthy (get "product_group" (safeJson req)))); [apply sp_ret|].
    apply sp_free; [spends|]. intros pgUrl.
    apply sp_paid; [spends|]. intros pgResp.
    destruct (negb (ok pgResp)); [apply sp_Return|].
    apply sp_free; [spends|]. intros groups.
    apply sp_free; [apply sp_find_by_name|]. intros found. spends. }
  intros product_group_id.
  apply ca_free; [spends|]. intros createUrl.
  apply ca_paid; [spends|]. intros createResp.
  destruct (negb (ok createResp)); [apply ca_Return|].
  apply ca_free; [spends|]. intros created.
  apply ca_free; [spends|]. intros productId.
  apply (ca_bind 2 0); [exact (proj1 (sp_attachImage _ _))|]. intros image.
  intros e s r s' H. unfold bind, cache_key, asks, cache_delete, Return in H.
  injection H as _ <-. simpl. lia.
Qed.

(** X17.  The calls one request issues with [fetch] are bounded, whatever
    the request and whatever is answered: at most 3 for an addition to a
    shopping list, 54 for the enriched shopping list (four reads and one
    detail read for each distinct product of the first 50 items), 2 for the
    enriched stock, 7 for a product creation (the fetch of the image from
    its host and its upload among them), 4 for a single stock-add and 76 for
    a bulk stock-add (the product set and three calls a line, for 25
    lines). *)
Theorem calls_of_a_request_are_bounded (req : inbound) :
  calls_at_most 3 (enriched_shopping_list_add req) /\
  calls_at_most 54 (enriched_shopping_list req) /\
  calls_at_most 2 enriched_stock /\
  calls_at_most 7 (enriched_products_create req) /\
  calls_at_most 4 (enriched_stock_add req) /\
  calls_at_most 76 (enriched_stock_add_bulk req).
Proof.
  repeat split.
  - exact (proj1 (sp_add req)).
  - exact (proj1 (sp_list req)).
  - exact (proj1 sp_stock).
  - exact (ca_create req).
  - exact (proj1 (sp_stock_add req)).
  - exact (proj1 (sp_bulk req)).
Qed.
Lemma calls_of_a_request_are_bounded_kitchen :
  length (sent (snd (enriched_stock_add_bulk (bulk_request thirty_lines) kitchen fresh))) = 51%nat /\
  (length (sent (snd (enriched_stock_add_bulk (bulk_request thirty_lines) kitchen fresh)))
   <= length (sent fresh) + 76)%nat.
Proof.
  split; [vm_compute; reflexivity|].
  apply (proj2 (proj2 (proj2 (proj2 (proj2
           (calls_of_a_request_are_bounded (bulk_request thirty_lines))))))
           kitchen fresh
           (fst (enriched_stock_add_bulk (bulk_request thirty_lines) kitchen fresh))).
  vm_compute. reflexivity.
Defined.

(** ** The write of an addition to a shopping list *)

Lemma prefix_step {A B} (m : M A) (k : A -> M B) (e : env) (s s' : state) (r : response) :
  reads_only m ->
  after_success (fun _ _ => False) m ->
  bind m k e s = (Returned r, s') ->
  (status r <> 200 /\ writes s' = writes s) \/
  exists x s1, writes s1 = writes s /\ k x e s1 = (Returned r, s').
Proof.
  intros Hro Hno H. apply bind_inv in H as [H | (x & s1 & Hm & H)].
  - left. split; [|exact (Hro e s _ s' H)].
    intros St. exact (Hno e s r s' H St).
  - right. exists x, s1. split; [exact (Hro e s _ s1 Hm) | exact H].
Qed.

Lemma as_fetching (Q : env -> state -> Prop) (d p f t : string) :
  after_success Q (try_catch (getCached d p f) (fun _ => Return (plain t 502))).
Proof.
  apply as_try_catch; [apply as_never_returns, nr_getCached|].
  intros x. apply as_Return. discriminate.
Qed.

Lemma as_selectedList_add (Q : env -> state -> Prop) (lists id : jval) :
  after_success Q (selectedList_add lists id).
Proof.
  unfold selectedList_add. destruct (truthy id).
  - apply as_bind; [apply as_never_returns, nr_js_find; intros l; never_returns|].
    intros l. destruct (negb (truthy l)); [apply as_Return; discriminate|].
    apply as_never_returns, nr_ret.
  - destruct (strict_eq (js_length lists) (JNum 1)); [apply as_never_returns, nr_ret|].
    destruct (js_gt (js_length lists) 1); [|apply as_Return; discriminate].
    unfold multiple_lists.
    apply as_bind; [apply as_never_returns, nr_elems|]. intros xs.
    apply as_bind.
    + apply as_never_returns, nr_mapM. intros l. unfold id_and_name. never_returns.
    + intros ls. apply as_Return. discriminate.
Qed.

(** X18.  An addition to a shopping list issues at most one write.  When
    it answers 200, the write is the addition itself, for the product and
    the list the answer names and with the amount and the note of the
    request; when it answers anything else, either no write was issued or
    the answer is 502 and the one write issued is the addition the backend
    refused. *)
Theorem add_reports_its_one_write (req : inbound) (e : env) (s s' : state) (r : response) :
  enriched_shopping_list_add req e s = (Returned r, s') ->
  let body := safeJson req in
  let url := upstreamBase (conf e) ++ "/api/stock/shoppinglist/add-product" in
  (status r = 200 ->
     exists productId productName listId listName,
       writes s'
       = (writes s ++ [POST url (JObj [("product_id", productId);
                                       ("product_amount", get "amount" body);
                                       ("note", get "note" body);
                                       ("list_id", listId)])])%list /\
       r = json (JObj [("status", JStr "added");
                       ("list", JObj [("id", listId); ("name", listName)]);
                       ("item", JObj [("product_id", productId);
                                      ("product_name", productName);
                                      ("amount", get "amount" body);
                                      ("note", coalesce (get "note" body) JNull)])]) 200) /\
  (status r <> 200 ->
     writes s' = writes s \/
     status r = 502 /\ exists w, writes s' = (writes s ++ [w])%list).
Proof.
  intros H. cbv zeta.
  assert (Early : status r <> 200 /\ writes s' = writes s ->
            (status r = 200 -> exists productId productName listId listName,
               writes s'
               = (writes s
                  ++ [POST (upstreamBase (conf e) ++ "/api/stock/shoppinglist/add-product")
                        (JObj [("product_id", productId);
                               ("product_amount", get "amount" (safeJson req));
                               ("note", get "note" (safeJson req));
                               ("list_id", listId)])])%list /\
               r = json (JObj [("status", JStr "added");
                               ("list", JObj [("id", listId); ("name", listName)]);
                               ("item", JObj [("product_id", productId);
                                              ("product_name", productName);
                                              ("amount", get "amount" (safeJson req));
                                              ("note", coalesce (get "note" (safeJson req))
                                                         JNull)])]) 200) /\
            (status r <> 200 ->
               writes s' = writes s \/
               status r = 502 /\ exists w, writes s' = (writes s ++ [w])%list)).
  { intros [N W]. split; [intros St; destruct (N St) | intros _; left; exact W]. }
  unfold enriched_shopping_list_add in H. cbv zeta in H.
  destruct (negb (truthy (safeJson req)));
    [injection H as <- <-; apply Early; split; [discriminate | reflexivity]|].
  destruct (negb (truthy (get "product" (safeJson req)))
            || negb (is_number (get "amount" (safeJson req))));
    [injection H as <- <-; apply Early; split; [discriminate | reflexivity]|].
  apply prefix_step in H as [H | (lists & s1 & W1 & H)];
    [apply Early, H | | reads_only | apply as_fetching].
  apply prefix_step in H as [H | (selectedList & s2 & W2 & H)];
    [apply Early; rewrite <- W1; exact H | | apply ro_selectedList_add
    | apply as_selectedList_add].
  apply prefix_step in H as [H | (products & s3 & W3 & H)];
    [apply Early; rewrite <- W1, <- W2; exact H | | reads_only | apply as_fetching].
  apply prefix_step in H as [H | (resolved & s4 & W4 & H)];
    [apply Early; rewrite <- W1, <- W2, <- W3; exact H | | apply ro_resolveProductFuzzy
    | apply as_never_returns, nr_resolveProductFuzzy].
  assert (W : writes s4 = writes s) by congruence. clear W1 W2 W3 W4.
  destruct resolved as [found|n|ms];
    [|injection H as <- <-; apply Early; split; [discriminate | exact W]..].
  apply prefix_step in H as [H | (list_id & s5 & W5 & H)];
    [apply Early; rewrite <- W; exact H | | apply ro_prop | apply as_never_returns, nr_prop].
  unfold bind at 1 in H. unfold api at 1, asks at 1 in H.
  unfold bind, fetch in H.
  destruct (upstream e (sent s5) _) as [addResp|msg]; [|discriminate H].
  destruct s5 as [c l].
  destruct (negb (ok addResp)); injection H as <- <-; rewrite writes_sent, W5, W; simpl.
  - split; [intros [=]|]. intros _. right. split; [reflexivity|]. eexists. reflexivity.
  - split; [|intros N; destruct N; reflexivity]. intros _.
    eexists. eexists. eexists. eexists. split; reflexivity.
Qed.

Lemma add_reports_its_one_write_kitchen :
  let req := add_request (JObj [("product", JStr "milk"); ("amount", JNum 2);
                                ("shopping_list_id", JNum 1)]) in
  exists productId productName listId listName,
    writes (snd (enriched_shopping_list_add req kitchen fresh))
    = [POST "https://grocy.internal/api/stock/shoppinglist/add-product"
         (JObj [("product_id", productId); ("product_amount", JNum 2);
                ("note", JUndef); ("list_id", listId)])] /\
    fst (enriched_shopping_list_add req kitchen fresh)
    = Returned (json (JObj [("status", JStr "added");
                            ("list", JObj [("id", listId); ("name", listName)]);
                            ("item", JObj [("product_id", productId);
                                           ("product_name", productName);
                                           ("amount", JNum 2);
                                           ("note", JNull)])]) 200).
Proof.
  intros req.
  destruct (add_reports_its_one_write req kitchen fresh
              (snd (enriched_shopping_list_add req kitchen fresh))
              (match fst (enriched_shopping_list_add req kitchen fresh) with
               | Returned r => r
               | _ => plain "" 500
               end))
    as [Ok _]; [vm_compute; reflexivity|].
  destruct (Ok eq_refl) as (productId & productName & listId & listName & W & R).
  exists productId, productName, listId, listName. split; [exact W|].
  etransitivity; [|exact (f_equal Returned R)]. vm_compute. reflexivity.
Defined.
(** ** The image of a new product *)







(** ** The checks in front of the handlers *)

(** X20.  A request is let through to the handlers exactly when its
    [Authorization] header is the text [Bearer ] followed by the token
    binding as the language writes it, its method is GET, POST or HEAD, and
    the four backend bindings are set; otherwise it is answered 401, 405 or
    500, the 401 before all else.  The token binding itself is not among the
    bindings checked: when it is not set, the header [Bearer undefined] is
    the one that is let through. *)
Theorem gate_lets_through_iff (authorization : jval) (method : string) (b : bindings) :
  (gate authorization method b = None <->
     authorization = JStr ("Bearer " ++ js_String (OPENAI_BEARER_TOKEN b)) /\
     In method ALLOWED_METHODS /\
     truthy (UPSTREAM_BASE b) = true /\ truthy (GROCY_API_KEY b) = true /\
     truthy (CF_ACCESS_CLIENT_ID b) = true /\ truthy (CF_ACCESS_CLIENT_SECRET b) = true) /\
  (forall r, gate authorization method b = Some r ->
     status r = 401 \/ status r = 405 \/ status r = 500) /\
  (authorization <> JStr ("Bearer " ++ js_String (OPENAI_BEARER_TOKEN b)) ->
   gate authorization method b = Some (plain "Unauthorized" 401)).
Proof.
  assert (A : strict_eq authorization (JStr ("Bearer " ++ js_String (OPENAI_BEARER_TOKEN b)))
              = true
              <-> authorization = JStr ("Bearer " ++ js_String (OPENAI_BEARER_TOKEN b))).
  { split; [apply strict_eq_eq|]. intros ->. simpl. apply String.eqb_refl. }
  assert (Hm : existsb (String.eqb method) ALLOWED_METHODS = true <-> In method ALLOWED_METHODS).
  { rewrite existsb_exists. split.
    - intros [x [Hin Hx]]. apply String.eqb_eq in Hx as ->. exact Hin.
    - intros Hin. exists method. split; [exact Hin | apply String.eqb_refl]. }
  unfold gate.
  destruct (strict_eq authorization _) eqn:Ea; cbn [negb].
  2:{ split; [|split].
      - split; [discriminate|]. intros [H _]. apply A in H. discriminate H.
      - intros r [= <-]. left. reflexivity.
      - reflexivity. }
  destruct (existsb (String.eqb method) ALLOWED_METHODS) eqn:Em; cbn [negb].
  2:{ split; [|split].
      - split; [discriminate|]. intros (_ & H & _). apply Hm in H. discriminate H.
      - intros r [= <-]. right. left. reflexivity.
      - intros N. destruct N. apply A. reflexivity. }
  destruct (truthy (UPSTREAM_BASE b)), (truthy (GROCY_API_KEY b)),
    (truthy (CF_ACCESS_CLIENT_ID b)), (truthy (CF_ACCESS_CLIENT_SECRET b)); cbn [negb orb];
    (split; [|split];
     [ split; [first [discriminate | intros _; repeat split; first [apply A | apply Hm]; reflexivity]
              | first [reflexivity | intros (_ & _ & H1 & H2 & H3 & H4); discriminate] ]
     | intros r H; first [discriminate H | injection H as <-; right; right; reflexivity]
     | intros N; destruct N; apply A; reflexivity ]).
Qed.

Lemma gate_lets_through_unset_token :
  let b := mkBindings JUndef (JStr "https://grocy.internal") (JStr "key") (JStr "id")
             (JStr "secret") in
  gate (JStr "Bearer undefined") "POST" b = None /\
  gate JNull "POST" b = Some (plain "Unauthorized" 401).
Proof.
  intros b. split.
  - apply (proj1 (gate_lets_through_iff (JStr "Bearer undefined") "POST" b)).
    repeat split; simpl; auto.
  - apply (proj2 (proj2 (gate_lets_through_iff JNull "POST" b))). discriminate.
Defined.

(** ** The pass-through *)

(** X21.  What the pass-through answers for a response of the backend is
    that response, unchanged, or the fixed 502; it is the response exactly
    when its status is not 302 and its content type does not name
    [text/html] without naming [application/json].  So the answer is never a
    302 and never such a page - while a redirect of another status, or a
    page without a content type, is passed on. *)
Theorem relay_hides_redirects_and_pages (resp : response) :
  let page r :=
    let ct := js_String (js_or (header_get "content-type" (headers r)) (JStr "")) in
    JsString.includes ct "text/html" && negb (JsString.includes ct "application/json") in
  (relay resp = resp <-> status resp <> 302 /\ page resp = false) /\
  (relay resp <> resp -> relay resp = plain "Access Authentication failed" 502) /\
  status (relay resp) <> 302 /\
  page (relay resp) = false /\
  relay (relay resp) = relay resp.
Proof.
  intros page.
  assert (R : forall r, relay r = if (status r =? 302) || page r
                                  then plain "Access Authentication failed" 502 else r)
    by reflexivity.
  assert (Fixed : relay (plain "Access Authentication failed" 502)
                  = plain "Access Authentication failed" 502) by reflexivity.
  assert (Changed : (status resp =? 302) || page resp = true -> relay resp <> resp).
  { intros C E. rewrite R, C in E.
    destruct (status resp =? 302) eqn:S.
    - apply Z.eqb_eq in S. rewrite <- E in S. discriminate S.
    - simpl in C. rewrite <- E in C. discriminate C. }
  destruct ((status resp =? 302) || page resp) eqn:C.
  - specialize (Changed eq_refl). rewrite (R resp), C in *.
    split; [|split; [|split; [|split]]].
    + split; [intros E; destruct (Changed E)|].
      intros [S P]. apply Z.eqb_neq in S. rewrite S, P in C. discriminate C.
    + reflexivity.
    + discriminate.
    + reflexivity.
    + exact Fixed.
  - rewrite (R resp), C. apply orb_false_elim in C as [S P].
    split; [|split; [|split; [|split]]].
    + split; [|reflexivity]. intros _. apply Z.eqb_neq in S. split; [exact S | exact P].
    + intros N. destruct N. reflexivity.
    + apply Z.eqb_neq, S.
    + exact P.
    + rewrite (R resp), S, P. reflexivity.
Qed.
(** ** Requests that name no shopping list *)

Lemma mapM_id_and_name (ls : list jval) (e : env) (s : state) :
  Forall (fun l => nullish l = false) ls ->
  mapM id_and_name ls e s
  = (Val (map (fun l => JObj [("id", get "id" l); ("name", get "name" l)]) ls), s).
Proof.
  induction 1 as [|l ls Hl _ IH]; [reflexivity|].
  simpl. unfold bind at 1. unfold id_and_name at 1, bind, prop. rewrite Hl.
  unfold ret at 1 2 3. fold (bind (A := list jval) (B := list jval)).
  unfold bind in IH |- *. rewrite IH. reflexivity.
Qed.

(** X22.  A request that names no shopping list ([list_id] absent or
    empty), in front of a backend whose lists are not exactly one.  With no
    list at all the view answers 200 with a [null] list and no items, where
    the addition answers 400 [no_shopping_list_found]; with several lists
    both answer 400 [multiple_lists] with the id and the name of every list,
    in the order of the backend.  In each case the read of the lists is the
    only call. *)
Theorem requests_without_list_id
  (req : inbound) (lists : list jval) (e : env) (s s1 : state) :
  getCachedShoppingLists e s = (Val (JArr lists), s1) ->
  Forall (fun l => nullish l = false) lists ->
  length lists <> 1%nat ->
  let several :=
    json (JObj [("error", JStr "multiple_lists");
                ("lists", JArr (map (fun l => JObj [("id", get "id" l); ("name", get "name" l)])
                                  lists))]) 400 in
  (truthy (searchParams_get "list_id" (searchParams req)) = false ->
   enriched_shopping_list req e s
   = (Returned match lists with
               | [] => json (JObj [("list", JNull); ("items", JArr [])]) 200
               | _ => several
               end, s1)) /\
  (truthy (get "product" (safeJson req)) = true ->
   is_number (get "amount" (safeJson req)) = true ->
   truthy (get "shopping_list_id" (safeJson req)) = false ->
   enriched_shopping_list_add req e s
   = (Returned match lists with
               | [] => jsonError 400 (err "no_shopping_list_found")
               | _ => several
               end, s1)).
Proof.
  intros Hl Hobj Hlen. cbv zeta.
  assert (One : strict_eq (js_length (JArr lists)) (JNum 1) = false).
  { simpl. apply Z.eqb_neq. lia. }
  assert (Many : js_gt (js_length (JArr lists)) 1 = match lists with [] | [_] => false | _ => true end).
  { unfold js_gt. simpl. destruct lists as [|a [|b l]]; try reflexivity.
    apply Z.ltb_lt. simpl length. lia. }
  assert (Mult : forall A, @multiple_lists A (JArr lists) e s1
            = (Returned
                 (json (JObj [("error", JStr "multiple_lists");
                              ("lists",
                                 JArr (map (fun l => JObj [("id", get "id" l);
                                                           ("name", get "name" l)]) lists))])
                    400), s1)).
  { intros A. unfold multiple_lists, elems. unfold bind at 1. unfold ret at 1.
    rewrite (bind_val _ _ _ _ _ _ (mapM_id_and_name lists e s1 Hobj)). reflexivity. }
  split.
  - intros Hid. unfold enriched_shopping_list. cbv zeta.
    rewrite (bind_val _ _ _ _ _ _ (try_catch_val _ _ _ _ _ _ Hl)).
    unfold selectedList_get. rewrite Hid, One, Many.
    destruct lists as [|a [|b l]].
    + reflexivity.
    + destruct Hlen. reflexivity.
    + rewrite (bind_returned _ _ _ _ _ _ (Mult jval)). reflexivity.
  - intros Hp Ha Hid.
    assert (Tb : truthy (safeJson req) = true).
    { destruct (safeJson req); simpl in Hp |- *; congruence. }
    unfold enriched_shopping_list_add. cbv zeta. rewrite Tb, Hp, Ha. cbn [negb orb].
    rewrite (bind_val _ _ _ _ _ _ (try_catch_val _ _ _ _ _ _ Hl)).
    unfold selectedList_add. rewrite Hid, One, Many.
    destruct lists as [|a [|b l]].
    + reflexivity.
    + destruct Hlen. reflexivity.
    + rewrite (bind_returned _ _ _ _ _ _ (Mult jval)). reflexivity.
Qed.

Lemma requests_without_list_id_kitchen :
  let s1 := snd (getCachedShoppingLists kitchen fresh) in
  let several :=
    json (JObj [("error", JStr "multiple_lists");
                ("lists", JArr [named 1 "Weekly"; named 2 "Party"])]) 400 in
  enriched_shopping_list (mkInbound "GET" "/api/enriched/shopping_list" [("list_id", "")]
                            (Text "")) kitchen fresh
  = (Returned several, s1) /\
  enriched_shopping_list_add
    (add_request (JObj [("product", JStr "milk"); ("amount", JNum 1)])) kitchen fresh
  = (Returned several, s1).
Proof.
  intros s1 several.
  split.
  - apply (proj1 (requests_without_list_id
                    (mkInbound "GET" "/api/enriched/shopping_list" [("list_id", "")] (Text ""))
                    [named 1 "Weekly"; named 2 "Party"] kitchen fresh s1
                    ltac:(vm_compute; reflexivity) ltac:(repeat constructor)
                    ltac:(simpl; lia))).
    reflexivity.
  - apply (proj2 (requests_without_list_id
                    (add_request (JObj [("product", JStr "milk"); ("amount", JNum 1)]))
                    [named 1 "Weekly"; named 2 "Party"] kitchen fresh s1
                    ltac:(vm_compute; reflexivity) ltac:(repeat constructor)
                    ltac:(simpl; lia))); reflexivity.
Defined.

(** ** Product creation: duplicates *)

(** X23.  A creation whose name, normalised, is that of a product of the
    cached set - the same name in another case, or with other punctuation -
    is answered 400 [product_exists] with the name as it was sent; the read
    of the product set is the only thing done: no location, unit or group is
    looked up and nothing is written. *)
Theorem creation_rejects_a_known_name
  (req : inbound) (ps : list jval) (e : env) (s s1 : state) :
  let name := get "name" (safeJson req) in
  truthy name = true ->
  is_string name = true ->
  getCachedProducts e s = (Val (JArr ps), s1) ->
  Forall (fun p => is_object p = true) ps ->
  existsb (same_name name) ps = true ->
  enriched_products_create req e s
  = (Returned (jsonError 400 (JObj [("error", JStr "product_exists"); ("product", name)])), s1).
Proof.
  intros name Hname Hstr Hps Hobj Hdup.
  assert (Tb : truthy (safeJson req) = true).
  { subst name. destruct (safeJson req); simpl in Hname |- *; congruence. }
  unfold enriched_products_create. cbv zeta.
  fold name. rewrite Tb, Hname, Hstr. cbn [negb orb].
  rewrite (bind_val _ _ _ _ _ _ (try_catch_val _ _ _ _ _ _ Hps)).
  unfold elems at 1. unfold bind at 1. unfold ret at 1.
  assert (Hsome : js_some (fun p => n <- prop "name" p ;;
                                    ret (String.eqb (normalize n) (normalize name)))
                    ps e s1 = (Val true, s1)).
  { rewrite (js_some_pure _ (same_name name) ps e s1); [rewrite Hdup; reflexivity|].
    intros p Hp. rewrite List.Forall_forall in Hobj.
    unfold bind, prop. rewrite (object_not_nullish p (Hobj p Hp)). reflexivity. }
  rewrite (bind_val _ _ _ _ _ _ Hsome). reflexivity.
Qed.

Lemma creation_rejects_a_known_name_kitchen :
  enriched_products_create
    (post "/api/enriched/products/create" (JObj [("name", JStr "APPLE JUICE!")])) kitchen fresh
  = (Returned (jsonError 400 (JObj [("error", JStr "product_exists");
                                    ("product", JStr "APPLE JUICE!")])),
     snd (getCachedProducts kitchen fresh)).
Proof.
  apply (creation_rejects_a_known_name
           (post "/api/enriched/products/create" (JObj [("name", JStr "APPLE JUICE!")]))
           pantry kitchen fresh);
    [reflexivity | reflexivity | vm_compute; reflexivity | repeat constructor
    | vm_compute; reflexivity].
Defined.
(** ** The writes of a product creation *)

Lemma success_passes {A B} (m : M A) (k : A -> M B) (e : env) (s s' : state) (r : response) :
  reads_only m ->
  after_success (fun _ _ => False) m ->
  bind m k e s = (Returned r, s') ->
  status r = 200 ->
  exists x s1, writes s1 = writes s /\ k x e s1 = (Returned r, s').
Proof.
  intros Hro Hno H St. apply bind_inv in H as [H | (x & s1 & Hm & H)].
  - destruct (Hno e s r s' H St).
  - exists x, s1. split; [exact (Hro e s _ s1 Hm) | exact H].
Qed.

Lemma success_skips {A} (c : bool) (r0 : response) (rest : M A) (e : env) (s s' : state)
  (r : response) :
  status r0 <> 200 ->
  (if c then Return r0 else rest) e s = (Returned r, s') ->
  status r = 200 ->
  rest e s = (Returned r, s').
Proof.
  intros N H St. destruct c; [|exact H]. injection H as <- _. destruct (N St).
Qed.

Lemma attachImage_uploads (image_url productId : jval) (e : env) (s s' : state)
  (out : result (bool * jval)) :
  attachImage image_url productId e s = (out, s') ->
  exists uploads, writes s' = (writes s ++ uploads)%list /\ (length uploads <= 1)%nat.
Proof.
  unfold attachImage. destruct (negb (truthy image_url)).
  { intros [= _ <-]. exists []. split; [symmetry; apply List.app_nil_r | simpl; lia]. }
  unfold try_catch, bind, fetch, api, asks, ret, throw.
  destruct s as [c l]. cbn [cache sent].
  assert (W0 : writes (mkState c (l ++ [GET (js_String image_url)])) = writes (mkState c l)).
  { rewrite writes_sent. apply List.app_nil_r. }
  destruct (upstream e l (GET (js_String image_url))) as [r|msg].
  2:{ intros [= _ <-]. exists []. rewrite W0. split; [symmetry; apply List.app_nil_r | simpl; lia]. }
  destruct (negb (ok r)).
  { intros [= _ <-]. exists []. rewrite W0. split; [symmetry; apply List.app_nil_r | simpl; lia]. }
  destruct (js_gt _ 5000000).
  { intros [= _ <-]. exists []. rewrite W0. split; [symmetry; apply List.app_nil_r | simpl; lia]. }
  destruct (negb (JsString.startsWith _ "image/")).
  { intros [= _ <-]. exists []. rewrite W0. split; [symmetry; apply List.app_nil_r | simpl; lia]. }
  match goal with
  | |- context [upstream e ?h ?rq] => destruct (upstream e h rq) as [up|msg]
  end.
  - destruct (negb (ok up)); intros [= _ <-]; eexists; rewrite writes_sent, W0; simpl;
      (split; [reflexivity | simpl; lia]).
  - intros [= _ <-]. eexists. rewrite writes_sent, W0. simpl. split; [reflexivity | simpl; lia].
Qed.

Lemma fetch_val (rq : request) (r : response) (e : env) (s s' : state) :
  fetch rq e s = (Val r, s') -> s' = mkState (cache s) (sent s ++ [rq]).
Proof.
  unfold fetch. destruct (upstream e (sent s) rq); intros [= _ <-]; reflexivity.
Qed.

(** X24.  A product creation answered 200 has written the product first:
    its first write is the creation call, with the name and the description
    of the request, and it is followed by at most one more write, the upload
    of the image. *)
Theorem creation_writes_the_product_first
  (req : inbound) (e : env) (s s' : state) (r : response) :
  enriched_products_create req e s = (Returned r, s') ->
  status r = 200 ->
  exists ids uploads,
    writes s'
    = (writes s
       ++ POST (upstreamBase (conf e) ++ "/api/objects/products")
            (JObj (("name", get "name" (safeJson req))
                   :: ("description", get "description" (safeJson req)) :: ids))
       :: uploads)%list /\
    (length uploads <= 1)%nat.
Proof.
  intros H St. unfold enriched_products_create in H. cbv zeta in H.
  apply success_skips in H; [|discriminate|exact St].
  apply success_skips in H; [|discriminate|exact St].
  apply success_passes in H as (products & s1 & W1 & H);
    [|reads_only|apply as_fetching|exact St].
  apply success_passes in H as (ps & s2 & W2 & H);
    [|reads_only|apply as_never_returns, nr_elems|exact St].
  apply success_passes in H as (exists_ & s3 & W3 & H);
    [|reads_only|apply as_never_returns, nr_js_some; intros p; never_returns|exact St].
  apply success_skips in H; [|discriminate|exact St].
  apply success_passes in H as (defaultLocation & s4 & W4 & H);
    [|reads_only|apply as_never_returns, nr_asks|exact St].
  apply success_passes in H as (locations & s5 & W5 & H);
    [|apply ro_cachedCollection|apply as_never_returns, nr_cachedCollection|exact St].
  apply success_skips in H; [|discriminate|exact St].
  apply success_passes in H as (location & s6 & W6 & H);
    [|apply ro_find_by_name|apply as_never_returns, nr_find_by_name|exact St].
  apply success_skips in H; [|discriminate|exact St].
  apply success_passes in H as (units & s7 & W7 & H);
    [|apply ro_cachedCollection|apply as_never_returns, nr_cachedCollection|exact St].
  apply success_skips in H; [|discriminate|exact St].
  apply success_passes in H as (resolved & s8 & W8 & H);
    [|apply ro_resolvedUnits|apply as_never_returns, nr_resolvedUnits|exact St].
  apply success_passes in H as (checked & s9 & W9 & H);
    [|apply ro_check_units|apply as_check_units|exact St].
  apply success_passes in H as (product_group_id & s10 & W10 & H);
    [|reads_only|after_success|exact St].
  assert (W : writes s10 = writes s) by congruence.
  clear W1 W2 W3 W4 W5 W6 W7 W8 W9 W10.
  apply bind_inv in H as [H | (createUrl & s11 & Hu & H)]; [discriminate H|].
  injection Hu as <- <-.
  apply bind_inv in H as [H | (createResp & s12 & Hf & H)]; [destruct (nr_fetch _ _ _ _ _ H)|].
  apply fetch_val in Hf. subst s12.
  apply success_skips in H; [|discriminate|exact St].
  apply success_passes in H as (created & s13 & W13 & H);
    [|apply ro_json_of|apply as_never_returns, nr_json_of|exact St].
  apply success_passes in H as (productId & s14 & W14 & H);
    [|apply ro_prop|apply as_never_returns, nr_prop|exact St].
  apply bind_inv in H as [H | (image & s15 & Ha & H)]; [destruct (nr_attachImage _ _ _ _ _ _ H)|].
  destruct (attachImage_uploads _ _ _ _ _ _ Ha) as (uploads & Wu & Hlen).
  unfold bind, cache_key, asks, cache_delete, Return in H. injection H as _ <-.
  eexists. exists uploads. split; [|exact Hlen].
  change (writes (mkState (delete _ (cache s15)) (sent s15))) with (writes s15).
  rewrite Wu, W14, W13. destruct s10 as [c l]. cbn [cache sent].
  rewrite writes_sent, W. simpl.
  rewrite <- List.app_assoc. reflexivity.
Qed.

Lemma creation_writes_the_product_first_kitchen :
  let req := post "/api/enriched/products/create"
               (JObj [("name", JStr "Oat Drink"); ("description", JStr "barista")]) in
  exists ids uploads,
    writes (snd (enriched_products_create req kitchen fresh))
    = POST "https://grocy.internal/api/objects/products"
        (JObj (("name", JStr "Oat Drink") :: ("description", JStr "barista") :: ids))
      :: uploads.
Proof.
  intros req.
  destruct (creation_writes_the_product_first req kitchen fresh
              (snd (enriched_products_create req kitchen fresh))
              (match fst (enriched_products_create req kitchen fresh) with
               | Returned r => r
               | _ => plain "" 500
               end))
    as (ids & uploads & W & _); [vm_compute; reflexivity | reflexivity |].
  exists ids, uploads. exact W.
Defined.
(** ** The rows of the enriched shopping list *)

Lemma success_goes_on {A B} (m : M A) (k : A -> M B) (e : env) (s s' : state) (r : response) :
  after_success (fun _ _ => False) m ->
  bind m k e s = (Returned r, s') ->
  status r = 200 ->
  exists x s1, m e s = (Val x, s1) /\ k x e s1 = (Returned r, s').
Proof.
  intros Hno H St. apply bind_inv in H as [H | (x & s1 & Hm & H)].
  - destruct (Hno e s r s' H St).
  - exists x, s1. split; assumption.
Qed.

Lemma enrichedItem_fields (pm sm lm : gmap string jval) (i row : jval) (e : env) (s s' : state) :
  enrichedItem pm sm lm i e s = (Val row, s') ->
  get "product_id" row = get "product_id" i /\
  get "amount" row = get "amount" i /\
  get "note" row = coalesce (get "note" i) JNull.
Proof.
  unfold enrichedItem, bind, prop. destruct (nullish i); [discriminate|].
  unfold ret. intros [= <- _]. repeat split.
Qed.

Lemma selectedList_get_success (lists id : jval) (e : env) (s s' : state) (a : response) :
  selectedList_get lists id e s = (Returned a, s') ->
  status a = 200 ->
  a = json (JObj [("list", JNull); ("items", JArr [])]) 200.
Proof.
  unfold selectedList_get. intros H St. destruct (truthy id).
  - apply bind_inv in H as [H | (l & s1 & _ & H)].
    + exfalso. revert H. apply nr_js_find. intros x. never_returns.
    + destruct (negb (truthy l)); [injection H as <- _; discriminate St | discriminate H].
  - destruct (strict_eq (js_length lists) (JNum 1)); [discriminate H|].
    destruct (js_gt (js_length lists) 1).
    + unfold multiple_lists in H.
      apply bind_inv in H as [H | (xs & s1 & _ & H)]; [destruct (nr_elems _ _ _ _ _ H)|].
      apply bind_inv in H as [H | (ls & s2 & _ & H)].
      * exfalso. revert H. apply nr_mapM. intros l. unfold id_and_name. never_returns.
      * injection H as <- _. discriminate St.
    + injection H as <- _. reflexivity.
Qed.

(** X25.  When the enriched shopping list answers 200, either no list was
    chosen and the body is a [null] list without items, or the body names
    the chosen list and has exactly one row for each of the first 50 items
    the backend returned for that list, in their order, each with the
    product id, the amount and the note ([null] when absent) of its item: a
    longer list is cut to 50 rows. *)
Theorem list_view_rows (req : inbound) (e : env) (s s' : state) (a : response) :
  enriched_shopping_list req e s = (Returned a, s') ->
  status a = 200 ->
  a = json (JObj [("list", JNull); ("items", JArr [])]) 200 \/
  exists list_id list_name history answer items rows,
    upstream e history
      (GET (upstreamBase (conf e) ++ "/api/objects/shopping_list?list_id=" ++ js_String list_id))
    = Responded answer /\
    rbody answer = Json (JArr items) /\
    a = json (JObj [("list", JObj [("id", list_id); ("name", list_name)]);
                    ("items", JArr rows)]) 200 /\
    length rows = Nat.min 50 (length items) /\
    Forall2 (fun i row =>
               get "product_id" row = get "product_id" i /\
               get "amount" row = get "amount" i /\
               get "note" row = coalesce (get "note" i) JNull)
      (firstn 50 items) rows.
Proof.
  intros H St. unfold enriched_shopping_list in H. cbv zeta in H.
  apply success_goes_on in H as (lists & s1 & _ & H); [|apply as_fetching|exact St].
  apply bind_inv in H as [H | (selectedList & s2 & _ & H)].
  { left. exact (selectedList_get_success _ _ _ _ _ _ H St). }
  right.
  apply success_goes_on in H as (list_id & s3 & _ & H);
    [|apply as_never_returns, nr_prop|exact St].
  apply bind_inv in H as [H | (url & s4 & Hu & H)]; [discriminate H|].
  injection Hu as <- <-.
  apply bind_inv in H as [H | (itemsResp & s5 & Hf & H)]; [destruct (nr_fetch _ _ _ _ _ H)|].
  assert (Hup : upstream e (sent s3)
                  (GET (upstreamBase (conf e) ++ "/api/objects/shopping_list?list_id="
                        ++ js_String list_id)) = Responded itemsResp).
  { unfold fetch in Hf. destruct (upstream e (sent s3) _) as [r0|msg]; [|discriminate Hf].
    injection Hf as -> _. reflexivity. }
  clear Hf.
  apply success_skips in H; [|discriminate|exact St].
  apply bind_inv in H as [H | (parsed & s6 & Hj & H)]; [destruct (nr_json_of _ _ _ _ _ H)|].
  assert (Hbody : rbody itemsResp = Json parsed).
  { destruct (rbody itemsResp) as [v|t]; [|discriminate Hj]. injection Hj as -> _. reflexivity. }
  clear Hj.
  apply bind_inv in H as [H | (all & s7 & He & H)]; [destruct (nr_elems _ _ _ _ _ H)|].
  assert (Hall : parsed = JArr all).
  { destruct parsed; try discriminate He. injection He as -> _. reflexivity. }
  clear He. subst parsed.
  apply success_goes_on in H as (ids & s8 & _ & H);
    [|apply as_never_returns, nr_mapM; intros i; apply nr_prop|exact St].
  apply success_goes_on in H as (products & s9 & _ & H); [|apply as_fetching|exact St].
  apply success_goes_on in H as (productMap & s10 & _ & H);
    [|apply as_never_returns, nr_bind; [apply nr_elems | intros ps; apply nr_name_by_id]
     |exact St].
  apply success_goes_on in H as (stores & s11 & _ & H); [|apply as_fetching|exact St].
  apply success_goes_on in H as (storeMap & s12 & _ & H);
    [|apply as_never_returns, nr_bind; [apply nr_elems | intros ps; apply nr_name_by_id]
     |exact St].
  apply success_goes_on in H as (lastPurchaseMap & s13 & _ & H);
    [|apply as_never_returns, nr_lastPurchases|exact St].
  apply success_goes_on in H as (rows & s14 & Hrows & H);
    [|apply as_never_returns, nr_mapM; intros i; apply nr_enrichedItem|exact St].
  injection H as <- _.
  exists list_id, (get "name" selectedList), (sent s3), itemsResp, all, rows.
  split; [exact Hup|]. split; [exact Hbody|]. split; [reflexivity|]. split.
  - rewrite (mapM_length _ _ _ _ _ _ Hrows), length_take. reflexivity.
  - eapply Forall2_impl; [exact (mapM_Forall2 _ _ _ _ _ _ Hrows)|].
    intros i row [sa [sb Hr]]. exact (enrichedItem_fields _ _ _ _ _ _ _ _ Hr).
Qed.

Lemma list_view_rows_kitchen :
  exists list_id list_name rows,
    fst (enriched_shopping_list (list_request "1") kitchen fresh)
    = Returned (json (JObj [("list", JObj [("id", list_id); ("name", list_name)]);
                            ("items", JArr rows)]) 200) /\
    (length rows <= 50)%nat.
Proof.
  destruct (list_view_rows (list_request "1") kitchen fresh
              (snd (enriched_shopping_list (list_request "1") kitchen fresh))
              (match fst (enriched_shopping_list (list_request "1") kitchen fresh) with
               | Returned a => a
               | _ => plain "" 500
               end))
    as [Empty | (list_id & list_name & history & answer & items & rows & _ & _ & Ha & Hlen & _)];
    [vm_compute; reflexivity | reflexivity | |].
  - exfalso. vm_compute in Empty. discriminate Empty.
  - exists list_id, list_name, rows. split.
    + etransitivity; [|exact (f_equal Returned Ha)]. vm_compute. reflexivity.
    + rewrite Hlen. apply Nat.le_min_l.
Defined.
(** ** Requests that are always answered *)

Lemma truthy_not_nullish (v : jval) : truthy v = true -> nullish v = false.
Proof. destruct v; simpl; congruence. Qed.

Lemma first_where_not_nullish (P : jval -> bool) (xs : list jval) :
  truthy (first_where P xs) = true -> nullish (first_where P xs) = false.
Proof. apply truthy_not_nullish. Qed.

Lemma selectedList_add_outcome (lists : list jval) (id : jval) (e : env) (s : state) :
  Forall (fun l => nullish l = false) lists ->
  (exists l, selectedList_add (JArr lists) id e s = (Val l, s) /\ nullish l = false) \/
  (exists a, selectedList_add (JArr lists) id e s = (Returned a, s)).
Proof.
  intros Hl. destruct (truthy id) eqn:Tid.
  - rewrite (selectedList_add_found lists id e s Hl Tid). cbv zeta.
    destruct (truthy (first_where _ lists)) eqn:T.
    + left. eexists. split; [reflexivity|]. apply truthy_not_nullish, T.
    + right. eexists. reflexivity.
  - unfold selectedList_add. rewrite Tid.
    destruct lists as [|a [|b l]].
    + right. eexists. reflexivity.
    + left. exists a. split; [reflexivity|]. exact (Forall_inv Hl).
    + right.
      assert (One : strict_eq (js_length (JArr (a :: b :: l))) (JNum 1) = false).
      { change (strict_eq (js_length (JArr (a :: b :: l))) (JNum 1))
          with (Z.of_nat (length (a :: b :: l)) =? 1).
        apply Z.eqb_neq. simpl length. lia. }
      assert (Many : js_gt (js_length (JArr (a :: b :: l))) 1 = true).
      { change (js_gt (js_length (JArr (a :: b :: l))) 1)
          with (1 <? Z.of_nat (length (a :: b :: l))).
        apply Z.ltb_lt. simpl length. lia. }
      rewrite One, Many.
      unfold multiple_lists, elems. unfold bind at 1. unfold ret at 1.
      rewrite (bind_val _ _ _ _ _ _ (mapM_id_and_name (a :: b :: l) e s Hl)).
      eexists. reflexivity.
Qed.

(** X26.  In front of a backend that answers every call, with a JSON value
    other than [null] whenever the status is a success, and whose lists and
    products are arrays without [null] entries, the products each with a
    name and an id that have a text, the addition to a shopping list and the
    single stock-add always end with a response, for every request whose
    [product] has a text: no exception leaves the handler. *)
Theorem additions_are_always_answered
  (req : inbound) (lists ps : list jval) (e : env) (s s1 s2 s3 : state) :
  answers_in_json e ->
  has_text (get "product" (safeJson req)) = true ->
  Forall (fun l => nullish l = false) lists ->
  Forall (fun p => nullish p = false) ps ->
  Forall (fun p => in_text p = true) ps ->
  getCachedShoppingLists e s = (Val (JArr lists), s1) ->
  getCachedProducts e s1 = (Val (JArr ps), s2) ->
  getCachedProducts e s = (Val (JArr ps), s3) ->
  (exists a s', enriched_shopping_list_add req e s = (Returned a, s')) /\
  (exists a s', enriched_stock_add req e s = (Returned a, s')).
Proof.
  intros Hwb _ Hlists Hps _ Hl Hp Hp'. split.
  - unfold enriched_shopping_list_add. cbv zeta.
    destruct (negb (truthy (safeJson req))); [eexists; eexists; reflexivity|].
    destruct (negb (truthy (get "product" (safeJson req)))
              || negb (is_number (get "amount" (safeJson req))));
      [eexists; eexists; reflexivity|].
    rewrite (bind_val _ _ _ _ _ _ (try_catch_val _ _ _ _ _ _ Hl)).
    destruct (selectedList_add_outcome lists (get "shopping_list_id" (safeJson req)) e s1 Hlists)
      as [(l & Hsel & Hn) | (a & Hret)].
    2:{ rewrite (bind_returned _ _ _ _ _ _ Hret). eexists; eexists; reflexivity. }
    rewrite (bind_val _ _ _ _ _ _ Hsel).
    rewrite (bind_val _ _ _ _ _ _ (try_catch_val _ _ _ _ _ _ Hp)).
    rewrite (bind_val _ _ _ _ _ _ (resolveProductFuzzy_objects ps _ e s2 Hps)).
    destruct (decision _ _) as [found|n|ms]; [|eexists; eexists; reflexivity..].
    rewrite (bind_val _ _ _ _ _ _ (prop_val "id" l e s2 Hn)).
    unfold bind at 1. unfold api at 1, asks at 1.
    unfold bind, fetch.
    match goal with
    | |- context [upstream e ?h ?rq] => destruct (Hwb h rq) as [r [-> _]]
    end.
    destruct (negb (ok r)); eexists; eexists; reflexivity.
  - unfold enriched_stock_add. cbv zeta.
    destruct (negb (truthy (safeJson req))); [eexists; eexists; reflexivity|].
    destruct (negb (truthy (get "product" (safeJson req)))
              || negb (is_number (get "amount" (safeJson req))));
      [eexists; eexists; reflexivity|].
    rewrite (bind_val _ _ _ _ _ _ (try_catch_val _ _ _ _ _ _ Hp')).
    rewrite (bind_val _ _ _ _ _ _ (resolveProductFuzzy_objects ps _ e s3 Hps)).
    destruct (decision _ _) as [found|n|ms]; [|eexists; eexists; reflexivity..].
    unfold bind at 1. unfold api at 1, asks at 1.
    unfold bind at 1. unfold fetch at 1.
    match goal with
    | |- context [upstream e ?h ?rq] => destruct (Hwb h rq) as [r [-> Hjson]]
    end.
    destruct (ok r) eqn:Ok; cbn [negb]; [|eexists; eexists; reflexivity].
    destruct (Hjson eq_refl) as (v & -> & Hv).
    unfold bind at 1. unfold json_of, ret at 1.
    rewrite (bind_val _ _ _ _ _ _ (prop_val "product" v e _ Hv)).
    unfold bind at 1. unfold api at 1, asks at 1.
    unfold bind at 1. unfold fetch at 1. cbn [sent cache].
    match goal with
    | |- context [upstream e ?h ?rq] => destruct (Hwb h rq) as [r2 [-> _]]
    end.
    destruct (negb (ok r2)); [eexists; eexists; reflexivity|].
    unfold bind at 1. unfold api at 1, asks at 1.
    destruct (is_number (get "price" (safeJson req))); eexists; eexists; reflexivity.
Qed.

Lemma answers_answer_in_json (table : list (request * response)) (c : config) (t : Z) :
  Forall (fun row => ok (snd row) = true ->
                     exists v, rbody (snd row) = Json v /\ nullish v = false) table ->
  answers_in_json (mkEnv c t (answers table)).
Proof.
  intros H history rq. unfold answers. simpl.
  destruct (List.find _ table) as [row|] eqn:F.
  - exists (snd row). split; [reflexivity|].
    apply List.find_some in F as [Hin _].
    rewrite List.Forall_forall in H. exact (H row Hin).
  - eexists. split; [reflexivity|]. discriminate.
Qed.

Lemma kitchen_answers_in_json : answers_in_json kitchen.
Proof.
  apply answers_answer_in_json. unfold kitchen_table.
  repeat constructor;
    first [discriminate | intros _; eexists; split; reflexivity].
Qed.

Lemma additions_are_always_answered_kitchen :
  let req := stock_add_request (JObj [("product", JStr "apple juice"); ("amount", JNum 2)]) in
  (exists a s', enriched_shopping_list_add req kitchen fresh = (Returned a, s')) /\
  (exists a s', enriched_stock_add req kitchen fresh = (Returned a, s')).
Proof.
  intros req.
  apply (additions_are_always_answered req [named 1 "Weekly"; named 2 "Party"] pantry
           kitchen fresh
           (snd (getCachedShoppingLists kitchen fresh))
           (snd (getCachedProducts kitchen (snd (getCachedShoppingLists kitchen fresh))))
           (snd (getCachedProducts kitchen fresh)));
    [exact kitchen_answers_in_json | reflexivity | repeat constructor | repeat constructor
    | repeat constructor
    | vm_compute; reflexivity | vm_compute; reflexivity | vm_compute; reflexivity].
Defined.
